(** * BPO_2025: scheduling policies for hospital admission and staffing

    A shallow embedding of the planners of the repository and the
    properties their specification states about them.

    - [ORP]   : [or.py], the admission-wave planner [ORPlanner].
    - [RL]    : [rl.py], the contextual-bandit planner [RLSubmissionPlanner].
    - [GASA]  : [GASA.py], the fixed-schedule replay adapters.
    - [PM]    : [process_mining.py], the calibration extractor.
    - [Planners] : [planners.py], the priority planner [ImprovedPlanner].

    Conventions.  Simulation time is a whole number of hours ([Z]).
    Python floats are embedded as exact rationals ([Q]) where rounding only
    perturbs a value, and as binary64 floats in [_split_quota], where it
    decides which wave gets a unit.  Python dictionaries are [gmap]s, Python lists are
    lists, and [//] and [%] on integers are [Z.div] and [Z.modulo] (both
    round towards minus infinity for a positive divisor, as in Python). *)

From Stdlib Require Floats.
From Stdlib Require Import ZArith QArith Qround Reals Qreals.
From Stdlib Require Import Lia Lra Lqa Sorting.Sorted Permutation.
From stdpp Require Import gmap list strings.

Close Scope Q_scope.
Close Scope R_scope.
Local Open Scope Z_scope.

(** ** Results of fallible code *)

Inductive error := KeyError | IndexError | OutOfFuel.

Inductive result (A : Type) :=
  | Ok (a : A)
  | Err (e : error).
Arguments Ok {A} a.
Arguments Err {A} e.

Definition bind {A B} (r : result A) (k : A → result B) : result B :=
  match r with
  | Ok a => k a
  | Err e => Err e
  end.

Notation "'let?' x ':=' r 'in' k" := (bind r (λ x, k))
  (at level 10, x pattern, r at level 100, k at level 200).

(** A [for] loop that builds a list and may fail. *)
Fixpoint mapM {A B} (f : A → result B) (l : list A) : result (list B) :=
  match l with
  | [] => Ok []
  | x :: l' =>
      let? y := f x in
      let? ys := mapM f l' in
      Ok (y :: ys)
  end.

(** [d[k]] on a dictionary: [KeyError] when the key is absent. *)
Definition getitem `{Countable K} {V} (d : gmap K V) (k : K) : result V :=
  match d !! k with
  | Some v => Ok v
  | None => Err KeyError
  end.

(** ** Numbers *)

(** [int(x)] on a float: truncation towards zero. *)
Definition int_of_float (x : Q) : Z := Z.quot (Qnum x) (Z.pos (Qden x)).

(** [sum(l)] on a list of integers. *)
Definition sum_ints (l : list Z) : Z := foldr Z.add 0 l.

(** [sum(l)] on a list of floats. *)
Definition sum_floats (l : list Q) : Q := foldr Qplus 0%Q l.

(** [sorted(l, key=key, reverse=True)]: the stable sort by decreasing key.
    Elements with equal keys keep the order they have in [l]. *)
Fixpoint insert_reverse {A} (key : A → Q) (x : A) (l : list A) : list A :=
  match l with
  | [] => [x]
  | y :: l' =>
      if Qle_bool (key y) (key x) then x :: y :: l'
      else y :: insert_reverse key x l'
  end.

Definition sorted_reverse {A} (key : A → Q) (l : list A) : list A :=
  foldr (insert_reverse key) [] l.

(** ** Binary64

    [_split_quota] decides which wave gets a unit of the rounding leftover
    by comparing the remainders of float products, and there the rounding
    of binary64 shows in the result.  Its floats are the kernel's binary64
    floats. *)

(** [float(z)], the conversion Python applies to the integer of
    [float * int] and of [float - int]: the nearest binary64 value, ties to
    even.  (Python raises [OverflowError] past the largest float.) *)
Definition float_of_int (z : Z) : PrimFloat.float :=
  FloatOps.SF2Prim
    (SpecFloat.binary_normalize FloatOps.prec FloatOps.emax z 0 false).

(** [int(x)] on a binary64 float: truncation towards zero.  Python raises
    on an infinity and on a NaN, which the product of a finite share and a
    quota never is; 0 stands for that case. *)
Definition int_of_binary64 (x : PrimFloat.float) : Z :=
  match FloatOps.Prim2SF x with
  | SpecFloat.S754_finite s m e =>
      let v := if 0 <=? e then Z.pos m * 2 ^ e else Z.pos m / 2 ^ (- e) in
      if s then - v else v
  | _ => 0
  end.

(** [sorted(l, key=key, reverse=True)] with binary64 keys, compared with
    [<] as Python's sort does: the stable sort by decreasing key. *)
Fixpoint insert_reverse_float {A} (key : A → PrimFloat.float) (x : A)
    (l : list A) : list A :=
  match l with
  | [] => [x]
  | y :: l' =>
      if PrimFloat.ltb (key x) (key y) then y :: insert_reverse_float key x l'
      else x :: y :: l'
  end.

Definition sorted_reverse_float {A} (key : A → PrimFloat.float) (l : list A)
    : list A :=
  foldr (insert_reverse_float key) [] l.

(** ** Resource types ([problems.ResourceType]) *)

Inductive ResourceType := OR | A_BED | B_BED | INTAKE | ER_PRACTITIONER.

Global Instance ResourceType_eq_dec : EqDecision ResourceType.
Proof. solve_decision. Defined.

Global Instance ResourceType_countable : Countable ResourceType.
Proof.
  refine (inj_countable'
    (λ r, match r with
          | OR => 0%nat | A_BED => 1%nat | B_BED => 2%nat
          | INTAKE => 3%nat | ER_PRACTITIONER => 4%nat end)
    (λ n, match n with
          | 0%nat => OR | 1%nat => A_BED | 2%nat => B_BED
          | 3%nat => INTAKE | _ => ER_PRACTITIONER end) _).
  by intros [].
Defined.

(** * [or.py]: the admission-wave planner *)

Module ORP.

(** [WEEKLY_CAP]: day 1..7 -> resource -> count, the same row every day. *)
Definition WEEKLY_CAP_row : list (ResourceType * Z) :=
  [(OR, 5); (A_BED, 30); (B_BED, 40); (INTAKE, 4); (ER_PRACTITIONER, 9)].

Definition WEEKLY_CAP : list (Z * list (ResourceType * Z)) :=
  map (λ d, (d, WEEKLY_CAP_row)) [1; 2; 3; 4; 5; 6; 7].

Definition next_8am_at_or_after (t : Z) : Z :=
  let hod := t mod 24 in
  let base := t - hod in
  if hod <=? 8 then base + 8 else base + 32.

(** The same function on a time with a fraction of an hour, as Python
    computes it on a float ([t % 24] is [t - 24 * floor(t / 24)]).  On a
    whole number of hours it is [next_8am_at_or_after]. *)
Definition next_8am_at_or_after_float (t : Q) : Z :=
  let hod := int_of_float (t - 24 * inject_Z (Qfloor (t / 24)))%Q in
  let base := int_of_float (t - inject_Z hod)%Q in
  if hod <=? 8 then base + 8 else base + 32.

Definition dow_1_to_7 (t : Z) : Z := ((t / 24) mod 7) + 1.

(** [ORPlanner.__init__] with [cap_schedule=None]: the tuple-keyed
    capacity schedule built from [WEEKLY_CAP]. *)
Definition default_cap : gmap (ResourceType * Z) Z :=
  foldl (λ acc '(d, row),
           foldl (λ acc' '(r, v), <[(r, d) := v]> acc') acc row)
        ∅ WEEKLY_CAP.

(** Ledger key: (week, day 1..7, hour of day). *)
Definition Key : Type := Z * Z * Z.

(** The planner object: [self.cap] and [self._used]. *)
Record planner := Planner {
  cap : gmap (ResourceType * Z) Z;
  _used : gmap Key Z
}.

Definition init : planner := Planner default_cap ∅.

(** [self._used.get(key, 0)] *)
Definition used_get (used : gmap Key Z) (key : Key) : Z := default 0 (used !! key).

Definition _daily_quota (cap : gmap (ResourceType * Z) Z) (d : Z) : result Z :=
  let? i := getitem cap (INTAKE, d) in
  let? er := getitem cap (ER_PRACTITIONER, d) in
  let? a := getitem cap (A_BED, d) in
  let? b := getitem cap (B_BED, d) in
  let beds := a + b in
  let q := Z.min (Z.min (14 * i) (6 * er)) beds in
  Ok (Z.max 48 (Z.min q 64)).

(** The products of line 59, the remainders of line 64 and their order are
    binary64: [f * total] and [raw[i] - ints[i]] convert the integer to a
    float first. *)
Definition _split_quota (total : Z) (fractions : list PrimFloat.float)
    : list Z :=
  let raw := map (λ f, PrimFloat.mul f (float_of_int total)) fractions in
  let ints := map int_of_binary64 raw in
  let leftover := total - sum_ints ints in
  if 0 <? leftover then
    let order :=
      sorted_reverse_float
        (λ i, PrimFloat.sub (nth i raw PrimFloat.zero)
                            (float_of_int (nth i ints 0%Z)))
        (seq 0 (length raw)) in
    foldl (λ ints i, alter (λ x, x + 1) i ints) ints
          (take (Z.to_nat leftover) order)
  else ints.

Definition waves : list Z := [0; 2; 4; 6; 8; 12].

Section wave_shares.
Import PrimFloat.

#[warnings="-inexact-float"]
Definition wave_frac : list float :=
  [0.36; 0.22; 0.16; 0.12; 0.08; 0.06]%float.

End wave_shares.

(** Lines 89-104 and 144-151: the day's quota after the backlog boost and
    the warm-start floor and ceiling.  The two places differ only in
    [days_since_epoch]. *)
Definition day_quota (cap : gmap (ResourceType * Z) Z)
    (d backlog days_since_epoch : Z) : result Z :=
  let? quota_day := _daily_quota cap d in
  let boost := Z.min (quota_day / 2) (backlog / 6) in
  let warm := days_since_epoch <? 14 in
  let floor := if warm then 56 else 50 in
  let cap_max := if warm || (150 <? backlog) then 72 else 64 in
  Ok (Z.min cap_max (Z.max floor (quota_day + boost))).

(** A slot of the two-day horizon: [[tslot, cap, key]]. *)
Definition slot : Type := Z * Z * Key.

(** The body of [for day_offset in (0, 1)]: the six slots of one day, with
    the room left after what the ledger already holds. *)
Definition day_slots_at (cap : gmap (ResourceType * Z) Z) (used : gmap Key Z)
    (base8 backlog day_offset : Z) : result (list slot) :=
  let day_start := base8 + 24 * day_offset in
  let d := dow_1_to_7 day_start in
  let w := day_start / 168 in
  let? quota_day := day_quota cap d backlog (base8 / 24) in
  let subqs := _split_quota quota_day wave_frac in
  Ok (imap (λ idx h_after,
              let tslot := day_start + h_after in
              let key := (w, d, tslot mod 24) in
              let already := used_get used key in
              (tslot, Z.max 0 (nth idx subqs 0 - already), key))
           waves).

Section plan.
Context {Case : Type}.

(** The lists and the ledger a call of [plan] works on. *)
Record work := Work {
  pending : list Case;
  out : list (Case * Z);
  used : gmap Key Z
}.

(** [l.pop()]: removes and returns the last item. *)
Definition pop (l : list Case) : result (Case * list Case) :=
  match rev l with
  | [] => Err IndexError
  | x :: r => Ok (x, rev r)
  end.

(** [for _ in range(k): out.append((pending.pop(), tslot))] *)
Fixpoint place (k : nat) (tslot : Z) (pending : list Case)
    (out : list (Case * Z)) : result (list Case * list (Case * Z)) :=
  match k with
  | O => Ok (pending, out)
  | S k' =>
      let? (c, rest) := pop pending in
      place k' tslot rest (out ++ [(c, tslot)])
  end.

(** [for idx in range(len(slots))] of lines 122-134. *)
Fixpoint fill_slots (slots : list slot) (wk : work) : result work :=
  match slots with
  | [] => Ok wk
  | (tslot, cap, key) :: rest =>
      match pending wk with
      | [] => Ok wk
      | _ :: _ =>
          let k := Z.min cap (Z.of_nat (length (pending wk))) in
          if k <=? 0 then fill_slots rest wk
          else
            let? (pending', out') :=
              place (Z.to_nat k) tslot (pending wk) (out wk) in
            fill_slots rest
              (Work pending' out'
                    (<[key := used_get (used wk) key + k]> (used wk)))
      end
  end.

(** [for slots in day_slots] of lines 121-136. *)
Fixpoint fill_days (day_slots : list (list slot)) (wk : work) : result work :=
  match day_slots with
  | [] => Ok wk
  | slots :: rest =>
      let? wk' := fill_slots slots wk in
      match pending wk' with
      | [] => Ok wk'
      | _ :: _ => fill_days rest wk'
      end
  end.

(** [for i, h_after in enumerate(waves)] of lines 153-163. *)
Fixpoint roll_slots (day_start w d : Z) (subqs : list Z) (i : nat)
    (hs : list Z) (wk : work) : result work :=
  match hs with
  | [] => Ok wk
  | h_after :: rest =>
      match pending wk with
      | [] => Ok wk
      | _ :: _ =>
          let tslot := day_start + h_after in
          let key := (w, d, tslot mod 24) in
          let already := used_get (used wk) key in
          let cap := Z.max 0 (nth i subqs 0 - already) in
          let k := Z.min cap (Z.of_nat (length (pending wk))) in
          let? (pending', out') :=
            place (Z.to_nat k) tslot (pending wk) (out wk) in
          roll_slots day_start w d subqs (S i) rest
            (Work pending' out'
                  (<[key := used_get (used wk) key + k]> (used wk)))
      end
  end.

(** [while pending] of lines 140-164; [fuel] bounds the number of days. *)
Fixpoint roll_forward (fuel : nat) (cap : gmap (ResourceType * Z) Z)
    (base8 n_replan day_offset : Z) (wk : work) : result work :=
  match pending wk with
  | [] => Ok wk
  | _ :: _ =>
      match fuel with
      | O => Err OutOfFuel
      | S fuel' =>
          let day_start := base8 + 24 * day_offset in
          let d := dow_1_to_7 day_start in
          let w := day_start / 168 in
          let backlog := Z.of_nat (length (pending wk)) + n_replan in
          let days_since_epoch := base8 / 24 + day_offset in
          let? quota_day := day_quota cap d backlog days_since_epoch in
          let subqs := _split_quota quota_day wave_frac in
          let? wk' := roll_slots day_start w d subqs 0 waves wk in
          roll_forward fuel' cap base8 n_replan (day_offset + 1) wk'
      end
  end.

(** [ORPlanner.plan]: the decisions and the planner with its new ledger. *)
Definition plan (fuel : nat) (self : planner)
    (cases_to_plan cases_to_replan : list Case) (simulation_time : Z)
    : result (list (Case * Z) * planner) :=
  let earliest := simulation_time + 24 in
  let base8 := next_8am_at_or_after earliest in
  let pending := cases_to_plan in
  match pending with
  | [] => Ok ([], self)
  | _ :: _ =>
      let n_replan := Z.of_nat (length cases_to_replan) in
      let backlog := Z.of_nat (length pending) + n_replan in
      let? day_slots :=
        mapM (day_slots_at (cap self) (_used self) base8 backlog) [0; 1] in
      let? wk := fill_days day_slots (Work pending [] (_used self)) in
      let? wk := roll_forward fuel (cap self) base8 n_replan 2 wk in
      Ok (out wk, Planner (cap self) (used wk))
  end.

End plan.

(** [ORPlanner.schedule].  The staffing of the morning one week ahead
    ([t + 158]) and of the moment one week ahead ([t + 168]), both read
    from the schedule of the day of the morning. *)
Definition schedule (self : planner) (simulation_time : Q)
    : result (list (ResourceType * Z * Z)) :=
  let t := int_of_float simulation_time in
  let t_morning := t + 158 in
  let t_evening := t + 168 in
  let d := dow_1_to_7 t_morning in
  let? out :=
    mapM (λ r, let? v := getitem (cap self) (r, d) in Ok (r, t_morning, v))
         [OR; A_BED; B_BED; INTAKE; ER_PRACTITIONER] in
  let? i := getitem (cap self) (INTAKE, d) in
  let? er := getitem (cap self) (ER_PRACTITIONER, d) in
  let? a := getitem (cap self) (A_BED, d) in
  let? b := getitem (cap self) (B_BED, d) in
  let? o := getitem (cap self) (OR, d) in
  Ok (out ++ [(INTAKE, t_evening, i);
              (ER_PRACTITIONER, t_evening, er);
              (A_BED, t_evening, a);
              (B_BED, t_evening, b);
              (OR, t_evening, Z.max 4 (o - 1))]).

(** The argument [cap_schedule] of [ORPlanner.__init__]: [None], a
    dictionary keyed by [(ResourceType, day)], or a dictionary from days
    to dictionaries from resource types to counts. *)
Inductive cap_arg :=
  | CapNone
  | CapTuple (m : gmap (ResourceType * Z) Z)
  | CapDay (m : gmap Z (gmap ResourceType Z)).

(** Lines 37-41: the conversion of a day-keyed schedule.  The loops write
    a different key for every (day, resource), so the order in which the
    dictionaries are walked does not show in the result. *)
Definition convert (m : gmap Z (gmap ResourceType Z))
    : gmap (ResourceType * Z) Z :=
  map_fold (λ d row acc, map_fold (λ r v acc', <[(r, d) := v]> acc') acc row)
           ∅ m.

(** [ORPlanner.__init__].  [None] is the [StopIteration] that
    [next(iter(cap_schedule.keys()))] raises on an empty dictionary. *)
Definition init_from (cap_schedule : cap_arg) : option planner :=
  match cap_schedule with
  | CapNone => Some init
  | CapTuple m => if decide (m = ∅) then None else Some (Planner m ∅)
  | CapDay m => if decide (m = ∅) then None else Some (Planner (convert m) ∅)
  end.

End ORP.

(** * [rl.py]: the contextual-bandit staffing planner *)

Module RL.

(** [hours_to_dt(h)]: [START_DT] is Monday 2018-01-01 00:00, so the hour
    of day of [h] is [h mod 24] and its weekday (Mon=0..Sun=6) is
    [(h / 24) mod 7].  Times are taken inside the range of [datetime]. *)
Definition hour_of (h : Z) : Z := h mod 24.
Definition weekday_of (h : Z) : Z := (h / 24) mod 7.

Definition is_weekend (h : Z) : bool := 5 <=? weekday_of h.

Definition next_day_0800 (h days_ahead : Z) : Z :=
  let target := (h / 24 + days_ahead) * 24 + 8 in
  Z.max (h + 1) target.

(** Actions: tomorrow's OR level, one of 2, 3, 4, 5. *)
Inductive Action := A2 | A3 | A4 | A5.

Definition level (a : Action) : Z :=
  match a with A2 => 2 | A3 => 3 | A4 => 4 | A5 => 5 end.

Global Instance Action_eq_dec : EqDecision Action.
Proof. solve_decision. Defined.

(** The inner dictionaries [{2: _, 3: _, 4: _, 5: _}] of [Q] and [N]. *)
Record Row (V : Type) := MkRow { at2 : V; at3 : V; at4 : V; at5 : V }.
Arguments MkRow {V}.
Arguments at2 {V}.
Arguments at3 {V}.
Arguments at4 {V}.
Arguments at5 {V}.

Definition row_get {V} (r : Row V) (a : Action) : V :=
  match a with A2 => at2 r | A3 => at3 r | A4 => at4 r | A5 => at5 r end.

Definition row_set {V} (r : Row V) (a : Action) (v : V) : Row V :=
  match a with
  | A2 => MkRow v (at3 r) (at4 r) (at5 r)
  | A3 => MkRow (at2 r) v (at4 r) (at5 r)
  | A4 => MkRow (at2 r) (at3 r) v (at5 r)
  | A5 => MkRow (at2 r) (at3 r) (at4 r) v
  end.

(** [max(q, key=q.get)]: the first key, in the order 2, 3, 4, 5, whose
    value is the largest. *)
Definition argmax (q : Row Q) : Action :=
  let step (best a : Action) : Action :=
    if Qlt_le_dec (row_get q best) (row_get q a) then a else best in
  step (step (step A2 A3) A4) A5.

(** State of the bandit: (weekday, backlog_bin, overtime_flag). *)
Definition State : Type := Z * Z * Z.

(** [self.metrics] *)
Record Metrics := MkMetrics {
  admit_wait : Q;
  in_hosp_wait : Q;
  nerv : Q;
  cost : Q;
  overtime : Z
}.

(** The planner object.  [last_level] and [max_resources] are
    dictionaries with the single key [ResourceType.OR]; the fields hold
    that entry. *)
Record planner := Planner {
  epsilon : Q;
  Qtab : gmap State (Row Q);
  Ntab : gmap State (Row Z);
  last_state : option State;
  last_action : option Action;
  metrics : Metrics;
  ready_or : Z;
  last_level : Z;
  max_resources : Z;
  _scheduled : gmap (ResourceType * Z) Z
}.

Definition init (epsilon : Q) : planner :=
  {| epsilon := epsilon;
     Qtab := ∅;
     Ntab := ∅;
     last_state := None;
     last_action := None;
     metrics := MkMetrics 0 0 0 0 0;
     ready_or := 0;
     last_level := 5;
     max_resources := 5;
     _scheduled := ∅ |}.

(** [d[s]] on a [defaultdict]: a missing key is first set to the default. *)
Definition dd_get {V} (dflt : V) (d : gmap State V) (s : State)
    : V * gmap State V :=
  match d !! s with
  | Some v => (v, d)
  | None => (dflt, <[s := dflt]> d)
  end.

Definition Q_default : Row Q := MkRow 0%Q 0%Q 0%Q 0%Q.
Definition N_default : Row Z := MkRow 0 0 0 0.

(** The reward of lines 91-94. *)
Definition reward (m : Metrics) : Q :=
  (- (admit_wait m + in_hosp_wait m + nerv m + 3 * cost m))%Q.

(** Lines 95-99: the update of [N] and [Q] at [(s, a)] with reward [r]. *)
Definition update (Qt : gmap State (Row Q)) (Nt : gmap State (Row Z))
    (s : State) (a_prev : Action) (r : Q)
    : gmap State (Row Q) * gmap State (Row Z) :=
  let '(nrow, Nt) := dd_get N_default Nt s in
  let n := row_get nrow a_prev + 1 in
  let Nt := <[s := row_set nrow a_prev n]> Nt in
  let '(qrow, Qt) := dd_get Q_default Qt s in
  let q_old := row_get qrow a_prev in
  let Qt := <[s := row_set qrow a_prev (q_old + (r - q_old) / inject_Z n)%Q]> Qt in
  (Qt, Nt).

(** [self._scheduled[key] = v] guarded by
    [key not in self._scheduled or self._scheduled[key] != v]. *)
Definition emit (sched : list (ResourceType * Z * Z))
    (scheduled : gmap (ResourceType * Z) Z) (t v : Z)
    : list (ResourceType * Z * Z) * gmap (ResourceType * Z) Z :=
  match scheduled !! (OR, t) with
  | Some v' =>
      if v' =? v then (sched, scheduled)
      else (sched ++ [(OR, t, v)], <[(OR, t) := v]> scheduled)
  | None => (sched ++ [(OR, t, v)], <[(OR, t) := v]> scheduled)
  end.

(** [RLSubmissionPlanner.schedule].  [coin] is the value drawn by
    [random.random()] and [pick] the one [random.choice([2,3,4,5])] draws
    when it is called. *)
Definition schedule (self : planner) (simulation_time : Z)
    (coin : Q) (pick : Action) : list (ResourceType * Z * Z) * planner :=
  if negb (hour_of simulation_time =? 18) then ([], self)
  else
    let weekday := weekday_of simulation_time in
    let backlog_bin := Z.min 3 (ready_or self / 5) in
    let overtime_flag := if overtime (metrics self) =? 0 then 0 else 1 in
    let s : State := (weekday, backlog_bin, overtime_flag) in
    let '(Qt, Nt) :=
      match last_state self, last_action self with
      | Some ls, Some a_prev =>
          update (Qtab self) (Ntab self) ls a_prev (reward (metrics self))
      | _, _ => (Qtab self, Ntab self)
      end in
    let '(a, Qt) :=
      if Qlt_le_dec coin (epsilon self) then (pick, Qt)
      else let '(q, Qt) := dd_get Q_default Qt s in (argmax q, Qt) in
    let metrics := MkMetrics 0 0 0 0 0 in
    let start_t :=
      Z.max (simulation_time + 14) (next_day_0800 simulation_time 1) in
    let chosen := Z.min (max_resources self) (Z.max 2 (level a)) in
    let existing :=
      default (last_level self) (_scheduled self !! (OR, start_t)) in
    let near := Z.max (Z.max existing (last_level self)) chosen in
    let '(sched, scheduled) := emit [] (_scheduled self) start_t near in
    let week_ahead_t := start_t + 168 in
    let '(sched, scheduled) := emit sched scheduled week_ahead_t chosen in
    (sched,
     {| epsilon := epsilon self;
        Qtab := Qt;
        Ntab := Nt;
        last_state := Some s;
        last_action := Some a;
        metrics := metrics;
        ready_or := ready_or self;
        last_level := near;
        max_resources := max_resources self;
        _scheduled := scheduled |}).

(** [s.upper()], on ASCII letters. *)
Definition upper_ascii (c : Ascii.ascii) : Ascii.ascii :=
  let n := Ascii.nat_of_ascii c in
  if ((97 <=? n) && (n <=? 122))%nat then Ascii.ascii_of_nat (n - 32) else c.

Fixpoint upper (s : string) : string :=
  match s with
  | EmptyString => EmptyString
  | String c s' => String (upper_ascii c) (upper s')
  end.

(** [needle in hay] on strings. *)
Fixpoint contains (needle hay : string) : bool :=
  String.prefix needle hay ||
  match hay with
  | EmptyString => false
  | String _ hay' => contains needle hay'
  end.

(** [RLSubmissionPlanner.report].  [element] is the label of the element,
    or [None] when there is no element; [resource] is [None] when the
    event has no resource. *)
Definition report (self : planner) (element : option string)
    (lifecycle_state : string) (resource : option ResourceType) : planner :=
  let state_is s := String.eqb lifecycle_state s in
  let lbl := upper (default EmptyString element) in
  let m := metrics self in
  let m :=
    if (contains "ADMISSION" lbl || contains "INTAKE" lbl
        || contains "REGISTER" lbl)
       && (state_is "ACTIVATE_EVENT" || state_is "WAITING")
    then MkMetrics (admit_wait m + 1) (in_hosp_wait m) (nerv m) (cost m) (overtime m)
    else m in
  let m :=
    if state_is "ACTIVATE_TASK"
    then MkMetrics (admit_wait m) (in_hosp_wait m + (2 # 10)) (nerv m) (cost m) (overtime m)
    else m in
  let m :=
    if state_is "REPLAN" || state_is "RESCHEDULE"
    then MkMetrics (admit_wait m) (in_hosp_wait m) (nerv m + 1) (cost m) (overtime m)
    else m in
  let m :=
    if state_is "OVERTIME"
    then MkMetrics (admit_wait m) (in_hosp_wait m) (nerv m) (cost m + 3) 1
    else m in
  let m :=
    if state_is "PLANNED_STAFF_LT_1W"
    then MkMetrics (admit_wait m) (in_hosp_wait m) (nerv m) (cost m + 2) (overtime m)
    else if state_is "PLANNED_STAFF_GE_1W"
    then MkMetrics (admit_wait m) (in_hosp_wait m) (nerv m) (cost m + 1) (overtime m)
    else m in
  let ready :=
    match resource with
    | Some OR =>
        if state_is "ACTIVATE_TASK" then ready_or self + 1
        else if state_is "START_TASK" then Z.max 0 (ready_or self - 1)
        else ready_or self
    | _ => ready_or self
    end in
  {| epsilon := epsilon self;
     Qtab := Qtab self;
     Ntab := Ntab self;
     last_state := last_state self;
     last_action := last_action self;
     metrics := m;
     ready_or := ready;
     last_level := last_level self;
     max_resources := max_resources self;
     _scheduled := _scheduled self |}.

(** What the simulator does with the planner between two looks at it. *)
Inductive event :=
  | EvSchedule (simulation_time : Z) (coin : Q) (pick : Action)
  | EvReport (element : option string) (lifecycle_state : string)
             (resource : option ResourceType).

Definition step (self : planner) (e : event) : planner :=
  match e with
  | EvSchedule t coin pick => (schedule self t coin pick).2
  | EvReport el lc res => report self el lc res
  end.

Definition run (self : planner) (evs : list event) : planner :=
  foldl step self evs.

(** ** Score helpers *)

(** The dictionaries of the four KPIs: a run's result and [BASELINE]. *)
Record KPIs := MkKPIs {
  waiting_time_for_admission : Q;
  waiting_time_in_hospital : Q;
  nervousness : Q;
  personnel_cost : Q
}.

Definition BASELINE : KPIs :=
  MkKPIs (2810136992142152 # 10000000000) (4997561385304505 # 1000000000)
         2932427 733449.

Definition _nz (x : Q) : Q := if Qeq_bool x 0 then 1 # 1000000000 else x.

(** The dictionary with the keys ["WTA%"], ["WTH%"], ["NERV%"], ["COST%"]. *)
Record Norm := MkNorm { WTA_pct : Q; WTH_pct : Q; NERV_pct : Q; COST_pct : Q }.

Definition _normalized (yours base : KPIs) : Norm :=
  MkNorm
    (100 * (waiting_time_for_admission yours - waiting_time_for_admission base)
         / _nz (waiting_time_for_admission base))%Q
    (100 * (waiting_time_in_hospital yours - waiting_time_in_hospital base)
         / _nz (waiting_time_in_hospital base))%Q
    (100 * (nervousness yours - nervousness base) / _nz (nervousness base))%Q
    (100 * (personnel_cost yours - personnel_cost base)
         / _nz (personnel_cost base))%Q.

Definition _final_score (norm : Norm) : Q :=
  ((WTA_pct norm + WTH_pct norm + NERV_pct norm + 3 * COST_pct norm) / 6)%Q.

Section plan.
Context {Case : Type}.

(** [for cid in cases_to_plan] of lines 74-77. *)
Fixpoint plan_loop (cases : list Case) (cap1 cap2 slot1 slot2 : Z)
    (out : list (Case * Z)) : list (Case * Z) :=
  match cases with
  | [] => out
  | cid :: rest =>
      if 0 <? cap1 then
        plan_loop rest (cap1 - 1) cap2 slot1 slot2 (out ++ [(cid, slot1)])
      else if 0 <? cap2 then
        plan_loop rest cap1 (cap2 - 1) slot1 slot2 (out ++ [(cid, slot2)])
      else out
  end.

(** [RLSubmissionPlanner.plan] *)
Definition plan (cases_to_plan cases_to_replan : list Case)
    (simulation_time : Z) : list (Case * Z) :=
  let slot1 := next_day_0800 simulation_time 1 in
  let slot1 :=
    if slot1 <? simulation_time + 24 then next_day_0800 simulation_time 2
    else slot1 in
  let slot2 := next_day_0800 simulation_time 2 in
  let cap1 := if negb (is_weekend simulation_time) then 6 else 2 in
  let cap2 := Z.max 1 (cap1 / 2) in
  plan_loop cases_to_plan cap1 cap2 slot1 slot2 [].

End plan.

End RL.

(** * [GASA.py]: the fixed-schedule replay adapters *)

Module GASA.

Section adapters.
Context `{Countable Case}.

(** [FixedPlanner.plan], the planner local to [evaluate]. *)
Definition FixedPlanner_plan (adm_schedule : gmap Case Z)
    (to_plan to_replan : list Case) (now : Z) : list (Case * Z) :=
  map (λ cid, (cid, default (now + 24) (adm_schedule !! cid))) to_plan.

(** [OfflinePlanner.plan] *)
Definition OfflinePlanner_plan (adm_schedule : gmap Case Z)
    (to_plan to_replan : list Case) (now : Z) : list (Case * Z) :=
  map (λ cid, (cid, default (now + 24) (adm_schedule !! cid))) to_plan.

(** [run_ga], the placeholder search.  [draws] are the values that
    [random.randint(0, 24*7)] returns, one for each element of [case_ids]
    in order, and [score] is the value of [random.uniform(100, 200)]. *)
Definition run_ga (case_ids : list Case) (draws : list Z) (score : Q)
    : gmap Case Z * Q :=
  (foldl (λ acc '(cid, t), <[cid := t]> acc) ∅ (zip case_ids draws), score).

(** [run_sa_seed], the placeholder refinement.  [delta cid] is the value
    that [random.randint(-2, 2)] returns for the item of [cid], and
    [score] is the value of [random.uniform(80, 150)]. *)
Definition run_sa_seed (case_ids : list Case) (initial_schedule : gmap Case Z)
    (delta : Case → Z) (score : Q) : gmap Case Z * Q :=
  (map_imap (λ cid t, Some (t + delta cid)) initial_schedule, score).

End adapters.

End GASA.

(** * [process_mining.py]: the calibration extractor *)

Module PM.

(** A row of the event log.  The two timestamps are the values of
    [pd.to_datetime], in seconds; [None] is [NaT]. *)
Record row := Row {
  case_id : string;
  event_label : string;
  start_time : option Q;
  completion_time : option Q
}.

(** [(completion_time - start_time).dt.total_seconds()]; [None] is [NaN]. *)
Definition duration (r : row) : option Q :=
  match completion_time r, start_time r with
  | Some c, Some s => Some (c - s)%Q
  | _, _ => None
  end.

(** [df['event_label'].unique()]: the labels in order of first appearance. *)
Definition unique (l : list string) : list string :=
  foldl (λ acc x, if decide (x ∈ acc) then acc else acc ++ [x]) [] l.

(** [durations.isna().all()] *)
Definition all_na (ds : list (option Q)) : bool :=
  forallb (λ d, match d with None => true | Some _ => false end) ds.

(** The values of a series that are not [NaN]. *)
Definition dropna (ds : list (option Q)) : list Q := omap (λ d, d) ds.

(** [durations.mean()]: the mean of the defined values, [NaN] without any. *)
Definition series_mean (ds : list (option Q)) : option Q :=
  let xs := dropna ds in
  match xs with
  | [] => None
  | _ :: _ => Some (sum_floats xs / inject_Z (Z.of_nat (length xs)))%Q
  end.

(** The sample variance (one degree of freedom removed): [NaN] with fewer
    than two defined values. *)
Definition series_var (ds : list (option Q)) : option Q :=
  let xs := dropna ds in
  match series_mean ds with
  | None => None
  | Some m =>
      if (length xs <=? 1)%nat then None
      else
        Some (sum_floats (map (λ x, (x - m) * (x - m))%Q xs)
              / inject_Z (Z.of_nat (length xs) - 1))%Q
  end.

(** [durations.std()]: the square root of the sample variance. *)
Definition series_std (ds : list (option Q)) : option R :=
  (λ v, sqrt (Q2R v)) <$> series_var ds.

(** The rows of one activity: [df[df['event_label'] == activity]]. *)
Definition rows_of (df : list row) (activity : string) : list row :=
  filter (λ r, event_label r = activity) df.

(** The loop over [activities]: the dictionaries [mean_sec] and [std_sec]. *)
Definition extract (df : list row)
    : gmap string (option Q) * gmap string (option R) :=
  foldl (λ '(mean_sec, std_sec) activity,
           let activity_rows := rows_of df activity in
           if (0 <? length activity_rows)%nat then
             let durations := map duration activity_rows in
             (<[activity := if all_na durations then Some 3600%Q
                            else series_mean durations]> mean_sec,
              <[activity := if all_na durations then Some 1800%R
                            else series_std durations]> std_sec)
           else (mean_sec, std_sec))
        (∅, ∅) (unique (map event_label df)).

Definition mean_sec (df : list row) : gmap string (option Q) := (extract df).1.
Definition std_sec (df : list row) : gmap string (option R) := (extract df).2.

End PM.

(** * [planners.py]: the priority planner [ImprovedPlanner] *)

Module Planners.

Section improved.
Context `{Countable Case}.

(** The planner object: [self.case_priority] and
    [self.replanned_patients]. *)
Record planner := Planner {
  case_priority : gmap Case Q;
  replanned_patients : gset Case
}.

(** [Planner.__init__] *)
Definition init (case_priority : gmap Case Q) : planner :=
  Planner case_priority ∅.

Definition estimate_batch_size (simulation_time : Z) : Z := 5.

(** The loop over [cases_to_replan] of lines 69-73. *)
Definition replan_loop (simulation_time : Z) (cases_to_replan : list Case)
    (planned_cases : list (Case * Z)) (replanned : gset Case)
    : list (Case * Z) * gset Case :=
  foldl (λ '(planned, replanned) case_id,
           if decide (case_id ∈ replanned) then (planned, replanned)
           else (planned ++ [(case_id, simulation_time + 24)],
                 replanned ∪ {[case_id]}))
        (planned_cases, replanned) cases_to_replan.

(** [ImprovedPlanner.plan] *)
Definition plan (self : planner) (cases_to_plan cases_to_replan : list Case)
    (simulation_time : Z) : list (Case * Z) * planner :=
  let base_admission_time := simulation_time + 24 in
  let sorted_cases :=
    sorted_reverse (λ c, default 0%Q (case_priority self !! c)) cases_to_plan in
  let batch_size := estimate_batch_size simulation_time in
  let interval := 1 in
  let planned_cases :=
    mjoin (imap (λ i case_id,
                   if Z.of_nat i <? batch_size
                   then [(case_id, base_admission_time + Z.of_nat i * interval)]
                   else [])
                sorted_cases) in
  let '(planned_cases, replanned) :=
    replan_loop simulation_time cases_to_replan planned_cases
                (replanned_patients self) in
  (planned_cases, Planner (case_priority self) replanned).

(** [ImprovedPlanner.schedule] *)
Definition schedule (self : planner) (simulation_time : Z)
    : list (ResourceType * Z * Z) :=
  let hour_of_week := simulation_time mod 168 in
  let day_of_week := hour_of_week / 24 in
  let is_weekday := day_of_week <? 5 in
  if is_weekday then
    [(OR, simulation_time + 158, 5);
     (A_BED, simulation_time + 158, 30);
     (B_BED, simulation_time + 158, 40);
     (INTAKE, simulation_time + 158, 4);
     (ER_PRACTITIONER, simulation_time + 158, 9);
     (OR, simulation_time + 168, 1);
     (INTAKE, simulation_time + 168, 1)]
  else [].

End improved.

End Planners.

(** * Properties of the admission-wave planner *)

Arguments ORP.waves : simpl never.
Arguments ORP.wave_frac : simpl never.
Arguments ORP._split_quota : simpl never.

Section orp_lists.
Context {Case : Type}.
Implicit Types (wk : ORP.work (Case:=Case)) (p : list Case) (o : list (Case * Z)).

Lemma pop_snoc p x : ORP.pop (p ++ [x]) = Ok (x, p).
Proof.
  unfold ORP.pop. rewrite rev_unit. by rewrite rev_involutive.
Qed.

(** [k] pops take the last [k] cases, last one first. *)
Lemma place_spec k t p o :
  (k ≤ length p)%nat →
  ORP.place k t p o =
    Ok (take (length p - k) p,
        o ++ map (λ c, (c, t)) (rev (drop (length p - k) p))).
Proof.
  revert p o. induction k as [|k IH]; intros p o Hk; simpl.
  - rewrite Nat.sub_0_r, take_ge, drop_ge by lia. by rewrite app_nil_r.
  - destruct p as [|x p' _] using rev_ind; [simpl in Hk; lia|].
    rewrite pop_snoc. simpl. rewrite length_app in *. simpl in *.
    rewrite IH by lia.
    replace (length p' + 1 - S k)%nat with (length p' - k)%nat by lia.
    rewrite take_app_le, drop_app_le by lia.
    rewrite rev_app_distr. simpl. by rewrite <- app_assoc.
Qed.

(** [extends lo wk wk']: the loops took cases from the end of [pending]
    and appended them, in that order, to [out], none before [lo]. *)
Definition extends (lo : Z) wk wk' : Prop :=
  ∃ added,
    ORP.out wk' = ORP.out wk ++ added ∧
    ORP.pending wk = ORP.pending wk' ++ rev (map fst added) ∧
    Forall (λ ct, lo ≤ ct.2) added.

Lemma extends_refl lo wk : extends lo wk wk.
Proof. exists []. by rewrite !app_nil_r. Qed.

Lemma extends_trans lo wk1 wk2 wk3 :
  extends lo wk1 wk2 → extends lo wk2 wk3 → extends lo wk1 wk3.
Proof.
  intros (a1 & Ho1 & Hp1 & Hf1) (a2 & Ho2 & Hp2 & Hf2).
  exists (a1 ++ a2). split_and!.
  - by rewrite Ho2, Ho1, app_assoc.
  - by rewrite Hp1, Hp2, map_app, rev_app_distr, app_assoc.
  - by apply Forall_app.
Qed.

Lemma extends_weaken lo lo' wk wk' :
  lo' ≤ lo → extends lo wk wk' → extends lo' wk wk'.
Proof.
  intros Hle (a & Ho & Hp & Hf). exists a. split_and!; [done..|].
  eapply Forall_impl; [exact Hf|]. simpl. intros; lia.
Qed.

Lemma extends_length lo wk wk' :
  extends lo wk wk' → (length (ORP.pending wk') ≤ length (ORP.pending wk))%nat.
Proof. intros (a & _ & -> & _). rewrite length_app. lia. Qed.

(** One wave: [k] cases placed at [tslot], the ledger entry rewritten. *)
Lemma place_extends lo k tslot wk used' :
  lo ≤ tslot → (k ≤ length (ORP.pending wk))%nat →
  ∃ p' o',
    ORP.place k tslot (ORP.pending wk) (ORP.out wk) = Ok (p', o') ∧
    length p' = (length (ORP.pending wk) - k)%nat ∧
    extends lo wk (ORP.Work p' o' used').
Proof.
  intros Hlo Hk. eexists _, _. split; [by apply place_spec|].
  split; [rewrite length_take; lia|].
  eexists. split_and!; simpl; [done| |].
  - rewrite map_map. simpl. rewrite map_id, rev_involutive.
    by rewrite take_drop.
  - apply Forall_forall. intros [c t] Hin.
    apply list_elem_of_In, in_map_iff in Hin as (? & [= <- <-] & _). done.
Qed.

Lemma fill_slots_extends lo slots wk :
  Forall (λ s : ORP.slot, lo ≤ s.1.1) slots →
  ∃ wk', ORP.fill_slots slots wk = Ok wk' ∧ extends lo wk wk'.
Proof.
  intros Hs. revert wk. induction Hs as [|[[tslot cap] key] slots Ht _ IH];
    intros wk; simpl.
  - eexists; split; [done|apply extends_refl].
  - destruct (ORP.pending wk) as [|c0 p0] eqn:Hp.
    { eexists; split; [done|apply extends_refl]. }
    rewrite <- Hp. case_match; [apply IH|].
    edestruct (place_extends lo
      (Z.to_nat (Z.min cap (Z.of_nat (length (ORP.pending wk))))) tslot wk)
      as (p' & o' & -> & _ & Hext); [done|lia|].
    simpl. edestruct IH as (wk' & -> & Hext').
    eexists; split; [done|]. eapply extends_trans; [apply Hext|apply Hext'].
Qed.

Lemma fill_days_extends lo days wk :
  Forall (Forall (λ s : ORP.slot, lo ≤ s.1.1)) days →
  ∃ wk', ORP.fill_days days wk = Ok wk' ∧ extends lo wk wk'.
Proof.
  intros Hs. revert wk. induction Hs as [|slots days Ht _ IH]; intros wk; simpl.
  - eexists; split; [done|apply extends_refl].
  - destruct (fill_slots_extends lo slots wk Ht) as (wk1 & -> & H1). simpl.
    destruct (ORP.pending wk1) eqn:Hp.
    + eexists; split; [done|exact H1].
    + destruct (IH wk1) as (wk2 & -> & H2).
      eexists; split; [done|]. by eapply extends_trans.
Qed.

Lemma roll_slots_extends lo day_start w d subqs i hs wk :
  Forall (λ h, lo ≤ day_start + h) hs →
  ∃ wk', ORP.roll_slots day_start w d subqs i hs wk = Ok wk' ∧
         extends lo wk wk'.
Proof.
  intros Hs. revert i wk. induction Hs as [|h hs Ht _ IH]; intros i wk; simpl.
  - eexists; split; [done|apply extends_refl].
  - destruct (ORP.pending wk) as [|c0 p0] eqn:Hp.
    { eexists; split; [done|apply extends_refl]. }
    rewrite <- Hp.
    edestruct (place_extends lo) as (p' & o' & -> & _ & Hext); [exact Ht| |].
    2:{ simpl. edestruct IH as (wk' & -> & Hext').
        eexists; split; [done|]. eapply extends_trans; [apply Hext|apply Hext']. }
    lia.
Qed.

End orp_lists.

Lemma next_8am_at_or_after_ge t : t ≤ ORP.next_8am_at_or_after t.
Proof.
  unfold ORP.next_8am_at_or_after.
  pose proof (Z.mod_pos_bound t 24 ltac:(lia)).
  case_match; lia.
Qed.

Lemma next_8am_at_or_after_float_whole (t : Z) :
  ORP.next_8am_at_or_after_float (inject_Z t) = ORP.next_8am_at_or_after t.
Proof.
  unfold ORP.next_8am_at_or_after_float, ORP.next_8am_at_or_after.
  assert (int_of_float (inject_Z t - 24 * inject_Z (Qfloor (inject_Z t / 24)))%Q
          = t mod 24) as ->.
  { unfold int_of_float, Qfloor. simpl.
    change (Z.pos (1 * 24)) with 24.
    rewrite Z.quot_1_r, !Z.mul_1_r, Z.mod_eq by lia. lia. }
  assert (int_of_float (inject_Z t - inject_Z (t mod 24))%Q = t - t mod 24) as ->.
  { unfold int_of_float. simpl. rewrite Z.quot_1_r. lia. }
  done.
Qed.

(** At a time with a fraction of an hour the result can be before the
    argument: 32 for 32.5. *)
Lemma next_8am_at_or_after_float_early :
  ORP.next_8am_at_or_after_float (65 # 2) = 32 ∧ (inject_Z 32 < 65 # 2)%Q.
Proof. split; [reflexivity|by vm_compute]. Qed.

Lemma next_8am_at_or_after_hour t : ORP.next_8am_at_or_after t mod 24 = 8.
Proof.
  unfold ORP.next_8am_at_or_after.
  case_match; Z.div_mod_to_equations; lia.
Qed.

Lemma day_slots_at_times cap used base8 backlog day_offset slots :
  ORP.day_slots_at cap used base8 backlog day_offset = Ok slots →
  Forall (λ s : ORP.slot, base8 + 24 * day_offset ≤ s.1.1) slots.
Proof.
  unfold ORP.day_slots_at.
  destruct (ORP.day_quota _ _ _ _) as [q|]; simpl; [|done].
  intros [= <-]. unfold ORP.waves. repeat constructor; simpl; lia.
Qed.

Section orp_plan.
Context {Case : Type}.
Implicit Types (wk : ORP.work (Case:=Case)).

(** One day of the roll-forward loop. *)
Definition roll_day (cap : gmap (ResourceType * Z) Z)
    (base8 n_replan day_offset : Z) wk : result ORP.work :=
  let day_start := base8 + 24 * day_offset in
  let d := ORP.dow_1_to_7 day_start in
  let backlog := Z.of_nat (length (ORP.pending wk)) + n_replan in
  let? quota_day := ORP.day_quota cap d backlog (base8 / 24 + day_offset) in
  ORP.roll_slots day_start (day_start / 168) d
    (ORP._split_quota quota_day ORP.wave_frac) 0 ORP.waves wk.

Lemma roll_forward_S fuel cap base8 n_replan day_offset wk :
  ORP.pending wk ≠ [] →
  ORP.roll_forward (S fuel) cap base8 n_replan day_offset wk =
    let? wk' := roll_day cap base8 n_replan day_offset wk in
    ORP.roll_forward fuel cap base8 n_replan (day_offset + 1) wk'.
Proof.
  intros Hp. unfold roll_day. cbn [ORP.roll_forward].
  destruct (ORP.pending wk); [done|].
  by destruct (ORP.day_quota _ _ _ _).
Qed.

Lemma roll_forward_nil fuel cap base8 n_replan day_offset wk :
  ORP.pending wk = [] →
  ORP.roll_forward fuel cap base8 n_replan day_offset wk = Ok wk.
Proof. intros Hp. destruct fuel; simpl; by rewrite Hp. Qed.

Lemma roll_forward_O cap base8 n_replan day_offset wk :
  ORP.pending wk ≠ [] →
  ORP.roll_forward 0 cap base8 n_replan day_offset wk = Err OutOfFuel.
Proof. intros Hp. simpl. by destruct (ORP.pending wk). Qed.

Lemma roll_day_extends cap base8 n_replan day_offset wk wk' :
  roll_day cap base8 n_replan day_offset wk = Ok wk' →
  extends (base8 + 24 * day_offset) wk wk'.
Proof.
  unfold roll_day. destruct (ORP.day_quota _ _ _ _) as [q|]; [|done].
  cbn [bind].
  edestruct (roll_slots_extends (Case:=Case) (base8 + 24 * day_offset))
    as (wk1 & -> & H1); [|by intros [= <-]].
  unfold ORP.waves. repeat constructor; lia.
Qed.

Lemma roll_forward_extends fuel cap base8 n_replan day_offset wk wk' :
  ORP.roll_forward fuel cap base8 n_replan day_offset wk = Ok wk' →
  ORP.pending wk' = [] ∧ extends (base8 + 24 * day_offset) wk wk'.
Proof.
  revert day_offset wk.
  induction fuel as [|fuel IH]; intros off wk;
    (destruct (decide (ORP.pending wk = [])) as [Hp|Hp];
     [rewrite roll_forward_nil by done; intros [= <-];
      split; [done|apply extends_refl]|]).
  - by rewrite roll_forward_O.
  - rewrite roll_forward_S by done.
    destruct (roll_day _ _ _ _ _) as [wk1|] eqn:Hd; [|done]. cbn [bind].
    apply roll_day_extends in Hd.
    intros H%IH. destruct H as [Hnil H2]. split; [done|].
    eapply extends_trans; [exact Hd|].
    eapply extends_weaken; [|exact H2]. lia.
Qed.

(** What [plan] returns when it returns: the cases of [cases_to_plan],
    last one first, none before 08:00 of the first day. *)
Lemma plan_shape fuel self (P R : list Case) now outp self' :
  ORP.plan fuel self P R now = Ok (outp, self') →
  map fst outp = rev P ∧
  Forall (λ ct, ORP.next_8am_at_or_after (now + 24) ≤ ct.2) outp.
Proof.
  unfold ORP.plan. destruct P as [|c P]; [by intros [= <- <-]|].
  set (P' := c :: P). set (base8 := ORP.next_8am_at_or_after _).
  cbn [mapM].
  destruct (ORP.day_slots_at _ _ _ _ 0) as [s0|] eqn:H0; cbn [bind]; [|done].
  destruct (ORP.day_slots_at _ _ _ _ 1) as [s1|] eqn:H1; cbn [bind]; [|done].
  apply day_slots_at_times in H0, H1.
  edestruct (fill_days_extends (Case:=Case) base8 [s0; s1]) as (wk1 & -> & E1).
  { repeat constructor; (eapply Forall_impl; [eassumption|simpl; intros; lia]). }
  cbn [bind].
  destruct (ORP.roll_forward _ _ _ _ _ _) as [wk2|] eqn:Hr; cbn [bind]; [|done].
  intros [= <- <-]. apply roll_forward_extends in Hr as [Hnil E2].
  eapply extends_weaken in E2; [|instantiate (1 := base8); lia].
  destruct (extends_trans _ _ _ _ E1 E2) as (a & Ho & Hp & Hf).
  cbn [ORP.out ORP.pending app] in Ho, Hp. rewrite Hnil in Hp.
  cbn [app] in Hp. rewrite Ho. split; [|done].
  fold P'. by rewrite Hp, rev_involutive.
Qed.

End orp_plan.

(** ** The ledger during a call *)

(** Day number of a ledger key, counted from one: the key of a wave of the
    day that starts at [day_start] has day number [day_start / 24 + 1]. *)
Definition key_day (key : ORP.Key) : Z := 7 * key.1.1 + key.1.2.

(** No entry of the ledger is for a day after [B]. *)
Definition ledger_before (B : Z) (used : gmap ORP.Key Z) : Prop :=
  ∀ key v, used !! key = Some v → key_day key ≤ B.

Lemma key_day_of_day day_start h :
  key_day (day_start / 168, ORP.dow_1_to_7 day_start, h) = day_start / 24 + 1.
Proof.
  unfold key_day, ORP.dow_1_to_7. simpl.
  replace 168 with (24 * 7) by done.
  rewrite <- Z.div_div by lia.
  pose proof (Z.div_mod (day_start / 24) 7 ltac:(lia)). lia.
Qed.

Lemma dow_1_to_7_range t : 1 ≤ ORP.dow_1_to_7 t ≤ 7.
Proof.
  unfold ORP.dow_1_to_7. pose proof (Z.mod_pos_bound (t / 24) 7 ltac:(lia)). lia.
Qed.

Lemma ledger_before_exists (used : gmap ORP.Key Z) : ∃ B, ledger_before B used.
Proof.
  induction used as [|key v used Hfresh IH] using map_ind.
  - exists 0. intros key v. by rewrite lookup_empty.
  - destruct IH as [B HB]. exists (Z.max B (key_day key)).
    intros key' v'. rewrite lookup_insert. case_decide as Hk.
    + intros _. subst. lia.
    + intros Hl%HB. lia.
Qed.

Lemma ledger_before_insert B used key v :
  ledger_before B used → key_day key ≤ B → ledger_before B (<[key := v]> used).
Proof.
  intros HB Hk key' v'. rewrite lookup_insert. case_decide; [intros _; by subst|].
  apply HB.
Qed.

Lemma ledger_before_mono B B' used :
  B ≤ B' → ledger_before B used → ledger_before B' used.
Proof. intros Hle HB key v Hl%HB. lia. Qed.

Lemma ledger_before_clean B used key :
  ledger_before B used → B < key_day key → ORP.used_get used key = 0.
Proof.
  intros HB Hk. unfold ORP.used_get.
  destruct (used !! key) eqn:Hl; [|done]. apply HB in Hl. lia.
Qed.

(** ** Quotas *)

(** The schedule has an entry for each resource [_daily_quota] reads, on
    each day 1..7. *)
Definition cap_complete (cap : gmap (ResourceType * Z) Z) : bool :=
  forallb (λ d,
    forallb (λ r, match cap !! (r, d) with Some _ => true | None => false end)
            [INTAKE; ER_PRACTITIONER; A_BED; B_BED])
    [1; 2; 3; 4; 5; 6; 7].

Lemma cap_complete_lookup cap d r :
  cap_complete cap = true → 1 ≤ d ≤ 7 →
  r ∈ [INTAKE; ER_PRACTITIONER; A_BED; B_BED] →
  ∃ v, cap !! (r, d) = Some v.
Proof.
  intros Hc Hd Hr. unfold cap_complete in Hc.
  rewrite forallb_forall in Hc.
  assert (In d [1; 2; 3; 4; 5; 6; 7]) as Hin by (simpl; lia).
  apply Hc in Hin. rewrite forallb_forall in Hin.
  apply list_elem_of_In, Hin in Hr.
  destruct (cap !! (r, d)); [eauto|done].
Qed.

Lemma daily_quota_ok cap d :
  cap_complete cap = true → 1 ≤ d ≤ 7 →
  ∃ q, ORP._daily_quota cap d = Ok q ∧ 48 ≤ q ≤ 64.
Proof.
  intros Hc Hd. unfold ORP._daily_quota, getitem.
  pose proof (λ r, cap_complete_lookup cap d r Hc Hd) as Hl.
  destruct (Hl INTAKE) as [i ->]; [by repeat constructor|].
  destruct (Hl ER_PRACTITIONER) as [er ->]; [by repeat constructor|].
  destruct (Hl A_BED) as [a ->]; [by repeat constructor|].
  destruct (Hl B_BED) as [b ->]; [by repeat constructor|].
  cbn [bind]. eexists; split; [done|]. lia.
Qed.

Lemma day_quota_bounds cap d backlog days q :
  ORP.day_quota cap d backlog days = Ok q → 50 ≤ q ≤ 72.
Proof.
  unfold ORP.day_quota. destruct (ORP._daily_quota cap d) as [q0|]; [|done].
  cbn [bind]. intros [= <-].
  destruct (days <? 14), (150 <? backlog); simpl; lia.
Qed.

Lemma day_quota_ok cap d backlog days :
  cap_complete cap = true → 1 ≤ d ≤ 7 →
  ∃ q, ORP.day_quota cap d backlog days = Ok q ∧ 50 ≤ q ≤ 72.
Proof.
  intros Hc Hd. destruct (daily_quota_ok cap d Hc Hd) as (q0 & Hq0 & _).
  destruct (ORP.day_quota cap d backlog days) as [q|e] eqn:Hq.
  - exists q. split; [done|]. by eapply day_quota_bounds.
  - unfold ORP.day_quota in Hq. by rewrite Hq0 in Hq.
Qed.

(** For each quota a day can have, the sub-quotas of the six waves. *)
Definition quota_table : list (Z * list Z) :=
  map (λ q, (q, ORP._split_quota q ORP.wave_frac)) (seqZ 50 23).

Lemma quota_table_lookup q :
  50 ≤ q ≤ 72 → (q, ORP._split_quota q ORP.wave_frac) ∈ quota_table.
Proof.
  intros Hq. unfold quota_table.
  apply (list_elem_of_fmap_2 (λ q, (q, ORP._split_quota q ORP.wave_frac))).
  apply elem_of_seqZ. lia.
Qed.

Lemma quota_table_facts :
  Forall (λ '(q, subqs),
            length subqs = 6%nat ∧ sum_ints subqs = q ∧
            Forall (λ s, 1 ≤ s) subqs)
         quota_table.
Proof.
  apply Forall_forall. intros [q subqs] Hin.
  assert (forallb (λ '(q, subqs),
            (length subqs =? 6)%nat && (sum_ints subqs =? q) &&
            forallb (λ s, 1 <=? s) subqs) quota_table = true) as Hb
    by (vm_compute; reflexivity).
  rewrite forallb_forall in Hb. apply list_elem_of_In, Hb in Hin.
  apply andb_prop in Hin as [Hin H3]. apply andb_prop in Hin as [H1 H2].
  split_and!; [by apply Nat.eqb_eq|by apply Z.eqb_eq|].
  apply Forall_forall. intros s Hs. rewrite forallb_forall in H3.
  apply list_elem_of_In, H3 in Hs. lia.
Qed.

(** Each wave of a day gets a positive share of the day's quota, and the
    shares add up to the quota. *)
Lemma split_quota_waves q :
  50 ≤ q ≤ 72 →
  length (ORP._split_quota q ORP.wave_frac) = 6%nat ∧
  sum_ints (ORP._split_quota q ORP.wave_frac) = q ∧
  Forall (λ s, 1 ≤ s) (ORP._split_quota q ORP.wave_frac).
Proof.
  intros Hq%quota_table_lookup.
  pose proof quota_table_facts as Hf. rewrite Forall_forall in Hf.
  by apply Hf in Hq.
Qed.

(** ** Termination of the roll-forward loop *)

Section orp_termination.
Context {Case : Type}.
Implicit Types (wk : ORP.work (Case:=Case)).

Lemma roll_slots_cons day_start w d subqs i h hs wk :
  ORP.pending wk ≠ [] →
  ORP.roll_slots day_start w d subqs i (h :: hs) wk =
    let key := (w, d, (day_start + h) mod 24) in
    let k := Z.min (Z.max 0 (nth i subqs 0 - ORP.used_get (ORP.used wk) key))
                   (Z.of_nat (length (ORP.pending wk))) in
    let? pat := ORP.place (Z.to_nat k) (day_start + h)
                          (ORP.pending wk) (ORP.out wk) in
    ORP.roll_slots day_start w d subqs (S i) hs
      (ORP.Work pat.1 pat.2
         (<[key := ORP.used_get (ORP.used wk) key + k]> (ORP.used wk))).
Proof.
  intros Hp. cbn [ORP.roll_slots]. destruct (ORP.pending wk) eqn:E; [done|].
  cbn zeta. by destruct (ORP.place _ _ _ _) as [[??]|].
Qed.

Lemma roll_slots_ledger_before B day_start w d subqs i hs wk wk' :
  ORP.roll_slots day_start w d subqs i hs wk = Ok wk' →
  ledger_before B (ORP.used wk) → 7 * w + d ≤ B →
  ledger_before B (ORP.used wk').
Proof.
  intros Hr HB Hk. revert i wk Hr HB.
  induction hs as [|h hs IH]; intros i wk; cbn [ORP.roll_slots].
  - by intros [= <-].
  - destruct (ORP.pending wk) eqn:Hp; [by intros [= <-]|]. rewrite <- Hp.
    destruct (ORP.place _ _ _ _) as [[p' o']|]; cbn [bind]; [|done].
    intros Hr HB. eapply IH; [exact Hr|]. cbn [ORP.used].
    by apply ledger_before_insert.
Qed.

Lemma roll_day_ledger_before B cap base8 n_replan day_offset wk wk' :
  roll_day cap base8 n_replan day_offset wk = Ok wk' →
  ledger_before B (ORP.used wk) →
  ledger_before (Z.max B (base8 / 24 + day_offset + 1)) (ORP.used wk').
Proof.
  unfold roll_day. destruct (ORP.day_quota _ _ _ _) as [q|]; cbn [bind]; [|done].
  intros Hr HB. eapply roll_slots_ledger_before; [exact Hr| |].
  - eapply ledger_before_mono; [|exact HB]. lia.
  - pose proof (key_day_of_day (base8 + 24 * day_offset) 0) as Hk.
    unfold key_day in Hk. simpl in Hk. rewrite Hk.
    replace (base8 + 24 * day_offset) with (day_offset * 24 + base8) by lia.
    rewrite Z.div_add_l by lia. lia.
Qed.

(** A day whose first wave is not in the ledger yet takes at least one
    case. *)
Lemma roll_day_progress B cap base8 n_replan day_offset wk wk' :
  roll_day cap base8 n_replan day_offset wk = Ok wk' →
  ORP.pending wk ≠ [] →
  ledger_before B (ORP.used wk) → B < base8 / 24 + day_offset + 1 →
  (length (ORP.pending wk') < length (ORP.pending wk))%nat.
Proof.
  unfold roll_day.
  destruct (ORP.day_quota _ _ _ _) as [q|] eqn:Hq; cbn [bind]; [|done].
  apply day_quota_bounds in Hq.
  destruct (split_quota_waves q Hq) as (Hlen & _ & Hpos).
  intros Hr Hp HB Hlt. unfold ORP.waves in Hr.
  rewrite roll_slots_cons in Hr by done. cbn zeta in Hr.
  set (key := (_, _, _)) in Hr.
  assert (ORP.used_get (ORP.used wk) key = 0) as Hclean.
  { eapply ledger_before_clean; [exact HB|]. unfold key.
    rewrite key_day_of_day.
    replace (base8 + 24 * day_offset) with (day_offset * 24 + base8) by lia.
    rewrite Z.div_add_l by lia. lia. }
  rewrite Hclean in Hr.
  assert (1 ≤ nth 0 (ORP._split_quota q ORP.wave_frac) 0) as Hfirst.
  { destruct (ORP._split_quota q ORP.wave_frac) as [|s0 ?]; [done|].
    by inversion Hpos. }
  set (k := Z.to_nat _) in Hr.
  assert (1 ≤ length (ORP.pending wk))%nat as Hne
    by (destruct (ORP.pending wk); [done|simpl; lia]).
  assert (1 ≤ k ≤ length (ORP.pending wk))%nat as Hk by (unfold k; lia).
  destruct (place_extends (Case:=Case) (base8 + 24 * day_offset + 0) k
              (base8 + 24 * day_offset + 0) wk
              (<[key := 0 + Z.min (Z.max 0 (nth 0 (ORP._split_quota q ORP.wave_frac) 0 - 0))
                               (Z.of_nat (length (ORP.pending wk)))]> (ORP.used wk)))
    as (p' & o' & Hpl & Hlen' & _); [lia..|].
  rewrite Hpl in Hr. cbn [bind fst snd] in Hr.
  edestruct (roll_slots_extends (Case:=Case) (base8 + 24 * day_offset))
    as (wk2 & Hr2 & Hext); [|rewrite Hr2 in Hr].
  { repeat constructor; lia. }
  injection Hr as <-. apply extends_length in Hext. simpl in Hext. lia.
Qed.

Lemma roll_forward_fuel_mono fuel fuel' cap base8 n_replan day_offset wk wk' :
  ORP.roll_forward fuel cap base8 n_replan day_offset wk = Ok wk' →
  (fuel ≤ fuel')%nat →
  ORP.roll_forward fuel' cap base8 n_replan day_offset wk = Ok wk'.
Proof.
  revert fuel' day_offset wk. induction fuel as [|fuel IH]; intros fuel' off wk;
    (destruct (decide (ORP.pending wk = [])) as [Hp|Hp];
     [by rewrite !roll_forward_nil by done|]).
  - by rewrite roll_forward_O.
  - intros Hr Hle. destruct fuel' as [|fuel']; [lia|].
    rewrite roll_forward_S in * by done.
    destruct (roll_day _ _ _ _ _) as [wk1|]; [|done]. cbn [bind] in *.
    eapply IH; [exact Hr|lia].
Qed.

Lemma roll_forward_terminates fuel B cap base8 n_replan day_offset wk :
  cap_complete cap = true →
  ledger_before B (ORP.used wk) →
  (Z.to_nat (B - (base8 / 24 + day_offset)) + length (ORP.pending wk) ≤ fuel)%nat →
  ∃ wk', ORP.roll_forward fuel cap base8 n_replan day_offset wk = Ok wk'.
Proof.
  intros Hc. revert B day_offset wk.
  induction fuel as [|fuel IH]; intros B off wk HB Hfuel;
    (destruct (decide (ORP.pending wk = [])) as [Hp|Hp];
     [rewrite roll_forward_nil by done; eauto|]).
  - destruct (ORP.pending wk); [done|simpl in Hfuel; lia].
  - rewrite roll_forward_S by done.
    destruct (roll_day cap base8 n_replan off wk) as [wk1|e] eqn:Hd.
    + cbn [bind].
      pose proof (roll_day_ledger_before _ _ _ _ _ _ _ Hd HB) as HB1.
      pose proof (extends_length _ _ _ (roll_day_extends _ _ _ _ _ _ Hd)) as Hlen.
      eapply IH; [exact HB1|].
      destruct (decide (B < base8 / 24 + off + 1)) as [Hclean|Hdirty].
      * pose proof (roll_day_progress _ _ _ _ _ _ _ Hd Hp HB Hclean). lia.
      * lia.
    + exfalso. unfold roll_day in Hd.
      edestruct (day_quota_ok cap) as (q & Hq & _);
        [exact Hc|apply dow_1_to_7_range|rewrite Hq in Hd].
      cbn [bind] in Hd.
      edestruct (roll_slots_extends (Case:=Case)) as (wk2 & Hr2 & _);
        [|rewrite Hr2 in Hd; done].
      instantiate (1 := base8 + 24 * off). unfold ORP.waves.
      repeat constructor; lia.
Qed.

End orp_termination.

Section orp_total.
Context {Case : Type}.

Lemma day_slots_at_ok cap used base8 backlog day_offset :
  cap_complete cap = true →
  ∃ slots, ORP.day_slots_at cap used base8 backlog day_offset = Ok slots.
Proof.
  intros Hc. unfold ORP.day_slots_at.
  edestruct (day_quota_ok cap) as (q & -> & _);
    [exact Hc|apply dow_1_to_7_range|].
  cbn [bind]. eauto.
Qed.

(** With a complete capacity schedule [plan] returns, whatever the ledger
    holds, once the fuel covers the days it has to visit. *)
Lemma plan_returns self (P R : list Case) now :
  cap_complete (ORP.cap self) = true →
  ∃ fuel0 outp self',
    ∀ fuel, (fuel0 ≤ fuel)%nat → ORP.plan fuel self P R now = Ok (outp, self').
Proof.
  intros Hc. unfold ORP.plan. destruct P as [|c P]; [by exists 0%nat; eauto|].
  set (P' := c :: P). set (base8 := ORP.next_8am_at_or_after _).
  set (backlog := _ + _). cbn [mapM].
  destruct (day_slots_at_ok (ORP.cap self) (ORP._used self) base8 backlog 0 Hc)
    as [s0 H0].
  destruct (day_slots_at_ok (ORP.cap self) (ORP._used self) base8 backlog 1 Hc)
    as [s1 H1].
  rewrite H0, H1. cbn [bind].
  apply day_slots_at_times in H0, H1.
  edestruct (fill_days_extends (Case:=Case) base8 [s0; s1]) as (wk1 & -> & _).
  { repeat constructor; (eapply Forall_impl; [eassumption|simpl; intros; lia]). }
  cbn [bind].
  destruct (ledger_before_exists (ORP.used wk1)) as [B HB].
  set (fuel0 := (Z.to_nat (B - (base8 / 24 + 2)) + length (ORP.pending wk1))%nat).
  destruct (roll_forward_terminates fuel0 B (ORP.cap self) base8
              (Z.of_nat (length R)) 2 wk1 Hc HB ltac:(done)) as [wk2 Hr].
  exists fuel0, (ORP.out wk2), (ORP.Planner (ORP.cap self) (ORP.used wk2)).
  intros fuel Hfuel.
  by rewrite (roll_forward_fuel_mono _ _ _ _ _ _ _ _ Hr Hfuel).
Qed.

End orp_total.

(** ** Properties of the bandit planner's [plan] *)

Lemma next_day_0800_2_lead h : h + 24 ≤ RL.next_day_0800 h 2.
Proof. unfold RL.next_day_0800. Z.div_mod_to_equations. lia. Qed.

Lemma plan_loop_times {Case} lo (cases : list Case) cap1 cap2 slot1 slot2 out :
  lo ≤ slot1 → lo ≤ slot2 →
  Forall (λ ct, lo ≤ ct.2) out →
  Forall (λ ct, lo ≤ ct.2) (RL.plan_loop cases cap1 cap2 slot1 slot2 out).
Proof.
  intros H1 H2. revert cap1 cap2 out.
  induction cases as [|cid cases IH]; intros cap1 cap2 out Ho; simpl; [done|].
  repeat case_match; [apply IH|apply IH|done];
    (apply Forall_app; split; [done|by repeat constructor]).
Qed.

Lemma rl_plan_lead_time {Case} (P R : list Case) now :
  Forall (λ ct, now + 24 ≤ ct.2) (RL.plan P R now).
Proof.
  unfold RL.plan. pose proof (next_day_0800_2_lead now).
  apply plan_loop_times; [|done|done].
  case_match eqn:E; [done|]. lia.
Qed.

(** ** Properties of the replay adapters *)

Lemma replay_plan_times `{Countable Case} (adm : gmap Case Z)
    (P R : list Case) now :
  Forall (λ ct, ct.2 = default (now + 24) (adm !! ct.1))
         (GASA.FixedPlanner_plan adm P R now) ∧
  GASA.OfflinePlanner_plan adm P R now = GASA.FixedPlanner_plan adm P R now.
Proof.
  split; [|done]. unfold GASA.FixedPlanner_plan.
  apply Forall_forall. intros [c t] Hin.
  by apply list_elem_of_In, in_map_iff in Hin as (? & [= <- <-] & _).
Qed.

(** * Lead time of admissions *)

(** C1, as stated, fails for the replay adapters: a schedule that records
    hour 0 for a case is replayed as it is at hour 10. *)
Lemma replay_plan_before_lead_time :
  (1%positive, 0) ∈ GASA.FixedPlanner_plan {[1%positive := 0]} [1%positive] [] 10 ∧
  (1%positive, 0) ∈ GASA.OfflinePlanner_plan {[1%positive := 0]} [1%positive] [] 10 ∧
  0 < 10 + 24.
Proof. split_and!; [by left|by left|lia]. Qed.

(** C1 (amended): at a whole-hour simulation time [now], every timestamp
    returned by [plan] of the admission-wave planner and of the bandit
    planner is at least [now + 24]; [plan] of the replay adapters returns
    for each case the timestamp its schedule records, or [now + 24] when it
    records none, so that its timestamps are at least [now + 24] when the
    recorded ones are. *)
Theorem plan_lead_time `{Countable Case} (adm : gmap Case Z)
    (P R : list Case) now :
  (∀ fuel self outp self',
     ORP.plan fuel self P R now = Ok (outp, self') →
     Forall (λ ct, now + 24 ≤ ct.2) outp) ∧
  Forall (λ ct, now + 24 ≤ ct.2) (RL.plan P R now) ∧
  Forall (λ ct, ct.2 = default (now + 24) (adm !! ct.1))
         (GASA.FixedPlanner_plan adm P R now) ∧
  Forall (λ ct, ct.2 = default (now + 24) (adm !! ct.1))
         (GASA.OfflinePlanner_plan adm P R now) ∧
  ((∀ c t, adm !! c = Some t → now + 24 ≤ t) →
   Forall (λ ct, now + 24 ≤ ct.2) (GASA.FixedPlanner_plan adm P R now) ∧
   Forall (λ ct, now + 24 ≤ ct.2) (GASA.OfflinePlanner_plan adm P R now)).
Proof.
  destruct (replay_plan_times adm P R now) as [Hfix Hoff].
  split_and!.
  - intros fuel self outp self' Hplan. apply plan_shape in Hplan as [_ Hout].
    eapply Forall_impl; [exact Hout|]. simpl. intros ct Hct.
    pose proof (next_8am_at_or_after_ge (now + 24)). lia.
  - apply rl_plan_lead_time.
  - exact Hfix.
  - by rewrite Hoff.
  - intros Hadm. rewrite Hoff.
    assert (Forall (λ ct : Case * Z, now + 24 ≤ ct.2)
              (GASA.FixedPlanner_plan adm P R now)) as Hle; [|done].
    eapply Forall_impl; [exact Hfix|]. simpl. intros [c t] ->. simpl.
    destruct (adm !! c) as [t'|] eqn:Hl; simpl; [by eapply Hadm|lia].
Qed.

Lemma plan_lead_time_witness :
  ORP.plan 0 ORP.init [1%positive; 2%positive; 3%positive] [] 5
    = Ok ([(3%positive, 32); (2%positive, 32); (1%positive, 32)],
          ORP.Planner ORP.default_cap {[ (0, 2, 8) := 3 ]}) ∧
  (∀ c t, ({[1%positive := 40]} : gmap positive Z) !! c = Some t → 5 + 24 ≤ t) ∧
  Forall (λ ct, 5 + 24 ≤ ct.2)
         [(3%positive, 32); (2%positive, 32); (1%positive, 32)] ∧
  Forall (λ ct, 5 + 24 ≤ ct.2)
         (RL.plan [1%positive; 2%positive; 3%positive] [] 5) ∧
  Forall (λ ct, 5 + 24 ≤ ct.2)
         (GASA.FixedPlanner_plan {[1%positive := 40]}
            [1%positive; 2%positive; 3%positive] [] 5).
Proof.
  assert (∀ c t, ({[1%positive := 40]} : gmap positive Z) !! c = Some t →
                 5 + 24 ≤ t) as Hadm.
  { intros c t. rewrite lookup_singleton. case_decide; [|done].
    intros [= <-]. lia. }
  split; [vm_compute; reflexivity|]. split; [exact Hadm|].
  pose proof (plan_lead_time {[1%positive := 40]}
                [1%positive; 2%positive; 3%positive] [] 5)
    as (H1 & H2 & _ & _ & H5).
  split; [|split].
  - exact (H1 0%nat ORP.init _ _ ltac:(vm_compute; reflexivity)).
  - exact H2.
  - exact (proj1 (H5 Hadm)).
Defined.

(** * Termination and coverage of the admission-wave planner *)

(** C7: with a capacity schedule that has the entries [_daily_quota]
    reads, a call of [plan] returns (the roll-forward loop empties the
    queue after finitely many days, whatever the ledger holds), and the
    cases of the returned list are exactly those of [cases_to_plan], each
    once, the last one first. *)
Theorem plan_terminates_and_assigns {Case} self (P R : list Case) now :
  cap_complete (ORP.cap self) = true →
  ∃ fuel0 outp self',
    (∀ fuel, (fuel0 ≤ fuel)%nat →
       ORP.plan fuel self P R now = Ok (outp, self')) ∧
    map fst outp = rev P ∧
    map fst outp ≡ₚ P.
Proof.
  intros Hc. destruct (plan_returns self P R now Hc) as (fuel0 & outp & self' & Hr).
  exists fuel0, outp, self'. split; [exact Hr|].
  destruct (plan_shape fuel0 self P R now outp self' (Hr fuel0 ltac:(done)))
    as [Hfst _].
  split; [exact Hfst|]. rewrite Hfst. apply Permutation_sym, Permutation_rev.
Qed.

Lemma plan_terminates_and_assigns_witness :
  cap_complete (ORP.cap ORP.init) = true ∧
  ∃ fuel0 outp self',
    (∀ fuel, (fuel0 ≤ fuel)%nat →
       ORP.plan fuel ORP.init [1%positive; 2%positive] [7%positive] 5
         = Ok (outp, self')) ∧
    map fst outp = rev [1%positive; 2%positive] ∧
    map fst outp ≡ₚ [1%positive; 2%positive].
Proof.
  split; [reflexivity|].
  apply (plan_terminates_and_assigns ORP.init). reflexivity.
Defined.

(** * Re-plan requests *)

(** C9: a case that is only in [cases_to_replan] is not in the list that
    [plan] of the admission-wave planner returns. *)
Theorem plan_ignores_replans {Case} fuel self (P R : list Case) now outp self' c :
  ORP.plan fuel self P R now = Ok (outp, self') →
  c ∈ R → c ∉ P → c ∉ map fst outp.
Proof.
  intros Hplan _ HP. apply plan_shape in Hplan as [-> _].
  intros Hin%list_elem_of_In. apply in_rev in Hin.
  by apply HP, list_elem_of_In.
Qed.

Lemma plan_ignores_replans_witness :
  ORP.plan 0 ORP.init [1%positive; 2%positive] [7%positive] 5
    = Ok ([(2%positive, 32); (1%positive, 32)],
          ORP.Planner ORP.default_cap {[ (0, 2, 8) := 2 ]}) ∧
  (7%positive ∈ [7%positive]) ∧
  (7%positive ∉ [1%positive; 2%positive]) ∧
  (7%positive ∉ map fst [(2%positive, 32); (1%positive, 32)]).
Proof.
  assert (7%positive ∉ [1%positive; 2%positive]) as Hnot
    by (intros Hin; repeat (apply elem_of_cons in Hin as [|Hin]; [done|]);
        by apply elem_of_nil in Hin).
  split_and!; [vm_compute; reflexivity|by left|exact Hnot|].
  apply (plan_ignores_replans 0 ORP.init [1%positive; 2%positive] [7%positive] 5
           _ _ 7%positive ltac:(vm_compute; reflexivity) ltac:(by left) Hnot).
Defined.

(** * Properties of the bandit planner's [schedule] *)

(** The near-term slot of a call at [now]: tomorrow 08:00, no sooner than
    14 hours ahead. *)
Definition near_slot (now : Z) : Z :=
  Z.max (now + 14) (RL.next_day_0800 now 1).

(** The level [schedule] commits for the near-term slot. *)
Definition near_level (self : RL.planner) (now : Z) (a : RL.Action) : Z :=
  let chosen := Z.min (RL.max_resources self) (Z.max 2 (RL.level a)) in
  let existing :=
    default (RL.last_level self) (RL._scheduled self !! (OR, near_slot now)) in
  Z.max (Z.max existing (RL.last_level self)) chosen.

Lemma emit_spec sched scheduled t v sched' scheduled' :
  RL.emit sched scheduled t v = (sched', scheduled') →
  (sched' = sched ∨ sched' = sched ++ [(OR, t, v)]) ∧
  scheduled' !! (OR, t) = Some v ∧
  (∀ key, key ≠ (OR, t) → scheduled' !! key = scheduled !! key).
Proof.
  unfold RL.emit. destruct (scheduled !! (OR, t)) as [v'|] eqn:Hl.
  - destruct (v' =? v) eqn:Hv; intros [= <- <-].
    + apply Z.eqb_eq in Hv as ->. eauto.
    + split_and!; [by right|by rewrite lookup_insert_eq|].
      intros key Hk. by rewrite lookup_insert_ne.
  - intros [= <- <-]. split_and!; [by right|by rewrite lookup_insert_eq|].
    intros key Hk. by rewrite lookup_insert_ne.
Qed.

(** What a call at 18:00 emits and commits. *)
Lemma schedule_at_18 self now coin pick sched self' :
  RL.hour_of now = 18 →
  RL.schedule self now coin pick = (sched, self') →
  ∃ a,
    RL.last_action self' = Some a ∧
    RL.last_level self' = near_level self now a ∧
    RL._scheduled self' !! (OR, near_slot now) = Some (near_level self now a) ∧
    (∀ t lvl, (OR, t, lvl) ∈ sched →
       (t = near_slot now ∧ lvl = near_level self now a) ∨
       t = near_slot now + 168).
Proof.
  intros Hh. unfold RL.schedule. rewrite Hh. cbn [Z.eqb Pos.eqb negb].
  destruct (match RL.last_state self with Some _ => _ | None => _ end)
    as [Qt Nt].
  destruct (if Qlt_le_dec coin (RL.epsilon self) then _ else _) as [a Qt'].
  fold (near_slot now). fold (near_level self now a).
  destruct (RL.emit [] _ _ _) as [sched1 scheduled1] eqn:E1.
  destruct (RL.emit sched1 _ _ _) as [sched2 scheduled2] eqn:E2.
  intros [= <- <-]. cbn [RL.last_action RL.last_level RL._scheduled].
  apply emit_spec in E1 as (Hs1 & Hl1 & _).
  apply emit_spec in E2 as (Hs2 & _ & Hl2).
  exists a. split_and!; [done..| |].
  - rewrite Hl2; [done|]. intros [= ?]. lia.
  - intros t lvl Hin.
    assert ((OR, t, lvl) ∈ sched1 ∨ t = near_slot now + 168) as [Hin1|?];
      [|left|by right].
    { destruct Hs2 as [->| ->]; [by left|].
      apply elem_of_app in Hin as [?|Hin]; [by left|].
      apply list_elem_of_singleton in Hin as [= -> _]. by right. }
    destruct Hs1 as [->| ->]; [by apply elem_of_nil in Hin1|].
    by apply list_elem_of_singleton in Hin1 as [= -> ->].
Qed.

Lemma near_slot_lead now : now + 14 ≤ near_slot now.
Proof. unfold near_slot. lia. Qed.

Lemma near_level_ge self now a :
  RL.last_level self ≤ near_level self now a ∧
  (∀ v, RL._scheduled self !! (OR, near_slot now) = Some v →
        v ≤ near_level self now a).
Proof.
  unfold near_level. split; [lia|]. intros v ->. simpl. lia.
Qed.

Lemma schedule_off_18 self now coin pick :
  RL.hour_of now ≠ 18 → RL.schedule self now coin pick = ([], self).
Proof.
  intros Hh. unfold RL.schedule.
  by destruct (Z.eqb_spec (RL.hour_of now) 18).
Qed.

(** C10: a call of [schedule] at a time whose hour of day is not 18
    returns the empty list and the planner as it was. *)
Theorem schedule_not_at_18_is_noop self now coin pick :
  RL.hour_of now ≠ 18 →
  RL.schedule self now coin pick = ([], self).
Proof.
  intros Hh. unfold RL.schedule.
  destruct (Z.eqb_spec (RL.hour_of now) 18) as [Heq|_]; [|reflexivity].
  by destruct Hh.
Qed.

Lemma schedule_not_at_18_is_noop_witness :
  RL.hour_of 41 ≠ 18 ∧
  RL.schedule (RL.init (1 # 10)) 41 (0 # 1) RL.A3 = ([], RL.init (1 # 10)).
Proof.
  assert (RL.hour_of 41 ≠ 18) as Hh by (vm_compute; discriminate).
  split; [exact Hh|].
  exact (schedule_not_at_18_is_noop (RL.init (1 # 10)) 41 (0 # 1) RL.A3 Hh).
Defined.

(** C2: of two consecutive calls of [schedule], the level the second one
    emits for its near-term slot (tomorrow 08:00, at least 14 hours ahead)
    is not lower than the level already committed for that slot, than the
    last committed level, or than the near-term level the first call
    emitted. *)
Theorem near_term_level_never_lower self t1 coin1 pick1 t2 coin2 pick2
    sched1 self1 sched2 self2 lvl2 :
  RL.schedule self t1 coin1 pick1 = (sched1, self1) →
  RL.schedule self1 t2 coin2 pick2 = (sched2, self2) →
  (OR, near_slot t2, lvl2) ∈ sched2 →
  t2 + 14 ≤ near_slot t2 ∧
  RL.last_level self1 ≤ lvl2 ∧
  (∀ v, RL._scheduled self1 !! (OR, near_slot t2) = Some v → v ≤ lvl2) ∧
  (∀ lvl1, (OR, near_slot t1, lvl1) ∈ sched1 → lvl1 ≤ lvl2) ∧
  RL._scheduled self2 !! (OR, near_slot t2) = Some lvl2.
Proof.
  intros H1 H2 Hin2.
  destruct (decide (RL.hour_of t2 = 18)) as [Hh2|Hh2].
  2:{ rewrite schedule_off_18 in H2 by done. injection H2 as <- <-.
      by apply elem_of_nil in Hin2. }
  destruct (schedule_at_18 _ _ _ _ _ _ Hh2 H2) as (a2 & _ & _ & Hc2 & He2).
  apply He2 in Hin2 as [[_ ->]|?]; [|lia].
  destruct (near_level_ge self1 t2 a2) as [Hlast Hex].
  split_and!; [apply near_slot_lead|done|done| |done].
  intros lvl1 Hin1.
  destruct (decide (RL.hour_of t1 = 18)) as [Hh1|Hh1].
  2:{ rewrite schedule_off_18 in H1 by done. injection H1 as <- <-.
      by apply elem_of_nil in Hin1. }
  destruct (schedule_at_18 _ _ _ _ _ _ Hh1 H1) as (a1 & _ & Hl1 & _ & He1).
  apply He1 in Hin1 as [[_ ->]|?]; [|lia]. by rewrite <- Hl1.
Qed.

Lemma near_term_level_never_lower_witness :
  (OR, near_slot 186, 5) ∈
    (RL.schedule (RL.schedule (RL.init (1 # 10)) 18 (1 # 2) RL.A2).2
                 186 (1 # 2) RL.A2).1 ∧
  RL._scheduled (RL.schedule (RL.init (1 # 10)) 18 (1 # 2) RL.A2).2
    !! (OR, near_slot 186) = Some 2 ∧
  (186 + 14 ≤ near_slot 186 ∧
   RL.last_level (RL.schedule (RL.init (1 # 10)) 18 (1 # 2) RL.A2).2 ≤ 5 ∧
   (∀ v, RL._scheduled (RL.schedule (RL.init (1 # 10)) 18 (1 # 2) RL.A2).2
           !! (OR, near_slot 186) = Some v → v ≤ 5) ∧
   (∀ lvl1, (OR, near_slot 18, lvl1) ∈
              (RL.schedule (RL.init (1 # 10)) 18 (1 # 2) RL.A2).1 →
            lvl1 ≤ 5) ∧
   RL._scheduled
     (RL.schedule (RL.schedule (RL.init (1 # 10)) 18 (1 # 2) RL.A2).2
                  186 (1 # 2) RL.A2).2
     !! (OR, near_slot 186) = Some 5).
Proof.
  assert ((OR, near_slot 186, 5) ∈
    (RL.schedule (RL.schedule (RL.init (1 # 10)) 18 (1 # 2) RL.A2).2
                 186 (1 # 2) RL.A2).1) as Hin by (vm_compute; left).
  split; [exact Hin|]. split; [vm_compute; reflexivity|].
  exact (near_term_level_never_lower (RL.init (1 # 10)) 18 (1 # 2) RL.A2
           186 (1 # 2) RL.A2 _ _ _ _ 5
           (surjective_pairing _) (surjective_pairing _) Hin).
Defined.

(** ** The action-value estimate *)

(** [self.Q[s][a]] and [self.N[s][a]], read without the insertion a
    [defaultdict] makes. *)
Definition Qval (self : RL.planner) (s : RL.State) (a : RL.Action) : Q :=
  RL.row_get (default RL.Q_default (RL.Qtab self !! s)) a.

Definition Nval (self : RL.planner) (s : RL.State) (a : RL.Action) : Z :=
  RL.row_get (default RL.N_default (RL.Ntab self !! s)) a.

(** The update an event applies: the pair it updates and the reward. *)
Definition credited (self : RL.planner) (e : RL.event)
    : option (RL.State * RL.Action * Q) :=
  match e with
  | RL.EvSchedule t _ _ =>
      if RL.hour_of t =? 18 then
        match RL.last_state self, RL.last_action self with
        | Some s, Some a => Some (s, a, RL.reward (RL.metrics self))
        | _, _ => None
        end
      else None
  | RL.EvReport _ _ _ => None
  end.

(** The rewards [r_1..r_n] a run of events applies to the pair [(s, a)]. *)
Fixpoint rewards_of (self : RL.planner) (evs : list RL.event)
    (s : RL.State) (a : RL.Action) : list Q :=
  match evs with
  | [] => []
  | e :: evs' =>
      match credited self e with
      | Some (s', a', r) =>
          if decide ((s', a') = (s, a))
          then r :: rewards_of (RL.step self e) evs' s a
          else rewards_of (RL.step self e) evs' s a
      | None => rewards_of (RL.step self e) evs' s a
      end
  end.

Lemma row_get_set {V} (r : RL.Row V) a a' v :
  RL.row_get (RL.row_set r a v) a' = if decide (a = a') then v else RL.row_get r a'.
Proof. by destruct a, a'. Qed.

Lemma dd_get_fst {V} (dflt : V) d s :
  (RL.dd_get dflt d s).1 = default dflt (d !! s).
Proof. unfold RL.dd_get. by destruct (d !! s). Qed.

Lemma dd_get_snd {V} (dflt : V) d s s' :
  default dflt ((RL.dd_get dflt d s).2 !! s') = default dflt (d !! s').
Proof.
  unfold RL.dd_get. destruct (d !! s) eqn:Hl; [done|]. simpl.
  rewrite lookup_insert. case_decide; [subst; by rewrite Hl|done].
Qed.

Lemma update_tables Qt Nt s0 a0 r s a :
  let n := RL.row_get (default RL.N_default (Nt !! s0)) a0 + 1 in
  let q := RL.row_get (default RL.Q_default (Qt !! s0)) a0 in
  RL.row_get (default RL.N_default ((RL.update Qt Nt s0 a0 r).2 !! s)) a =
    (if decide ((s0, a0) = (s, a)) then n
     else RL.row_get (default RL.N_default (Nt !! s)) a) ∧
  RL.row_get (default RL.Q_default ((RL.update Qt Nt s0 a0 r).1 !! s)) a =
    (if decide ((s0, a0) = (s, a)) then (q + (r - q) / inject_Z n)%Q
     else RL.row_get (default RL.Q_default (Qt !! s)) a).
Proof.
  intros n q. unfold RL.update.
  pose proof (dd_get_fst RL.N_default Nt s0) as HN1.
  pose proof (dd_get_snd RL.N_default Nt s0) as HN2.
  destruct (RL.dd_get RL.N_default Nt s0) as [nrow Nt'].
  pose proof (dd_get_fst RL.Q_default Qt s0) as HQ1.
  pose proof (dd_get_snd RL.Q_default Qt s0) as HQ2.
  destruct (RL.dd_get RL.Q_default Qt s0) as [qrow Qt'].
  simpl in *. subst nrow qrow. rewrite !lookup_insert.
  split.
  - destruct (decide (s0 = s)) as [->|Hs]; simpl.
    + rewrite row_get_set. destruct (decide (a0 = a)) as [->|Ha].
      * by rewrite decide_True.
      * rewrite decide_False by congruence. done.
    + rewrite decide_False by congruence. apply (f_equal (λ r, RL.row_get r a)), HN2.
  - destruct (decide (s0 = s)) as [->|Hs]; simpl.
    + rewrite row_get_set. destruct (decide (a0 = a)) as [->|Ha].
      * by rewrite decide_True.
      * rewrite decide_False by congruence. done.
    + rewrite decide_False by congruence. apply (f_equal (λ r, RL.row_get r a)), HQ2.
Qed.

(** One event: the count and the estimate of [(s, a)] change only when the
    event credits a reward to that pair. *)
Lemma step_tables self e s a :
  match credited self e with
  | Some (s0, a0, r) =>
      if decide ((s0, a0) = (s, a)) then
        Nval (RL.step self e) s a = Nval self s a + 1 ∧
        Qval (RL.step self e) s a =
          (Qval self s a + (r - Qval self s a) / inject_Z (Nval self s a + 1))%Q
      else
        Nval (RL.step self e) s a = Nval self s a ∧
        Qval (RL.step self e) s a = Qval self s a
  | None =>
      Nval (RL.step self e) s a = Nval self s a ∧
      Qval (RL.step self e) s a = Qval self s a
  end.
Proof.
  destruct e as [t coin pick|el lc res]; [|done].
  unfold credited, RL.step, RL.schedule.
  destruct (RL.hour_of t =? 18) eqn:Hh; cbn [negb]; [|done].
  assert (∀ Qt : gmap RL.State (RL.Row Q),
    (let '(a1, Qt1) :=
       if Qlt_le_dec coin (RL.epsilon self) then (pick, Qt)
       else let '(q, Qt0) := RL.dd_get RL.Q_default Qt
              (RL.weekday_of t, Z.min 3 (RL.ready_or self / 5),
               if RL.overtime (RL.metrics self) =? 0 then 0 else 1)
            in (RL.argmax q, Qt0) in
     RL.row_get (default RL.Q_default (Qt1 !! s)) a)
    = RL.row_get (default RL.Q_default (Qt !! s)) a) as Hgreedy.
  { intros Qt. destruct (Qlt_le_dec coin (RL.epsilon self)); [done|].
    pose proof (dd_get_snd RL.Q_default Qt
      (RL.weekday_of t, Z.min 3 (RL.ready_or self / 5),
       if RL.overtime (RL.metrics self) =? 0 then 0 else 1) s) as Hd.
    destruct (RL.dd_get _ _ _) as [qrow Qt0]. simpl in Hd. by rewrite Hd. }
  unfold Qval, Nval.
  destruct (RL.last_state self) as [s0|], (RL.last_action self) as [a0|].
  2-4: (specialize (Hgreedy (RL.Qtab self));
        destruct (if Qlt_le_dec coin (RL.epsilon self) then _ else _) as [a1 Qt1];
        destruct (RL.emit [] _ _ _) as [sched1 scheduled1];
        destruct (RL.emit sched1 _ _ _) as [sched2 scheduled2]; done).
  pose proof (update_tables (RL.Qtab self) (RL.Ntab self) s0 a0
                (RL.reward (RL.metrics self)) s a) as [HN HQ].
  destruct (RL.update _ _ _ _ _) as [Qt Nt].
  specialize (Hgreedy Qt).
  destruct (if Qlt_le_dec coin (RL.epsilon self) then _ else _) as [a1 Qt1].
  destruct (RL.emit [] _ _ _) as [sched1 scheduled1].
  destruct (RL.emit sched1 _ _ _) as [sched2 scheduled2].
  cbn [fst snd RL.Qtab RL.Ntab] in *. rewrite Hgreedy.
  rewrite HN, HQ. by destruct (decide ((s0, a0) = (s, a))) as [[= -> ->]|].
Qed.

Lemma sum_floats_snoc l r : (sum_floats (l ++ [r]) == sum_floats l + r)%Q.
Proof.
  induction l as [|x l IH]; simpl; [ring|]. rewrite IH. ring.
Qed.

Lemma incremental_mean_step (q r total : Q) (n : Z) :
  0 ≤ n →
  (q * inject_Z n == total)%Q →
  ((q + (r - q) / inject_Z (n + 1)) * inject_Z (n + 1) == total + r)%Q.
Proof.
  intros Hn Hq. rewrite <- Hq.
  assert (~ (inject_Z (n + 1) == 0)%Q) as Hnz.
  { unfold Qeq, inject_Z. simpl. lia. }
  rewrite inject_Z_plus in *. field. exact Hnz.
Qed.

(** Along a run, the count of a pair is the number of rewards credited to
    it, and its estimate times the count is their sum. *)
Lemma run_tables evs : ∀ self s a pre,
  Nval self s a = Z.of_nat (length pre) →
  (Qval self s a * inject_Z (Z.of_nat (length pre)) == sum_floats pre)%Q →
  Nval (RL.run self evs) s a
    = Z.of_nat (length (pre ++ rewards_of self evs s a)) ∧
  (Qval (RL.run self evs) s a
     * inject_Z (Z.of_nat (length (pre ++ rewards_of self evs s a)))
   == sum_floats (pre ++ rewards_of self evs s a))%Q.
Proof.
  induction evs as [|e evs IH]; intros self s a pre HN HQ.
  - simpl. by rewrite app_nil_r.
  - cbn [rewards_of]. unfold RL.run. cbn [foldl]. fold (RL.run (RL.step self e) evs).
    pose proof (step_tables self e s a) as Hstep.
    destruct (credited self e) as [[[s0 a0] r]|].
    + destruct (decide ((s0, a0) = (s, a))) as [_|_].
      * destruct Hstep as [HN' HQ'].
        replace (pre ++ r :: rewards_of (RL.step self e) evs s a)
          with ((pre ++ [r]) ++ rewards_of (RL.step self e) evs s a)
          by (by rewrite <- app_assoc).
        apply IH.
        -- rewrite HN', HN, length_app. simpl. lia.
        -- rewrite HQ', HN, sum_floats_snoc, length_app. simpl length.
           replace (Z.of_nat (length pre + 1)) with (Z.of_nat (length pre) + 1)
             by lia.
           apply incremental_mean_step; [lia|exact HQ].
      * destruct Hstep as [HN' HQ']. apply IH; by rewrite ?HN', ?HQ'.
    + destruct Hstep as [HN' HQ']. apply IH; by rewrite ?HN', ?HQ'.
Qed.

(** C4: after any run of [schedule] and [report] calls on a new planner,
    the visit count of a pair [(s, a)] is the number [n] of updates made to
    it, and if [n > 0] its stored estimate is the arithmetic mean of the
    rewards [r_1..r_n] of those updates (floats taken as exact
    rationals). *)
Theorem q_value_is_mean_of_rewards epsilon evs s a :
  Nval (RL.run (RL.init epsilon) evs) s a
    = Z.of_nat (length (rewards_of (RL.init epsilon) evs s a)) ∧
  (rewards_of (RL.init epsilon) evs s a ≠ [] →
   (Qval (RL.run (RL.init epsilon) evs) s a
    == sum_floats (rewards_of (RL.init epsilon) evs s a)
       / inject_Z (Z.of_nat (length (rewards_of (RL.init epsilon) evs s a))))%Q).
Proof.
  destruct (run_tables evs (RL.init epsilon) s a []) as [HN HQ].
  { unfold Nval. cbn [RL.init RL.Ntab]. rewrite lookup_empty. by destruct a. }
  { unfold Qval. cbn [RL.init RL.Qtab]. rewrite lookup_empty. by destruct a. }
  simpl app in *. split; [exact HN|]. intros Hne.
  set (rs := rewards_of (RL.init epsilon) evs s a) in *.
  assert (~ (inject_Z (Z.of_nat (length rs)) == 0)%Q) as Hnz.
  { unfold Qeq, inject_Z. simpl. destruct rs; [done|simpl; lia]. }
  rewrite <- HQ. field. exact Hnz.
Qed.

Definition two_nights : list RL.event :=
  [RL.EvSchedule 18 (0 # 1) RL.A3;
   RL.EvReport (Some "Intake") "WAITING" None;
   RL.EvSchedule 186 (0 # 1) RL.A3;
   RL.EvReport (Some "intake") "WAITING" None;
   RL.EvReport None "REPLAN" None;
   RL.EvReport None "RESCHEDULE" None;
   RL.EvSchedule 354 (0 # 1) RL.A3].

Lemma q_value_is_mean_of_rewards_witness :
  rewards_of (RL.init (1 # 10)) two_nights (0, 0, 0) RL.A3 ≠ [] ∧
  rewards_of (RL.init (1 # 10)) two_nights (0, 0, 0) RL.A3
    = [(-1 # 1)%Q; (-3 # 1)%Q] ∧
  (Qval (RL.run (RL.init (1 # 10)) two_nights) (0, 0, 0)%Z RL.A3
   == ((-1 # 1) + (-3 # 1)) / (2 # 1))%Q.
Proof.
  assert (rewards_of (RL.init (1 # 10)) two_nights (0, 0, 0) RL.A3 ≠ [])
    as Hne by (vm_compute; discriminate).
  split; [exact Hne|]. split; [vm_compute; reflexivity|].
  pose proof (proj2 (q_value_is_mean_of_rewards (1 # 10) two_nights
                       (0, 0, 0) RL.A3) Hne) as Hmean.
  rewrite Hmean. vm_compute. reflexivity.
Defined.

(** * The quota split *)

(** ** The stable sort by decreasing key *)

Lemma insert_reverse_perm {A} (key : A → Q) x l :
  insert_reverse key x l ≡ₚ x :: l.
Proof.
  induction l as [|y l IH]; simpl; [done|].
  destruct (Qle_bool (key y) (key x)); [done|].
  rewrite IH. apply Permutation_swap.
Qed.

Lemma sorted_reverse_perm {A} (key : A → Q) l : sorted_reverse key l ≡ₚ l.
Proof.
  induction l as [|x l IH]; simpl; [done|].
  fold (sorted_reverse key l). by rewrite insert_reverse_perm, IH.
Qed.

(** [before key i j]: [i] comes before [j] in [sorted(..., reverse=True)]
    of a list in which [i] is before [j] exactly when [i < j]: larger key
    first, and for equal keys the earlier item first. *)
Definition before (key : nat → Q) (i j : nat) : Prop :=
  (key j < key i)%Q ∨ ((key i == key j)%Q ∧ (i < j)%nat).

Lemma insert_reverse_sorted key x l :
  StronglySorted (before key) l →
  Forall (λ y, (x < y)%nat) l →
  StronglySorted (before key) (insert_reverse key x l).
Proof.
  induction l as [|y l IH]; intros Hs Hx; simpl.
  - repeat constructor.
  - apply StronglySorted_inv in Hs as [Hs Hy].
    apply Forall_cons in Hx as [Hxy Hx].
    destruct (Qle_bool (key y) (key x)) eqn:Hle.
    + apply Qle_bool_iff in Hle.
      assert (before key x y) as Hb.
      { destruct (Qlt_le_dec (key y) (key x)); [by left|right].
        split; [by apply Qle_antisym|done]. }
      constructor; [by constructor|]. constructor; [done|].
      rewrite Forall_forall in Hy, Hx |- *. intros z Hz.
      specialize (Hy z Hz). specialize (Hx z Hz).
      destruct Hy as [Hlt|[Heq _]], Hb as [Hlt'|[Heq' _]].
      * left. by etrans.
      * left. by rewrite Heq'.
      * left. by rewrite <- Heq.
      * right. split; [by rewrite Heq'|done].
    + assert (key x < key y)%Q as Hlt.
      { apply Qnot_le_lt. intros Hc%Qle_bool_iff. congruence. }
      constructor; [by apply IH|].
      rewrite insert_reverse_perm. constructor; [by left|done].
Qed.

Lemma sorted_reverse_sorted key l :
  StronglySorted lt l → StronglySorted (before key) (sorted_reverse key l).
Proof.
  induction l as [|x l IH]; intros Hs; simpl; [constructor|].
  apply StronglySorted_inv in Hs as [Hs Hx].
  fold (sorted_reverse key l). apply insert_reverse_sorted; [by apply IH|].
  by rewrite sorted_reverse_perm.
Qed.

Lemma seq_sorted start n : StronglySorted lt (seq start n).
Proof.
  revert start. induction n as [|n IH]; intros start; simpl; constructor.
  - apply IH.
  - apply Forall_forall. intros y Hy%list_elem_of_In%in_seq. lia.
Qed.

Lemma sorted_split {A} (R : A → A → Prop) l k x y :
  StronglySorted R l → x ∈ take k l → y ∈ drop k l → R x y.
Proof.
  revert k. induction l as [|z l IH]; intros k Hs Hx Hy.
  - rewrite take_nil in Hx. by apply elem_of_nil in Hx.
  - apply StronglySorted_inv in Hs as [Hs Hz].
    destruct k as [|k]; [by apply elem_of_nil in Hx|]. simpl in Hx, Hy.
    apply elem_of_cons in Hx as [->|Hx].
    + rewrite Forall_forall in Hz. apply Hz. by eapply subseteq_drop.
    + by eapply IH.
Qed.

(** ** Truncation and sums *)

Lemma int_of_float_bounds (x : Q) :
  (0 <= x)%Q →
  (inject_Z (int_of_float x) <= x)%Q ∧ (x < inject_Z (int_of_float x) + 1)%Q.
Proof.
  intros Hx.
  assert (int_of_float x = Qfloor x) as ->.
  { destruct x as [n d]. unfold int_of_float, Qfloor. simpl.
    apply Z.quot_div_nonneg; [|lia].
    unfold Qle in Hx. simpl in Hx. lia. }
  split; [apply Qfloor_le|].
  pose proof (Qlt_floor x) as Hlt. by rewrite inject_Z_plus in Hlt.
Qed.

Lemma sum_floats_scale (t : Q) l :
  (sum_floats (map (λ f, f * t) l) == sum_floats l * t)%Q.
Proof. induction l as [|x l IH]; simpl; [ring|]. rewrite IH. ring. Qed.

Lemma sum_ints_trunc_bounds (l : list Q) :
  Forall (λ x, 0 <= x)%Q l →
  (inject_Z (sum_ints (map int_of_float l)) <= sum_floats l)%Q ∧
  (sum_floats l
   <= inject_Z (sum_ints (map int_of_float l)) + inject_Z (Z.of_nat (length l)))%Q ∧
  (l ≠ [] →
   (sum_floats l
    < inject_Z (sum_ints (map int_of_float l)) + inject_Z (Z.of_nat (length l)))%Q).
Proof.
  induction 1 as [|x l Hx _ (IH1 & IH2 & IH3)].
  - simpl. split_and!; [apply Qle_refl|apply Qle_refl|done].
  - destruct (int_of_float_bounds x Hx) as [Hlo Hhi].
    unfold sum_ints, sum_floats in *. cbn [map foldr length].
    rewrite inject_Z_plus, Nat2Z.inj_succ, <- Z.add_1_l, inject_Z_plus.
    change (inject_Z 1) with 1%Q.
    split_and!; [lra|lra|intros _; lra].
Qed.

Lemma sum_ints_alter (l : list Z) i :
  (i < length l)%nat → sum_ints (alter (λ x, x + 1) i l) = sum_ints l + 1.
Proof.
  unfold sum_ints. revert i.
  induction l as [|x l IH]; intros i Hi; simpl in *; [lia|].
  destruct i as [|i]; simpl; [lia|].
  change (list_alter ?f i l) with (alter f i l). rewrite IH by lia. lia.
Qed.

(** [for i in order[:leftover]: ints[i] += 1] *)
Definition bump_all (ints : list Z) (B : list nat) : list Z :=
  foldl (λ ints i, alter (λ x, x + 1) i ints) ints B.

Lemma bump_all_length ints B : length (bump_all ints B) = length ints.
Proof.
  revert ints. induction B as [|b B IH]; intros ints; simpl; [done|].
  unfold bump_all in *. simpl. by rewrite IH, length_alter.
Qed.

Lemma bump_all_sum ints B :
  Forall (λ b, (b < length ints)%nat) B →
  sum_ints (bump_all ints B) = sum_ints ints + Z.of_nat (length B).
Proof.
  revert ints. induction B as [|b B IH]; intros ints HB; simpl; [lia|].
  apply Forall_cons in HB as [Hb HB]. unfold bump_all in *. simpl.
  rewrite IH, sum_ints_alter by (by rewrite ?length_alter). lia.
Qed.

Lemma bump_all_nth ints B j :
  NoDup B →
  nth j (bump_all ints B) 0 =
    if decide (j ∈ B ∧ (j < length ints)%nat)
    then nth j ints 0 + 1 else nth j ints 0.
Proof.
  revert ints. induction B as [|b B IH]; intros ints HB.
  - unfold bump_all. cbn [foldl].
    rewrite decide_False; [done|]. intros [H%elem_of_nil _]. done.
  - apply NoDup_cons in HB as [Hb HB]. unfold bump_all in *. cbn [foldl].
    rewrite IH by done. rewrite length_alter, !nth_lookup.
    destruct (decide (j = b)) as [->|Hne].
    + rewrite list_lookup_alter_eq.
      destruct (decide (b ∈ B ∧ _)) as [[? _]|_]; [done|].
      destruct (ints !! b) as [x|] eqn:Hl; simpl.
      * apply lookup_lt_Some in Hl as Hlt.
        destruct (decide (b ∈ b :: B ∧ _)) as [_|Hn]; [done|].
        exfalso. apply Hn. split; [by left|done].
      * apply lookup_ge_None in Hl as Hge.
        destruct (decide (b ∈ b :: B ∧ _)) as [[_ ?]|_]; [lia|done].
    + rewrite list_lookup_alter_ne by done.
      destruct (decide (j ∈ B ∧ _)) as [[Hin Hlt]|Hn].
      * destruct (decide (j ∈ b :: B ∧ _)) as [_|Hn]; [done|].
        exfalso. apply Hn. split; [by right|done].
      * destruct (decide (j ∈ b :: B ∧ _)) as [[Hin Hlt]|_]; [|done].
        exfalso. apply Hn. apply elem_of_cons in Hin as [?|?]; [done|]. by split.
Qed.

(** ** Largest-remainder apportionment *)

(** The apportionment the specification describes, on exact fractions:
    each wave gets its ideal share truncated, and the units left over go to
    the waves with the largest remainders, the earlier wave first among
    equal remainders.  It is [_split_quota] with exact products in the
    place of the binary64 ones. *)
Definition exact_split (total : Z) (fractions : list Q) : list Z :=
  let raw := map (λ f, f * inject_Z total)%Q fractions in
  let ints := map int_of_float raw in
  let leftover := total - sum_ints ints in
  if 0 <? leftover then
    let order :=
      sorted_reverse (λ i, nth i raw 0%Q - inject_Z (nth i ints 0%Z))%Q
                     (seq 0 (length raw)) in
    foldl (λ ints i, alter (λ x, x + 1) i ints) ints
          (take (Z.to_nat leftover) order)
  else ints.

(** The shares of the waves as the fractions they are written as. *)
Definition wave_frac_exact : list Q :=
  [36 # 100; 22 # 100; 16 # 100; 12 # 100; 8 # 100; 6 # 100]%Q.

(** The ideal share of wave [i]: fraction times total. *)
Definition ideal (total : Z) (fractions : list Q) (i : nat) : Q :=
  (nth i fractions 0 * inject_Z total)%Q.

(** What truncation takes from the ideal share of wave [i]. *)
Definition remainder (total : Z) (fractions : list Q) (i : nat) : Q :=
  (ideal total fractions i - inject_Z (int_of_float (ideal total fractions i)))%Q.

(** Wave [i] gets one unit of the rounding leftover in the exact
    apportionment. *)
Definition bumped (total : Z) (fractions : list Q) (i : nat) : Prop :=
  nth i (exact_split total fractions) 0
    = int_of_float (ideal total fractions i) + 1.

(** The waves the exact apportionment gives a unit of the leftover to. *)
Definition bumped_waves (total : Z) (fractions : list Q) : list nat :=
  let raw := map (λ f, f * inject_Z total)%Q fractions in
  let ints := map int_of_float raw in
  let leftover := total - sum_ints ints in
  if 0 <? leftover then
    take (Z.to_nat leftover)
      (sorted_reverse (λ i, nth i raw 0%Q - inject_Z (nth i ints 0%Z))%Q
                      (seq 0 (length raw)))
  else [].

Lemma exact_split_bump total fractions :
  exact_split total fractions =
    bump_all (map int_of_float (map (λ f, f * inject_Z total)%Q fractions))
             (bumped_waves total fractions).
Proof.
  unfold exact_split, bumped_waves. cbv zeta.
  by destruct (0 <? _).
Qed.

Lemma nth_raw total fractions i :
  (i < length fractions)%nat →
  nth i (map (λ f, f * inject_Z total)%Q fractions) 0%Q = ideal total fractions i ∧
  nth i (map int_of_float (map (λ f, f * inject_Z total)%Q fractions)) 0
    = int_of_float (ideal total fractions i).
Proof.
  intros Hi. unfold ideal. rewrite !nth_lookup, !list_lookup_fmap.
  by destruct (lookup_lt_is_Some_2 fractions i Hi) as [f ->].
Qed.

Lemma leftover_bounds total fractions :
  0 ≤ total →
  Forall (λ f, 0 <= f)%Q fractions →
  (sum_floats fractions == 1)%Q →
  let ints := map int_of_float (map (λ f, f * inject_Z total)%Q fractions) in
  0 ≤ total - sum_ints ints < Z.of_nat (length fractions).
Proof.
  intros Ht Hf Hsum ints.
  set (raw := map (λ f, f * inject_Z total)%Q fractions).
  assert (Forall (λ x, 0 <= x)%Q raw) as Hraw.
  { unfold raw. apply Forall_fmap. eapply Forall_impl; [exact Hf|].
    simpl. intros f Hf0. apply Qmult_le_0_compat; [done|].
    change 0%Q with (inject_Z 0). by rewrite <- Zle_Qle. }
  assert (sum_floats raw == inject_Z total)%Q as Hsr.
  { unfold raw. rewrite sum_floats_scale, Hsum. ring. }
  assert (raw ≠ []) as Hne.
  { unfold raw. destruct fractions; [|done]. simpl in Hsum. by exfalso. }
  destruct (sum_ints_trunc_bounds raw Hraw) as (Hlo & _ & Hhi).
  specialize (Hhi Hne). fold ints in Hlo, Hhi.
  rewrite Hsr in Hlo, Hhi. rewrite <- inject_Z_plus in Hhi.
  rewrite <- Zle_Qle in Hlo. rewrite <- Zlt_Qlt in Hhi.
  subst raw ints. rewrite length_map in Hhi. lia.
Qed.

Lemma bumped_waves_facts total fractions :
  0 ≤ total →
  Forall (λ f, 0 <= f)%Q fractions →
  (sum_floats fractions == 1)%Q →
  let ints := map int_of_float (map (λ f, f * inject_Z total)%Q fractions) in
  NoDup (bumped_waves total fractions) ∧
  Forall (λ b, (b < length fractions)%nat) (bumped_waves total fractions) ∧
  Z.of_nat (length (bumped_waves total fractions)) = total - sum_ints ints ∧
  (∀ i j, (j < length fractions)%nat →
     i ∈ bumped_waves total fractions → j ∉ bumped_waves total fractions →
     before (remainder total fractions) i j).
Proof.
  intros Ht Hf Hsum ints.
  pose proof (leftover_bounds total fractions Ht Hf Hsum) as Hleft.
  cbv zeta in Hleft. fold ints in Hleft.
  unfold bumped_waves. cbv zeta. fold ints.
  set (raw := map (λ f, f * inject_Z total)%Q fractions) in *.
  set (key := (λ i, nth i raw 0%Q - inject_Z (nth i ints 0%Z))%Q).
  set (order := sorted_reverse key (seq 0 (length raw))).
  assert (order ≡ₚ seq 0 (length fractions)) as Hperm.
  { unfold order, raw. by rewrite sorted_reverse_perm, length_map. }
  destruct (Z.ltb_spec 0 (total - sum_ints ints)) as [Hpos|Hzero].
  2:{ split_and!; [constructor|constructor|simpl; lia|].
      intros i j _ Hi. by apply elem_of_nil in Hi. }
  assert (NoDup order) as Hnd by (rewrite Hperm; apply NoDup_seq).
  split_and!.
  - eapply sublist_NoDup; [exact Hnd|apply sublist_take].
  - apply Forall_forall. intros b Hb%subseteq_take.
    rewrite Hperm in Hb. apply elem_of_seq in Hb. lia.
  - rewrite length_take, Hperm, length_seq. lia.
  - intros i j Hj Hi Hnj.
    assert (j ∈ drop (Z.to_nat (total - sum_ints ints)) order) as Hjd.
    { assert (j ∈ order) as Hjo by (rewrite Hperm; apply elem_of_seq; lia).
      rewrite <- (take_drop (Z.to_nat (total - sum_ints ints)) order) in Hjo.
      apply elem_of_app in Hjo as [?|?]; done. }
    assert (i < length fractions)%nat as Hilt.
    { apply subseteq_take in Hi. rewrite Hperm in Hi.
      apply elem_of_seq in Hi. lia. }
    pose proof (sorted_split (before key) order _ i j
                  (sorted_reverse_sorted key _ (seq_sorted 0 _)) Hi Hjd) as Hb.
    assert (∀ k, (k < length fractions)%nat → key k = remainder total fractions k)
      as Hkey.
    { intros k Hk. unfold key, remainder, ints, raw.
      destruct (nth_raw total fractions k Hk) as [-> ->]. done. }
    unfold before in *. by rewrite <- !Hkey.
Qed.

(** The exact apportionment is the one the specification describes: for a
    total that is not negative and shares that are not negative and sum to
    one, its sub-quotas sum to the total; each is the truncated ideal share
    or one more, hence within 1 of the ideal share; and the waves that get
    one more are those with the largest remainders, the earlier wave first
    among equal remainders. *)
Lemma exact_split_largest_remainder total (fractions : list Q) :
  0 ≤ total →
  Forall (λ f, 0 <= f)%Q fractions →
  (sum_floats fractions == 1)%Q →
  length (exact_split total fractions) = length fractions ∧
  sum_ints (exact_split total fractions) = total ∧
  (∀ i, (i < length fractions)%nat →
     (ideal total fractions i - 1
        <= inject_Z (nth i (exact_split total fractions) 0%Z)
        <= ideal total fractions i + 1)%Q ∧
     (nth i (exact_split total fractions) 0
        = int_of_float (ideal total fractions i)
      ∨ bumped total fractions i)) ∧
  (∀ i j, (i < length fractions)%nat → (j < length fractions)%nat →
     bumped total fractions i → ¬ bumped total fractions j →
     (remainder total fractions j < remainder total fractions i)%Q
     ∨ ((remainder total fractions i == remainder total fractions j)%Q
        ∧ (i < j)%nat)).
Proof.
  intros Ht Hf Hsum.
  destruct (bumped_waves_facts total fractions Ht Hf Hsum)
    as (Hnd & Hrange & Hlen & Hord).
  set (ints := map int_of_float (map (λ f, f * inject_Z total)%Q fractions)) in *.
  assert (length ints = length fractions) as Hli
    by (unfold ints; by rewrite !length_map).
  assert (∀ i, (i < length fractions)%nat →
            nth i (exact_split total fractions) 0 =
              if decide (i ∈ bumped_waves total fractions)
              then int_of_float (ideal total fractions i) + 1
              else int_of_float (ideal total fractions i)) as Hnth.
  { intros i Hi. rewrite exact_split_bump. fold ints.
    rewrite bump_all_nth by done. unfold ints.
    destruct (nth_raw total fractions i Hi) as [_ ->]. fold ints.
    destruct (decide (i ∈ bumped_waves total fractions)) as [Hin|Hnin].
    - by rewrite decide_True by (split; [done|lia]).
    - by rewrite decide_False by (intros [? _]; done). }
  split_and!.
  - rewrite exact_split_bump. fold ints. by rewrite bump_all_length.
  - rewrite exact_split_bump. fold ints. rewrite bump_all_sum; [lia|].
    eapply Forall_impl; [exact Hrange|]. simpl. intros; lia.
  - intros i Hi.
    assert (0 <= ideal total fractions i)%Q as Hnn.
    { unfold ideal. apply Qmult_le_0_compat.
      - rewrite Forall_forall in Hf. apply Hf.
        rewrite nth_lookup.
        destruct (lookup_lt_is_Some_2 fractions i Hi) as [f Hl].
        rewrite Hl. simpl. by eapply list_elem_of_lookup_2.
      - change 0%Q with (inject_Z 0). by rewrite <- Zle_Qle. }
    destruct (int_of_float_bounds _ Hnn) as [Hlo Hhi].
    unfold bumped. rewrite (Hnth i Hi).
    destruct (decide (i ∈ bumped_waves total fractions)).
    + split; [|by right]. rewrite inject_Z_plus. change (inject_Z 1) with 1%Q.
      split; lra.
    + split; [|by left]. split; lra.
  - intros i j Hi Hj Hbi Hbj. apply (Hord i j Hj).
    + unfold bumped in Hbi. rewrite (Hnth i Hi) in Hbi.
      destruct (decide (i ∈ bumped_waves total fractions)); [done|lia].
    + intros Hin. apply Hbj. unfold bumped. rewrite (Hnth j Hj).
      by rewrite decide_True.
Qed.


(** * The calibration extractor *)

Lemma unique_elem_of (l : list string) x : x ∈ PM.unique l ↔ x ∈ l.
Proof.
  unfold PM.unique.
  assert (∀ acc, x ∈ foldl (λ acc x, if decide (x ∈ acc) then acc else acc ++ [x])
                        acc l ↔ x ∈ acc ∨ x ∈ l) as Hgen.
  { induction l as [|y l IH]; intros acc; simpl.
    - rewrite elem_of_nil. tauto.
    - rewrite IH, elem_of_cons. destruct (decide (y ∈ acc)) as [Hy|Hy].
      + split; [tauto|]. intros [?|[->|?]]; tauto.
      + rewrite elem_of_app, list_elem_of_singleton. tauto. }
  rewrite Hgen, elem_of_nil. tauto.
Qed.

Lemma rows_of_label df activity :
  PM.rows_of df activity ≠ [] → activity ∈ map PM.event_label df.
Proof.
  unfold PM.rows_of. intros Hne.
  destruct (filter _ df) as [|r rs] eqn:Hf; [done|].
  assert (r ∈ filter (λ r, PM.event_label r = activity) df) as Hin
    by (rewrite Hf; by left).
  apply list_elem_of_filter in Hin as [<- Hin].
  by apply (list_elem_of_fmap_2 PM.event_label).
Qed.

(** The entries the extractor writes for an activity that has rows. *)
Definition mean_entry (df : list PM.row) (activity : string) : option Q :=
  let durations := map PM.duration (PM.rows_of df activity) in
  if PM.all_na durations then Some 3600%Q else PM.series_mean durations.

Definition std_entry (df : list PM.row) (activity : string) : option R :=
  let durations := map PM.duration (PM.rows_of df activity) in
  if PM.all_na durations then Some 1800%R else PM.series_std durations.

Lemma extract_lookup df activity :
  PM.mean_sec df !! activity =
    (if decide (PM.rows_of df activity = []) then None
     else Some (mean_entry df activity)) ∧
  PM.std_sec df !! activity =
    (if decide (PM.rows_of df activity = []) then None
     else Some (std_entry df activity)).
Proof.
  unfold PM.mean_sec, PM.std_sec, PM.extract.
  set (step := λ '(mean_sec, std_sec) activity, _).
  assert (∀ l (acc : gmap string (option Q) * gmap string (option R)),
    (foldl step acc l).1 !! activity =
      (if decide (activity ∈ l ∧ PM.rows_of df activity ≠ [])
       then Some (mean_entry df activity) else acc.1 !! activity) ∧
    (foldl step acc l).2 !! activity =
      (if decide (activity ∈ l ∧ PM.rows_of df activity ≠ [])
       then Some (std_entry df activity) else acc.2 !! activity)) as Hgen.
  { induction l as [|a l IH]; intros [ms ss].
    - cbn [foldl fst snd].
      destruct (decide (activity ∈ [] ∧ _)) as [[H%elem_of_nil _]|_]; done.
    - cbn [foldl]. destruct (IH (step (ms, ss) a)) as [-> ->].
      destruct (decide (activity ∈ l ∧ _)) as [[Hin Hne]|Hn].
      + destruct (decide (activity ∈ a :: l ∧ _)) as [_|Hn]; [done|].
        exfalso. apply Hn. split; [by right|done].
      + unfold step. cbn beta iota.
        destruct (PM.rows_of df a) as [|r rs] eqn:Hrows.
        * cbn [length Nat.ltb Nat.leb fst snd].
          destruct (decide (activity ∈ a :: l ∧ _)) as [[Hin Hne]|_]; [|done].
          exfalso. apply elem_of_cons in Hin as [->|Hin]; [done|].
          by apply Hn.
        * cbn [length Nat.ltb Nat.leb fst snd].
          destruct (decide (a = activity)) as [->|Hne].
          -- rewrite !lookup_insert_eq.
             destruct (decide (activity ∈ activity :: l ∧ _)) as [_|Hn'].
             ++ unfold mean_entry, std_entry. by rewrite Hrows.
             ++ exfalso. apply Hn'. split; [by left|]. by rewrite Hrows.
          -- rewrite !lookup_insert_ne by done.
             destruct (decide (activity ∈ a :: l ∧ _)) as [[Hin ?]|_]; [|done].
             exfalso. apply elem_of_cons in Hin as [?|Hin]; [done|].
             by apply Hn. }
  destruct (Hgen (PM.unique (map PM.event_label df)) (∅, ∅)) as [-> ->].
  cbn [fst snd]. rewrite !lookup_empty.
  destruct (decide (PM.rows_of df activity = [])) as [Hnil|Hne].
  - destruct (decide (_ ∧ _)) as [[_ ?]|_]; done.
  - destruct (decide (_ ∧ _)) as [_|Hn]; [done|].
    exfalso. apply Hn. split; [|done].
    by apply unique_elem_of, rows_of_label.
Qed.

Lemma sqrt_80000_close : (Rabs (sqrt 80000 - 28284 / 100) <= 1 / 10)%R.
Proof.
  assert (28274 / 100 <= sqrt 80000)%R as Hlo.
  { rewrite <- (sqrt_square (28274 / 100)%R) by Lra.lra.
    apply sqrt_le_1_alt. Lra.lra. }
  assert (sqrt 80000 <= 28294 / 100)%R as Hhi.
  { rewrite <- (sqrt_square (28294 / 100)%R) by Lra.lra.
    apply sqrt_le_1_alt. Lra.lra. }
  apply Rabs_le. Lra.lra.
Qed.

(** Mean and sample variance of two defined durations. *)
Definition mean2 (d1 d2 : Q) : Q := ((d1 + (d2 + 0)) / inject_Z 2)%Q.

Definition var2 (d1 d2 : Q) : Q :=
  (((d1 - mean2 d1 d2) * (d1 - mean2 d1 d2)
    + ((d2 - mean2 d1 d2) * (d2 - mean2 d1 d2) + 0)) / inject_Z (2 - 1))%Q.

Lemma series_two (d1 d2 : Q) :
  PM.series_mean [Some d1; Some d2] = Some (mean2 d1 d2) ∧
  PM.series_std [Some d1; Some d2] = Some (sqrt (Q2R (var2 d1 d2))).
Proof. split; reflexivity. Qed.

(** Two defined durations of 1800 and 2200 seconds, in either order. *)
Lemma two_durations_stats (d1 d2 : Q) :
  ((d1 == 1800 ∧ d2 == 2200) ∨ (d1 == 2200 ∧ d2 == 1800))%Q →
  ∃ m s,
    PM.series_mean [Some d1; Some d2] = Some m ∧ (m == 2000)%Q ∧
    PM.series_std [Some d1; Some d2] = Some s ∧
    (Rabs (s - 28284 / 100) <= 1 / 10)%R.
Proof.
  intros Hd. destruct (series_two d1 d2) as [Hm Hs].
  exists (mean2 d1 d2), (sqrt (Q2R (var2 d1 d2))).
  split; [exact Hm|]. split.
  { unfold mean2. destruct Hd as [[-> ->]|[-> ->]]; reflexivity. }
  split; [exact Hs|].
  assert (var2 d1 d2 == 80000)%Q as Hv.
  { unfold var2, mean2. destruct Hd as [[-> ->]|[-> ->]]; reflexivity. }
  rewrite (Qeq_eqR _ _ Hv).
  replace (Q2R 80000) with 80000%R by (unfold Q2R; simpl; Lra.lra).
  apply sqrt_80000_close.
Qed.

(** C8, as stated, fails for an activity without rows: nothing is written
    for it, neither a mean nor a standard deviation. *)
Lemma no_rows_no_defaults :
  PM.rows_of [PM.Row "c1" "TRIAGE" (Some 0%Q) (Some 60%Q)] "INTAKE" = [] ∧
  PM.mean_sec [PM.Row "c1" "TRIAGE" (Some 0%Q) (Some 60%Q)] !! "INTAKE" = None ∧
  PM.std_sec [PM.Row "c1" "TRIAGE" (Some 0%Q) (Some 60%Q)] !! "INTAKE" = None ∧
  PM.mean_sec [] !! "INTAKE" = None ∧
  PM.std_sec [] !! "INTAKE" = None.
Proof.
  pose proof (extract_lookup [PM.Row "c1" "TRIAGE" (Some 0%Q) (Some 60%Q)]
                "INTAKE") as [H1 H2].
  pose proof (extract_lookup [] "INTAKE") as [H3 H4].
  split_and!; [reflexivity|by rewrite H1|by rewrite H2|by rewrite H3|by rewrite H4].
Qed.

(** C8 (amended): with exactly two rows for an activity, of durations 1800
    and 2200 seconds, the extractor writes the mean 2000 and a standard
    deviation within 0.1 of 282.84 for it; with at least one row and every
    duration undefined it writes the defaults 3600 and 1800; with no row
    for an activity it writes nothing for it. *)
Theorem extractor_entries (df : list PM.row) (activity : string) :
  (∀ r1 r2 d1 d2,
     PM.rows_of df activity = [r1; r2] →
     PM.duration r1 = Some d1 → PM.duration r2 = Some d2 →
     ((d1 == 1800 ∧ d2 == 2200) ∨ (d1 == 2200 ∧ d2 == 1800))%Q →
     ∃ m s,
       PM.mean_sec df !! activity = Some (Some m) ∧ (m == 2000)%Q ∧
       PM.std_sec df !! activity = Some (Some s) ∧
       (Rabs (s - 28284 / 100) <= 1 / 10)%R) ∧
  (PM.rows_of df activity ≠ [] →
   PM.all_na (map PM.duration (PM.rows_of df activity)) = true →
   PM.mean_sec df !! activity = Some (Some 3600%Q) ∧
   PM.std_sec df !! activity = Some (Some 1800%R)) ∧
  (PM.rows_of df activity = [] →
   PM.mean_sec df !! activity = None ∧ PM.std_sec df !! activity = None).
Proof.
  destruct (extract_lookup df activity) as [Hm Hs]. split_and!.
  - intros r1 r2 d1 d2 Hrows H1 H2 Hd.
    rewrite Hm, Hs.
    destruct (decide (PM.rows_of df activity = [])) as [Hnil|_];
      [by rewrite Hrows in Hnil|].
    unfold mean_entry, std_entry. rewrite Hrows.
    cbn [map]. rewrite H1, H2. cbn [PM.all_na forallb andb].
    destruct (two_durations_stats d1 d2 Hd) as (m & s & -> & Hm2 & -> & Hs2).
    exists m, s. split_and!; done.
  - intros Hne Hna. rewrite Hm, Hs.
    destruct (decide (PM.rows_of df activity = [])); [done|].
    unfold mean_entry, std_entry. rewrite Hna. split; reflexivity.
  - intros Hnil. rewrite Hm, Hs.
    destruct (decide (PM.rows_of df activity = [])); [|done].
    split; reflexivity.
Qed.

Definition intake_log : list PM.row :=
  [PM.Row "c1" "INTAKE" (Some 0%Q) (Some 1800%Q);
   PM.Row "c1" "TRIAGE" None (Some 4000%Q);
   PM.Row "c2" "INTAKE" (Some 100%Q) (Some 2300%Q)].

Lemma extractor_entries_witness :
  (∃ m s,
     PM.mean_sec intake_log !! "INTAKE" = Some (Some m) ∧ (m == 2000)%Q ∧
     PM.std_sec intake_log !! "INTAKE" = Some (Some s) ∧
     (Rabs (s - 28284 / 100) <= 1 / 10)%R) ∧
  (PM.mean_sec intake_log !! "TRIAGE" = Some (Some 3600%Q) ∧
   PM.std_sec intake_log !! "TRIAGE" = Some (Some 1800%R)) ∧
  (PM.mean_sec intake_log !! "SURGERY" = None ∧
   PM.std_sec intake_log !! "SURGERY" = None).
Proof.
  split; [|split].
  - apply (proj1 (extractor_entries intake_log "INTAKE")
             (PM.Row "c1" "INTAKE" (Some 0%Q) (Some 1800%Q))
             (PM.Row "c2" "INTAKE" (Some 100%Q) (Some 2300%Q))
             (1800 - 0)%Q (2300 - 100)%Q);
      [reflexivity|reflexivity|reflexivity|].
    left. split; reflexivity.
  - apply (proj1 (proj2 (extractor_entries intake_log "TRIAGE")));
      [discriminate|reflexivity].
  - apply (proj2 (proj2 (extractor_entries intake_log "SURGERY"))). reflexivity.
Defined.

(** * The capacity ledger *)

(** The ledger key of the wave [h_after] hours after 08:00 on the day
    [day_offset] days after the day of [base8]. *)
Definition bucket (base8 day_offset h_after : Z) : ORP.Key :=
  let day_start := base8 + 24 * day_offset in
  (day_start / 168, ORP.dow_1_to_7 day_start, (day_start + h_after) mod 24).

Lemma bucket_inj base8 off off' h h' :
  0 ≤ h < 24 → 0 ≤ h' < 24 →
  bucket base8 off h = bucket base8 off' h' → off = off' ∧ h = h'.
Proof.
  intros Hh Hh' Heq.
  pose proof (key_day_of_day (base8 + 24 * off) ((base8 + 24 * off + h) mod 24)) as H1.
  pose proof (key_day_of_day (base8 + 24 * off') ((base8 + 24 * off' + h') mod 24)) as H2.
  unfold bucket in Heq. cbv zeta in Heq. rewrite Heq in H1. rewrite H1 in H2.
  replace (base8 + 24 * off) with (off * 24 + base8) in H2 by lia.
  replace (base8 + 24 * off') with (off' * 24 + base8) in H2 by lia.
  rewrite !Z.div_add_l in H2 by lia.
  assert (off = off') as -> by lia. split; [done|].
  injection Heq as Hmod. Z.div_mod_to_equations. lia.
Qed.

Lemma waves_range h : h ∈ ORP.waves → 0 ≤ h < 24.
Proof.
  unfold ORP.waves. intros Hin.
  repeat (apply elem_of_cons in Hin as [->|Hin]; [lia|]).
  by apply elem_of_nil in Hin.
Qed.

Lemma waves_NoDup : NoDup ORP.waves.
Proof.
  unfold ORP.waves.
  repeat (apply NoDup_cons; split;
          [intros Hin;
           repeat (apply elem_of_cons in Hin as [?|Hin]; [lia|]);
           by apply elem_of_nil in Hin|]).
  apply NoDup_nil_2.
Qed.

(** The sub-quota of wave [idx] on the day [day_offset] days after the
    first one, for a given backlog.  The first two days take the warm-start
    test at the first day, the later ones at their own day. *)
Definition wave_subquota (cap : gmap (ResourceType * Z) Z)
    (base8 day_offset backlog : Z) (idx : nat) : result Z :=
  let days := base8 / 24 + (if day_offset <? 2 then 0 else day_offset) in
  let? q := ORP.day_quota cap (ORP.dow_1_to_7 (base8 + 24 * day_offset))
                          backlog days in
  Ok (nth idx (ORP._split_quota q ORP.wave_frac) 0).

(** [within_subquota ... key v]: [key] is the bucket of a wave of the
    call, and [v] is at most the sub-quota the call gives that wave. *)
Definition within_subquota (cap : gmap (ResourceType * Z) Z)
    (base8 n_plan n_replan : Z) (key : ORP.Key) (v : Z) : Prop :=
  ∃ day_offset idx h backlog sq,
    0 ≤ day_offset ∧
    ORP.waves !! idx = Some h ∧
    key = bucket base8 day_offset h ∧
    n_replan ≤ backlog ≤ n_plan + n_replan ∧
    (day_offset < 2 → backlog = n_plan + n_replan) ∧
    wave_subquota cap base8 day_offset backlog idx = Ok sq ∧
    v ≤ sq.

(** The ledger only grows, and where it grows the new count is allowed
    by [G]. *)
Definition ledger_grows (G : ORP.Key → Z → Prop) (u u' : gmap ORP.Key Z) : Prop :=
  ∀ key,
    ORP.used_get u key ≤ ORP.used_get u' key ∧
    (ORP.used_get u key < ORP.used_get u' key → G key (ORP.used_get u' key)).

Lemma ledger_grows_refl G u : ledger_grows G u u.
Proof. intros key. split; [done|lia]. Qed.

Lemma ledger_grows_trans G u1 u2 u3 :
  ledger_grows G u1 u2 → ledger_grows G u2 u3 → ledger_grows G u1 u3.
Proof.
  intros H12 H23 key. destruct (H12 key) as [Hle1 HG1], (H23 key) as [Hle2 HG2].
  split; [lia|]. intros Hlt.
  destruct (decide (ORP.used_get u2 key < ORP.used_get u3 key)); [by apply HG2|].
  assert (ORP.used_get u3 key = ORP.used_get u2 key) as -> by lia.
  apply HG1. lia.
Qed.

Lemma used_get_insert u key v key' :
  ORP.used_get (<[key := v]> u) key' =
    if decide (key = key') then v else ORP.used_get u key'.
Proof.
  unfold ORP.used_get. rewrite lookup_insert. by case_decide.
Qed.

Lemma ledger_grows_insert (G : ORP.Key → Z → Prop) u key k :
  0 ≤ k →
  (0 < k → G key (ORP.used_get u key + k)) →
  ledger_grows G u (<[key := ORP.used_get u key + k]> u).
Proof.
  intros Hk HG key'. rewrite used_get_insert.
  destruct (decide (key = key')) as [<-|_]; [|split; [done|lia]].
  split; [lia|]. intros Hlt. apply HG. lia.
Qed.

Section orp_ledger.
Context {Case : Type}.
Implicit Types (wk : ORP.work (Case:=Case)).

Lemma fill_slots_cons tslot cap key rest wk :
  ORP.pending wk ≠ [] →
  ORP.fill_slots ((tslot, cap, key) :: rest) wk =
    let k := Z.min cap (Z.of_nat (length (ORP.pending wk))) in
    if k <=? 0 then ORP.fill_slots rest wk
    else
      let? pat := ORP.place (Z.to_nat k) tslot (ORP.pending wk) (ORP.out wk) in
      ORP.fill_slots rest
        (ORP.Work pat.1 pat.2
           (<[key := ORP.used_get (ORP.used wk) key + k]> (ORP.used wk))).
Proof.
  intros Hp. cbn [ORP.fill_slots]. destruct (ORP.pending wk) eqn:E; [done|].
  cbv zeta. destruct (_ <=? 0); [done|].
  by destruct (ORP.place _ _ _ _) as [[??]|].
Qed.

Lemma fill_slots_nil_pending slots wk :
  ORP.pending wk = [] → ORP.fill_slots slots wk = Ok wk.
Proof.
  intros Hp. destruct slots as [|[[??]?] ?]; [done|].
  cbn [ORP.fill_slots]. by rewrite Hp.
Qed.

Lemma roll_slots_nil_pending day_start w d subqs i hs wk :
  ORP.pending wk = [] → ORP.roll_slots day_start w d subqs i hs wk = Ok wk.
Proof.
  intros Hp. destruct hs; [done|]. cbn [ORP.roll_slots]. by rewrite Hp.
Qed.

Lemma roll_slots_ledger G day_start w d subqs i hs wk wk' :
  ORP.roll_slots day_start w d subqs i hs wk = Ok wk' →
  (∀ j h v, hs !! j = Some h → v ≤ nth (i + j) subqs 0 →
            G (w, d, (day_start + h) mod 24) v) →
  ledger_grows G (ORP.used wk) (ORP.used wk').
Proof.
  revert i wk. induction hs as [|h hs IH]; intros i wk Hr HG.
  - injection Hr as <-. apply ledger_grows_refl.
  - destruct (decide (ORP.pending wk = [])) as [Hp|Hp].
    { rewrite roll_slots_nil_pending in Hr by done. injection Hr as <-.
      apply ledger_grows_refl. }
    rewrite roll_slots_cons in Hr by done. cbv zeta in Hr.
    destruct (ORP.place _ _ _ _) as [pat|]; cbn [bind] in Hr; [|done].
    eapply ledger_grows_trans; [|eapply IH; [exact Hr|]].
    + apply ledger_grows_insert; [lia|]. intros Hk.
      apply (HG 0%nat h); [done|]. rewrite Nat.add_0_r. lia.
    + intros j h' v Hl Hv. apply (HG (S j) h'); [done|].
      by replace (i + S j)%nat with (S i + j)%nat by lia.
Qed.

Lemma fill_slots_ledger G (slots : list ORP.slot) wk wk' :
  ORP.fill_slots slots wk = Ok wk' →
  NoDup (map snd slots) →
  Forall (λ s : ORP.slot,
            ∀ k, 0 < k ≤ s.1.2 → G s.2 (ORP.used_get (ORP.used wk) s.2 + k))
         slots →
  ledger_grows G (ORP.used wk) (ORP.used wk') ∧
  (∀ key, key ∉ map snd slots →
          ORP.used_get (ORP.used wk') key = ORP.used_get (ORP.used wk) key).
Proof.
  revert wk. induction slots as [|[[tslot cap] key] slots IH]; intros wk Hr Hnd HG.
  - injection Hr as <-. split; [apply ledger_grows_refl|done].
  - cbn [map snd] in Hnd. apply NoDup_cons in Hnd as [Hkey Hnd].
    apply Forall_cons in HG as [HG1 HG]. cbn [fst snd] in HG1.
    destruct (decide (ORP.pending wk = [])) as [Hp|Hp].
    { rewrite fill_slots_nil_pending in Hr by done. injection Hr as <-.
      split; [apply ledger_grows_refl|done]. }
    rewrite fill_slots_cons in Hr by done. cbv zeta in Hr.
    destruct (Z.leb_spec (Z.min cap (Z.of_nat (length (ORP.pending wk)))) 0)
      as [Hk|Hk].
    { destruct (IH wk Hr Hnd HG) as [Hg Hframe]. split; [done|].
      intros key' Hnin. apply Hframe. intros Hin. apply Hnin.
      cbn [map snd]. by right. }
    destruct (ORP.place _ _ _ _) as [pat|]; cbn [bind] in Hr; [|done].
    set (k := Z.min cap _) in *.
    set (u1 := <[key := ORP.used_get (ORP.used wk) key + k]> (ORP.used wk)) in *.
    destruct (IH _ Hr Hnd) as [Hg Hframe].
    { cbn [ORP.used]. rewrite Forall_forall in HG |- *.
      intros [[t' c'] key'] Hin k' Hk'. specialize (HG _ Hin k' Hk').
      cbn [fst snd] in *. unfold u1. rewrite used_get_insert.
      rewrite decide_False; [done|].
      intros ->. apply Hkey.
      by apply (list_elem_of_fmap_2 snd) in Hin. }
    cbn [ORP.used] in Hg, Hframe. split.
    + eapply ledger_grows_trans; [|exact Hg].
      apply ledger_grows_insert; [lia|]. intros _. apply HG1. lia.
    + intros key' Hnin. rewrite Hframe.
      * unfold u1. rewrite used_get_insert. rewrite decide_False; [done|].
        intros ->. apply Hnin. cbn [map snd]. by left.
      * intros Hin. apply Hnin. cbn [map snd]. by right.
Qed.

Lemma fill_days_ledger G (days : list (list ORP.slot)) wk wk' :
  ORP.fill_days days wk = Ok wk' →
  NoDup (map snd (concat days)) →
  Forall (λ s : ORP.slot,
            ∀ k, 0 < k ≤ s.1.2 → G s.2 (ORP.used_get (ORP.used wk) s.2 + k))
         (concat days) →
  ledger_grows G (ORP.used wk) (ORP.used wk').
Proof.
  revert wk. induction days as [|slots days IH]; intros wk Hr Hnd HG.
  - injection Hr as <-. apply ledger_grows_refl.
  - cbn [ORP.fill_days] in Hr. cbn [concat] in Hnd, HG.
    rewrite map_app in Hnd. apply NoDup_app in Hnd as (Hnd1 & Hdisj & Hnd2).
    apply Forall_app in HG as [HG1 HG2].
    destruct (ORP.fill_slots slots wk) as [wk1|] eqn:Hf; cbn [bind] in Hr; [|done].
    destruct (fill_slots_ledger G slots wk wk1 Hf Hnd1 HG1) as [Hg1 Hframe].
    destruct (ORP.pending wk1) eqn:Hp; [by injection Hr as <-|].
    eapply ledger_grows_trans; [exact Hg1|]. apply IH; [done..|].
    rewrite Forall_forall in HG2 |- *. intros s Hs k Hk.
    rewrite Hframe; [by apply HG2|].
    intros Hin. eapply Hdisj; [exact Hin|].
    by apply (list_elem_of_fmap_2 snd).
Qed.

End orp_ledger.

(** The slots [day_slots_at] builds for a day of quota [q]. *)
Definition slots_of (used : gmap ORP.Key Z) (base8 day_offset q : Z)
    : list ORP.slot :=
  imap (λ idx h_after,
          (base8 + 24 * day_offset + h_after,
           Z.max 0 (nth idx (ORP._split_quota q ORP.wave_frac) 0
                    - ORP.used_get used (bucket base8 day_offset h_after)),
           bucket base8 day_offset h_after))
       ORP.waves.

Lemma day_slots_at_spec cap used base8 backlog day_offset slots :
  ORP.day_slots_at cap used base8 backlog day_offset = Ok slots →
  ∃ q, ORP.day_quota cap (ORP.dow_1_to_7 (base8 + 24 * day_offset))
                     backlog (base8 / 24) = Ok q ∧
       slots = slots_of used base8 day_offset q.
Proof.
  unfold ORP.day_slots_at.
  destruct (ORP.day_quota _ _ _ _) as [q|]; cbn [bind]; [|done].
  intros [= <-]. by exists q.
Qed.

Lemma slots_of_keys used base8 day_offset q :
  map snd (slots_of used base8 day_offset q)
    = map (bucket base8 day_offset) ORP.waves.
Proof. reflexivity. Qed.

Lemma horizon_keys_NoDup base8 :
  NoDup (map (bucket base8 0) ORP.waves ++ map (bucket base8 1) ORP.waves).
Proof.
  assert (∀ off, NoDup (map (bucket base8 off) ORP.waves)) as Hday.
  { intros off. apply (NoDup_fmap_2_strong (bucket base8 off)); [|apply waves_NoDup].
    intros h h' Hh%waves_range Hh'%waves_range Heq.
    by destruct (bucket_inj _ _ _ _ _ Hh Hh' Heq). }
  apply NoDup_app. split_and!; [apply Hday| |apply Hday].
  intros key Hin0 Hin1.
  apply list_elem_of_fmap in Hin0 as (h & -> & Hh%waves_range).
  apply list_elem_of_fmap in Hin1 as (h' & Heq & Hh'%waves_range).
  destruct (bucket_inj _ _ _ _ _ Hh Hh' Heq). lia.
Qed.

(** In the two-day horizon a slot's room is what its sub-quota leaves
    above the ledger. *)
Lemma slots_of_within cap used base8 n_plan n_replan day_offset q :
  0 ≤ day_offset < 2 → 0 ≤ n_plan →
  ORP.day_quota cap (ORP.dow_1_to_7 (base8 + 24 * day_offset))
                (n_plan + n_replan) (base8 / 24) = Ok q →
  Forall (λ s : ORP.slot,
            ∀ k, 0 < k ≤ s.1.2 →
                 within_subquota cap base8 n_plan n_replan s.2
                                 (ORP.used_get used s.2 + k))
         (slots_of used base8 day_offset q).
Proof.
  intros Hoff Hn Hq. apply Forall_forall. intros s Hin k Hk.
  apply elem_of_lookup_imap in Hin as (idx & h & -> & Hl).
  cbn [fst snd] in *.
  exists day_offset, idx, h, (n_plan + n_replan),
         (nth idx (ORP._split_quota q ORP.wave_frac) 0).
  split_and!; [lia|done|done|lia|lia|done| |lia].
  unfold wave_subquota.
  destruct (Z.ltb_spec day_offset 2); [|lia].
  rewrite Z.add_0_r, Hq. done.
Qed.

Section orp_plan_ledger.
Context {Case : Type}.
Implicit Types (wk : ORP.work (Case:=Case)).

Lemma roll_day_ledger cap base8 n_plan n_replan day_offset wk wk' :
  roll_day cap base8 n_replan day_offset wk = Ok wk' →
  2 ≤ day_offset →
  Z.of_nat (length (ORP.pending wk)) ≤ n_plan →
  ledger_grows (within_subquota cap base8 n_plan n_replan)
               (ORP.used wk) (ORP.used wk').
Proof.
  unfold roll_day.
  destruct (ORP.day_quota _ _ _ _) as [q|] eqn:Hq; cbn [bind]; [|done].
  intros Hr Hoff Hlen. eapply roll_slots_ledger; [exact Hr|].
  intros j h v Hl Hv.
  exists day_offset, j, h, (Z.of_nat (length (ORP.pending wk)) + n_replan),
         (nth j (ORP._split_quota q ORP.wave_frac) 0).
  split_and!; [lia|done|done|lia|lia|lia| |done].
  unfold wave_subquota. destruct (Z.ltb_spec day_offset 2); [lia|].
  by rewrite Hq.
Qed.

Lemma roll_forward_ledger fuel cap base8 n_plan n_replan day_offset wk wk' :
  ORP.roll_forward fuel cap base8 n_replan day_offset wk = Ok wk' →
  2 ≤ day_offset →
  Z.of_nat (length (ORP.pending wk)) ≤ n_plan →
  ledger_grows (within_subquota cap base8 n_plan n_replan)
               (ORP.used wk) (ORP.used wk').
Proof.
  revert day_offset wk.
  induction fuel as [|fuel IH]; intros off wk;
    (destruct (decide (ORP.pending wk = [])) as [Hp|Hp];
     [rewrite roll_forward_nil by done; intros [= <-] _ _;
      apply ledger_grows_refl|]).
  - by rewrite roll_forward_O.
  - rewrite roll_forward_S by done.
    destruct (roll_day _ _ _ _ _) as [wk1|] eqn:Hd; [|done]. cbn [bind].
    intros Hr Hoff Hlen.
    pose proof (extends_length _ _ _ (roll_day_extends _ _ _ _ _ _ Hd)) as Hl1.
    eapply ledger_grows_trans.
    + by eapply roll_day_ledger.
    + eapply IH; [exact Hr|lia|lia].
Qed.

(** One call of [plan]: every bucket of the ledger keeps or raises its
    count, and a raised count is within the sub-quota of that bucket. *)
Lemma plan_ledger fuel self (P R : list Case) now outp self' :
  ORP.plan fuel self P R now = Ok (outp, self') →
  ledger_grows
    (within_subquota (ORP.cap self) (ORP.next_8am_at_or_after (now + 24))
                     (Z.of_nat (length P)) (Z.of_nat (length R)))
    (ORP._used self) (ORP._used self').
Proof.
  unfold ORP.plan. destruct P as [|c P]; [intros [= <- <-]; apply ledger_grows_refl|].
  set (P' := c :: P). set (base8 := ORP.next_8am_at_or_after _).
  cbn [mapM].
  destruct (ORP.day_slots_at _ _ _ _ 0) as [s0|] eqn:H0; cbn [bind]; [|done].
  destruct (ORP.day_slots_at _ _ _ _ 1) as [s1|] eqn:H1; cbn [bind]; [|done].
  apply day_slots_at_spec in H0 as (q0 & Hq0 & ->).
  apply day_slots_at_spec in H1 as (q1 & Hq1 & ->).
  destruct (ORP.fill_days _ _) as [wk1|] eqn:Hf; cbn [bind]; [|done].
  destruct (ORP.roll_forward _ _ _ _ _ _) as [wk2|] eqn:Hr; cbn [bind]; [|done].
  intros [= <- <-]. cbn [ORP._used ORP.cap].
  eapply ledger_grows_trans.
  - change (ORP._used self)
      with (ORP.used (ORP.Work P' ([] : list (Case * Z)) (ORP._used self))).
    eapply fill_days_ledger; [exact Hf| |].
    + cbn [concat]. rewrite app_nil_r, map_app, !slots_of_keys.
      apply horizon_keys_NoDup.
    + cbn [concat ORP.used]. rewrite app_nil_r. apply Forall_app. split.
      * eapply slots_of_within; [lia|lia|exact Hq0].
      * eapply slots_of_within; [lia|lia|exact Hq1].
  - eapply roll_forward_ledger; [exact Hr|lia|].
    assert (extends base8 (ORP.Work P' ([] : list (Case * Z)) (ORP._used self)) wk1)
      as Hext.
    { edestruct (fill_days_extends (Case:=Case) base8) as (wk1' & Hf' & Hext).
      2:{ rewrite Hf in Hf'. injection Hf' as <-. exact Hext. }
      repeat constructor; unfold slots_of, ORP.waves; cbn [imap];
        repeat constructor; simpl; lia. }
    apply extends_length in Hext. cbn [ORP.pending] in Hext. lia.
Qed.

End orp_plan_ledger.

Lemma plan_cap {Case} fuel self (P R : list Case) now outp self' :
  ORP.plan fuel self P R now = Ok (outp, self') → ORP.cap self' = ORP.cap self.
Proof.
  unfold ORP.plan. destruct P as [|c P]; [by intros [= <- <-]|].
  destruct (mapM _ _) as [days|]; cbn [bind]; [|done].
  destruct (ORP.fill_days _ _) as [wk1|]; cbn [bind]; [|done].
  destruct (ORP.roll_forward _ _ _ _ _ _) as [wk2|]; cbn [bind]; [|done].
  by intros [= <- <-].
Qed.

(** A count raised within the sub-quota of a bucket of the two-day horizon
    is at most the sub-quota that bucket has for the whole backlog. *)
Lemma within_subquota_horizon cap base8 n_plan n_replan day_offset idx h sq v :
  0 ≤ day_offset < 2 →
  ORP.waves !! idx = Some h →
  wave_subquota cap base8 day_offset (n_plan + n_replan) idx = Ok sq →
  within_subquota cap base8 n_plan n_replan (bucket base8 day_offset h) v →
  v ≤ sq.
Proof.
  intros Hoff Hl Hsq (off' & idx' & h' & backlog & sq' & Hoff' & Hl' & Hkey & _ & Hb & Hsq' & Hv).
  pose proof (waves_range h (list_elem_of_lookup_2 _ _ _ Hl)) as Hh.
  pose proof (waves_range h' (list_elem_of_lookup_2 _ _ _ Hl')) as Hh'.
  destruct (bucket_inj _ _ _ _ _ Hh Hh' Hkey) as [<- <-].
  rewrite Hb in Hsq' by lia.
  assert (idx' = idx) as -> by (eapply NoDup_lookup; [apply waves_NoDup|done..]).
  rewrite Hsq in Hsq'. injection Hsq' as <-. done.
Qed.

(** C6: when [plan] is called twice with the same cases and the same
    simulation time, the second call lowers no bucket of the ledger, and a
    bucket it raises stays within the sub-quota that call gives its wave
    (the room of a wave is its sub-quota less what the ledger holds).  For
    the buckets of the two-day horizon, whose sub-quota is the same in both
    calls, the two calls together leave the count at most at the larger of
    the sub-quota and the count before the first call. *)
Theorem plan_twice_within_subquota {Case} fuel1 fuel2 self (P R : list Case)
    now out1 self1 out2 self2 key :
  ORP.plan fuel1 self P R now = Ok (out1, self1) →
  ORP.plan fuel2 self1 P R now = Ok (out2, self2) →
  ORP.used_get (ORP._used self1) key ≤ ORP.used_get (ORP._used self2) key ∧
  (ORP.used_get (ORP._used self1) key < ORP.used_get (ORP._used self2) key →
   within_subquota (ORP.cap self) (ORP.next_8am_at_or_after (now + 24))
     (Z.of_nat (length P)) (Z.of_nat (length R))
     key (ORP.used_get (ORP._used self2) key)) ∧
  (∀ day_offset idx h sq,
     0 ≤ day_offset < 2 →
     ORP.waves !! idx = Some h →
     key = bucket (ORP.next_8am_at_or_after (now + 24)) day_offset h →
     wave_subquota (ORP.cap self) (ORP.next_8am_at_or_after (now + 24))
       day_offset (Z.of_nat (length P) + Z.of_nat (length R)) idx = Ok sq →
     ORP.used_get (ORP._used self2) key
       ≤ Z.max (ORP.used_get (ORP._used self) key) sq).
Proof.
  intros H1 H2.
  pose proof (plan_ledger _ _ _ _ _ _ _ H1 key) as [Hle1 HG1].
  pose proof (plan_ledger _ _ _ _ _ _ _ H2 key) as [Hle2 HG2].
  rewrite (plan_cap _ _ _ _ _ _ _ H1) in HG2.
  split_and!; [done|done|].
  intros off idx h sq Hoff Hl -> Hsq.
  destruct (decide (ORP.used_get (ORP._used self1)
                      (bucket (ORP.next_8am_at_or_after (now + 24)) off h)
                    < ORP.used_get (ORP._used self2)
                      (bucket (ORP.next_8am_at_or_after (now + 24)) off h)))
    as [Hlt2|Hge2].
  { pose proof (within_subquota_horizon _ _ _ _ _ _ _ _ _ Hoff Hl Hsq (HG2 Hlt2)).
    lia. }
  destruct (decide (ORP.used_get (ORP._used self)
                      (bucket (ORP.next_8am_at_or_after (now + 24)) off h)
                    < ORP.used_get (ORP._used self1)
                      (bucket (ORP.next_8am_at_or_after (now + 24)) off h)))
    as [Hlt1|Hge1].
  { pose proof (within_subquota_horizon _ _ _ _ _ _ _ _ _ Hoff Hl Hsq (HG1 Hlt1)).
    lia. }
  lia.
Qed.

Lemma plan_twice_within_subquota_witness :
  ORP.plan 0 ORP.init [1%positive; 2%positive; 3%positive] [] 5
    = Ok ([(3%positive, 32); (2%positive, 32); (1%positive, 32)],
          ORP.Planner ORP.default_cap {[ (0, 2, 8) := 3 ]}) ∧
  ORP.plan 0 (ORP.Planner ORP.default_cap {[ (0, 2, 8) := 3 ]})
           [1%positive; 2%positive; 3%positive] [] 5
    = Ok ([(3%positive, 32); (2%positive, 32); (1%positive, 32)],
          ORP.Planner ORP.default_cap {[ (0, 2, 8) := 6 ]}) ∧
  wave_subquota ORP.default_cap 32 0 (3 + 0) 0 = Ok 20 ∧
  ORP.used_get {[ (0, 2, 8) := 6 ]} (0, 2, 8) ≤ Z.max 0 20.
Proof.
  assert (ORP.plan 0 ORP.init [1%positive; 2%positive; 3%positive] [] 5
    = Ok ([(3%positive, 32); (2%positive, 32); (1%positive, 32)],
          ORP.Planner ORP.default_cap {[ (0, 2, 8) := 3 ]})) as H1
    by (vm_compute; reflexivity).
  assert (ORP.plan 0 (ORP.Planner ORP.default_cap {[ (0, 2, 8) := 3 ]})
           [1%positive; 2%positive; 3%positive] [] 5
    = Ok ([(3%positive, 32); (2%positive, 32); (1%positive, 32)],
          ORP.Planner ORP.default_cap {[ (0, 2, 8) := 6 ]})) as H2
    by (vm_compute; reflexivity).
  assert (wave_subquota ORP.default_cap 32 0 (3 + 0) 0 = Ok 20) as Hsq
    by (vm_compute; reflexivity).
  split; [exact H1|]. split; [exact H2|]. split; [exact Hsq|].
  exact (proj2 (proj2 (plan_twice_within_subquota 0 0 ORP.init
                         [1%positive; 2%positive; 3%positive] [] 5
                         _ _ _ _ (0, 2, 8) H1 H2))
               0 0%nat 0 20 ltac:(lia) eq_refl eq_refl Hsq).
Defined.

(** * The warm-start scenario *)

Lemma daily_quota_default d :
  1 ≤ d ≤ 7 → ORP._daily_quota ORP.default_cap d = Ok 54.
Proof.
  intros Hd.
  assert (d = 1 ∨ d = 2 ∨ d = 3 ∨ d = 4 ∨ d = 5 ∨ d = 6 ∨ d = 7)
    as [->|[->|[->|[->|[->|[->| ->]]]]]] by lia; reflexivity.
Qed.

(** With the default capacities, a backlog of at least 162 cases and a
    first day in the warm-start period, the day's quota is the ceiling. *)
Lemma day_quota_warm_backlog d backlog days :
  1 ≤ d ≤ 7 → 162 ≤ backlog → days < 14 →
  ORP.day_quota ORP.default_cap d backlog days = Ok 72.
Proof.
  intros Hd Hb Hw. unfold ORP.day_quota. rewrite daily_quota_default by done.
  cbn [bind]. destruct (Z.ltb_spec days 14); [|lia]. cbn [orb].
  change (54 / 2) with 27.
  assert (27 ≤ backlog / 6) by (apply Z.div_le_lower_bound; lia).
  f_equal. lia.
Qed.

Lemma split_quota_72 : ORP._split_quota 72 ORP.wave_frac = [26; 16; 11; 9; 6; 4].
Proof. vm_compute. reflexivity. Qed.

(** The timestamps of a day whose six waves are all filled: wave [i]
    holds [subqs[i]] cases. *)
Definition wave_times (day_start : Z) (subqs : list Z) : list Z :=
  flat_map (λ hn : Z * Z, replicate (Z.to_nat hn.2) (day_start + hn.1))
           (zip ORP.waves subqs).

Lemma map_const_replicate {A B} (l : list A) (b : B) :
  map (λ _, b) l = replicate (length l) b.
Proof. induction l as [|x l IH]; simpl; [done|by rewrite IH]. Qed.

Section orp_scenario.
Context {Case : Type}.
Implicit Types (wk : ORP.work (Case:=Case)).

(** Slots with room, and enough cases for all of them: every slot is
    filled to its room. *)
Lemma fill_slots_exact (slots : list ORP.slot) wk :
  Forall (λ s : ORP.slot, 0 < s.1.2) slots →
  sum_ints (map (λ s : ORP.slot, s.1.2) slots)
    ≤ Z.of_nat (length (ORP.pending wk)) →
  ∃ wk' added,
    ORP.fill_slots slots wk = Ok wk' ∧
    ORP.out wk' = ORP.out wk ++ added ∧
    map snd added
      = flat_map (λ s : ORP.slot, replicate (Z.to_nat s.1.2) s.1.1) slots ∧
    Z.of_nat (length (ORP.pending wk'))
      = Z.of_nat (length (ORP.pending wk))
        - sum_ints (map (λ s : ORP.slot, s.1.2) slots).
Proof.
  intros Hpos. revert wk.
  induction Hpos as [|[[tslot cap] key] slots Hc Hpos IH]; intros wk Hsum.
  - exists wk, []. unfold sum_ints. simpl. rewrite app_nil_r.
    split_and!; [done..|lia].
  - unfold sum_ints in *. cbn [map foldr fst snd] in *.
    assert (0 ≤ foldr Z.add 0 (map (λ s : ORP.slot, s.1.2) slots)) as Hnn.
    { clear -Hpos. induction Hpos as [|s l Hs _ IHl]; simpl; lia. }
    assert (ORP.pending wk ≠ []) as Hp.
    { intros Hnil. rewrite Hnil in Hsum. simpl in Hsum. lia. }
    rewrite fill_slots_cons by done. cbv zeta.
    replace (Z.min cap (Z.of_nat (length (ORP.pending wk)))) with cap by lia.
    destruct (Z.leb_spec cap 0); [lia|].
    rewrite place_spec by lia. cbn [bind fst snd].
    set (wk1 := ORP.Work _ _ _).
    destruct (IH wk1) as (wk' & added & Hf & Ho & Hs & Hl).
    { unfold wk1. cbn [ORP.pending]. rewrite length_take. lia. }
    exists wk', (map (λ c, (c, tslot))
                   (rev (drop (length (ORP.pending wk) - Z.to_nat cap)
                              (ORP.pending wk))) ++ added).
    split_and!.
    + exact Hf.
    + rewrite Ho. unfold wk1. cbn [ORP.out]. by rewrite app_assoc.
    + rewrite map_app, Hs. cbn [flat_map fst snd]. f_equal.
      rewrite map_map. cbn [snd]. rewrite map_const_replicate. f_equal.
      rewrite length_rev, length_drop. lia.
    + rewrite Hl. unfold wk1. cbn [ORP.pending]. rewrite length_take. lia.
Qed.

End orp_scenario.

Lemma slots_of_fresh base8 day_offset :
  slots_of ∅ base8 day_offset 72 =
    [(base8 + 24 * day_offset + 0, 26, bucket base8 day_offset 0);
     (base8 + 24 * day_offset + 2, 16, bucket base8 day_offset 2);
     (base8 + 24 * day_offset + 4, 11, bucket base8 day_offset 4);
     (base8 + 24 * day_offset + 6, 9, bucket base8 day_offset 6);
     (base8 + 24 * day_offset + 8, 6, bucket base8 day_offset 8);
     (base8 + 24 * day_offset + 12, 4, bucket base8 day_offset 12)].
Proof.
  unfold slots_of, ORP.waves. rewrite split_quota_72.
  unfold ORP.used_get. cbn [imap]. by rewrite !lookup_empty.
Qed.

(** C5: a new planner with the default weekly capacities, 200 pending
    cases and a first day in the warm-start period.  The quota of day 1 is
    72, inside the band [56, 72]; the call returns; and the returned list
    starts with the cases of day 1, each of the six waves holding exactly
    its sub-quota (26, 16, 11, 9, 6, 4 for the fractions 0.36, 0.22, 0.16,
    0.12, 0.08, 0.06), before any case of day 2 or later. *)
Theorem warm_start_day_one_filled_first {Case} (P R : list Case) now :
  length P = 200%nat →
  ORP.next_8am_at_or_after (now + 24) / 24 < 14 →
  ∃ q fuel0 outp self' day1 rest,
    ORP.day_quota ORP.default_cap
      (ORP.dow_1_to_7 (ORP.next_8am_at_or_after (now + 24)))
      (200 + Z.of_nat (length R))
      (ORP.next_8am_at_or_after (now + 24) / 24) = Ok q ∧
    56 ≤ q ≤ 72 ∧
    ORP._split_quota q ORP.wave_frac = [26; 16; 11; 9; 6; 4] ∧
    (∀ fuel, (fuel0 ≤ fuel)%nat →
       ORP.plan fuel ORP.init P R now = Ok (outp, self')) ∧
    outp = day1 ++ rest ∧
    map snd day1
      = wave_times (ORP.next_8am_at_or_after (now + 24))
                   (ORP._split_quota q ORP.wave_frac) ∧
    Z.of_nat (length day1) = q ∧
    Forall (λ ct, ORP.next_8am_at_or_after (now + 24) + 24 ≤ ct.2) rest.
Proof.
  intros Hlen Hwarm. set (base8 := ORP.next_8am_at_or_after (now + 24)) in *.
  assert (∀ d, 1 ≤ d ≤ 7 →
            ORP.day_quota ORP.default_cap d (200 + Z.of_nat (length R))
                          (base8 / 24) = Ok 72) as Hq
    by (intros d Hd; apply day_quota_warm_backlog; [done|lia|done]).
  destruct (plan_returns ORP.init P R now eq_refl) as (fuel0 & outp & self' & Hret).
  pose proof (Hret fuel0 (le_n _)) as Hplan.
  unfold ORP.plan in Hplan. fold base8 in Hplan.
  destruct P as [|c P]; [done|]. rewrite Hlen in Hplan.
  change (Z.of_nat 200) with 200 in Hplan.
  cbn [mapM ORP.cap ORP.init ORP._used] in Hplan.
  destruct (ORP.day_slots_at _ _ _ _ 0) as [s0|] eqn:H0; cbn [bind] in Hplan;
    [|done].
  destruct (ORP.day_slots_at _ _ _ _ 1) as [s1|] eqn:H1; cbn [bind] in Hplan;
    [|done].
  pose proof (day_slots_at_times _ _ _ _ _ _ H1) as Ht1.
  apply day_slots_at_spec in H0 as (q0 & Hq0 & ->).
  rewrite Hq in Hq0 by apply dow_1_to_7_range. injection Hq0 as <-.
  cbn [ORP.fill_days] in Hplan.
  destruct (fill_slots_exact (slots_of ∅ base8 0 72)
              (ORP.Work (c :: P) ([] : list (Case * Z)) ∅))
    as (wk1 & day1 & Hf & Ho & Hs & Hl).
  { rewrite slots_of_fresh. repeat constructor; simpl; lia. }
  { rewrite slots_of_fresh. cbn [ORP.pending]. rewrite Hlen. by vm_compute. }
  rewrite Hf in Hplan. cbn [bind] in Hplan.
  cbn [ORP.pending ORP.out app] in Ho, Hl. rewrite Hlen in Hl.
  rewrite slots_of_fresh in Hs, Hl.
  destruct (ORP.pending wk1) as [|c1 p1] eqn:Hp1;
    [exfalso; vm_compute in Hl; lia|].
  destruct (ORP.fill_slots s1 wk1) as [wk2|] eqn:Hf2; cbn [bind] in Hplan;
    [|done].
  assert (extends (base8 + 24) wk1 wk2) as E12.
  { edestruct (fill_slots_extends (Case:=Case) (base8 + 24) s1 wk1)
      as (wk2' & Hf2' & E); [|rewrite Hf2 in Hf2'; by injection Hf2' as <-].
    eapply Forall_impl; [exact Ht1|]. simpl. intros; lia. }
  assert ((let? wk := ORP.roll_forward fuel0 ORP.default_cap base8
                        (Z.of_nat (length R)) 2 wk2 in
           Ok (ORP.out wk, ORP.Planner ORP.default_cap (ORP.used wk)))
          = Ok (outp, self')) as Hplan2
    by (destruct (ORP.pending wk2); exact Hplan).
  destruct (ORP.roll_forward _ _ _ _ _ _) as [wk3|] eqn:Hr; cbn [bind] in Hplan2;
    [|done].
  injection Hplan2 as <- _.
  apply roll_forward_extends in Hr as [_ E23].
  eapply extends_weaken in E23; [|instantiate (1 := base8 + 24); lia].
  destruct (extends_trans _ _ _ _ E12 E23) as (rest & Hrest & _ & Hfr).
  exists 72, fuel0, (ORP.out wk3), self', day1, rest.
  split_and!.
  - apply Hq, dow_1_to_7_range.
  - lia.
  - lia.
  - apply split_quota_72.
  - exact Hret.
  - by rewrite Hrest, Ho.
  - rewrite Hs, split_quota_72. unfold wave_times, ORP.waves.
    cbn [zip zip_with flat_map fst snd]. by rewrite !Z.mul_0_r, !Z.add_0_r.
  - apply (f_equal (λ l, Z.of_nat (length l))) in Hs.
    rewrite length_map in Hs. rewrite Hs. by vm_compute.
  - exact Hfr.
Qed.

Lemma warm_start_day_one_filled_first_witness :
  length (seq 0 200) = 200%nat ∧
  ORP.next_8am_at_or_after (0 + 24) / 24 < 14 ∧
  ∃ q fuel0 outp self' day1 rest,
    ORP.day_quota ORP.default_cap
      (ORP.dow_1_to_7 (ORP.next_8am_at_or_after (0 + 24)))
      (200 + Z.of_nat (length ([] : list nat)))
      (ORP.next_8am_at_or_after (0 + 24) / 24) = Ok q ∧
    56 ≤ q ≤ 72 ∧
    ORP._split_quota q ORP.wave_frac = [26; 16; 11; 9; 6; 4] ∧
    (∀ fuel, (fuel0 ≤ fuel)%nat →
       ORP.plan fuel ORP.init (seq 0 200) [] 0 = Ok (outp, self')) ∧
    outp = day1 ++ rest ∧
    map snd day1
      = wave_times (ORP.next_8am_at_or_after (0 + 24))
                   (ORP._split_quota q ORP.wave_frac) ∧
    Z.of_nat (length day1) = q ∧
    Forall (λ ct, ORP.next_8am_at_or_after (0 + 24) + 24 ≤ ct.2) rest.
Proof.
  split; [reflexivity|]. split; [by vm_compute|].
  apply (warm_start_day_one_filled_first (seq 0 200) [] 0);
    [reflexivity|by vm_compute].
Defined.


(** * Further properties of [or.py] *)

(** ** Calendar helpers *)

(** X1: on a whole-hour time [t], given as an integer or as a float
    without a fraction, [next_8am_at_or_after] returns the first 08:00 not
    before [t]: it is at hour 8 of its day, not before [t] and less than a
    day after it. *)
Theorem next_8am_at_or_after_first t :
  ORP.next_8am_at_or_after_float (inject_Z t) = ORP.next_8am_at_or_after t ∧
  ORP.next_8am_at_or_after t mod 24 = 8 ∧
  t ≤ ORP.next_8am_at_or_after t < t + 24.
Proof.
  split; [apply next_8am_at_or_after_float_whole|].
  split; [apply next_8am_at_or_after_hour|].
  split; [apply next_8am_at_or_after_ge|].
  unfold ORP.next_8am_at_or_after.
  pose proof (Z.mod_pos_bound t 24 ltac:(lia)).
  destruct (Z.leb_spec (t mod 24) 8); lia.
Qed.

(** X2: [dow_1_to_7] is a day of the week 1..7, the same a week later and
    the next one a day later, and it is the weekday of the bandit planner's
    calendar counted from one. *)
Theorem dow_1_to_7_calendar t :
  1 ≤ ORP.dow_1_to_7 t ≤ 7 ∧
  ORP.dow_1_to_7 (t + 168) = ORP.dow_1_to_7 t ∧
  ORP.dow_1_to_7 (t + 24) = ORP.dow_1_to_7 t mod 7 + 1 ∧
  ORP.dow_1_to_7 t = RL.weekday_of t + 1.
Proof.
  unfold ORP.dow_1_to_7, RL.weekday_of.
  replace (t + 168) with (7 * 24 + t) by lia.
  replace (t + 24) with (1 * 24 + t) by lia.
  rewrite !Z.div_add_l by lia.
  split_and!; try done; Z.div_mod_to_equations; lia.
Qed.

(** ** Quotas *)

(** X3: [_daily_quota] returns a quota between 48 and 64 when the schedule
    has the intake, ER and both bed entries of the day, and raises
    [KeyError] when one of them is missing; the OR entries are never
    read. *)
Theorem daily_quota_band cap d :
  match ORP._daily_quota cap d with
  | Ok q =>
      48 ≤ q ≤ 64 ∧
      Forall (λ r, is_Some (cap !! (r, d)))
             [INTAKE; ER_PRACTITIONER; A_BED; B_BED]
  | Err e =>
      e = KeyError ∧
      Exists (λ r, cap !! (r, d) = None)
             [INTAKE; ER_PRACTITIONER; A_BED; B_BED]
  end ∧
  ∀ d' v, ORP._daily_quota (<[(OR, d') := v]> cap) d = ORP._daily_quota cap d.
Proof.
  split.
  - unfold ORP._daily_quota, getitem.
    destruct (cap !! (INTAKE, d)) eqn:H1; cbn [bind];
      [|split; [done|by repeat constructor]].
    destruct (cap !! (ER_PRACTITIONER, d)) eqn:H2; cbn [bind];
      [|split; [done|by apply Exists_cons_tl, Exists_cons_hd]].
    destruct (cap !! (A_BED, d)) eqn:H3; cbn [bind];
      [|split; [done|by do 2 apply Exists_cons_tl; apply Exists_cons_hd]].
    destruct (cap !! (B_BED, d)) eqn:H4; cbn [bind];
      [|split; [done|by do 3 apply Exists_cons_tl; apply Exists_cons_hd]].
    split; [lia|]. repeat constructor; by eexists.
  - intros d' v. unfold ORP._daily_quota, getitem.
    by rewrite !lookup_insert_ne by congruence.
Qed.

Lemma day_quota_mono cap d backlog backlog' days q q' :
  backlog ≤ backlog' →
  ORP.day_quota cap d backlog days = Ok q →
  ORP.day_quota cap d backlog' days = Ok q' →
  q ≤ q'.
Proof.
  intros Hb. unfold ORP.day_quota.
  destruct (ORP._daily_quota cap d) as [q0|]; cbn [bind]; [|done].
  intros [= <-] [= <-].
  pose proof (Z.div_le_mono backlog backlog' 6 ltac:(lia) Hb).
  destruct (days <? 14); cbn [orb].
  - lia.
  - destruct (Z.ltb_spec 150 backlog), (Z.ltb_spec 150 backlog'); lia.
Qed.

(** X4: the quota of a day after the backlog boost lies between 50 and 72;
    it is at least 56 in the warm-start period (fewer than 14 days), at
    most 64 after it unless the backlog is above 150, and it does not fall
    when the backlog grows. *)
Theorem day_quota_band cap d backlog backlog' days q q' :
  backlog ≤ backlog' →
  ORP.day_quota cap d backlog days = Ok q →
  ORP.day_quota cap d backlog' days = Ok q' →
  50 ≤ q ≤ 72 ∧
  (days < 14 → 56 ≤ q) ∧
  (14 ≤ days → backlog ≤ 150 → q ≤ 64) ∧
  q ≤ q'.
Proof.
  intros Hb Hq Hq'. split; [|split; [|split]].
  - by eapply day_quota_bounds.
  - intros Hw. unfold ORP.day_quota in Hq.
    destruct (ORP._daily_quota cap d) as [q0|]; cbn [bind] in Hq; [|done].
    injection Hq as <-. destruct (Z.ltb_spec days 14); [|lia]. cbn [orb]. lia.
  - intros Hw Hlow. unfold ORP.day_quota in Hq.
    destruct (ORP._daily_quota cap d) as [q0|]; cbn [bind] in Hq; [|done].
    injection Hq as <-. destruct (Z.ltb_spec days 14); [lia|].
    destruct (Z.ltb_spec 150 backlog); [lia|]. cbn [orb]. lia.
  - by eapply day_quota_mono.
Qed.

Lemma day_quota_band_witness :
  10 ≤ 200 ∧
  ORP.day_quota ORP.default_cap 3 10 20 = Ok 55 ∧
  ORP.day_quota ORP.default_cap 3 200 20 = Ok 72 ∧
  50 ≤ 55 ≤ 72 ∧ 55 ≤ 72.
Proof.
  assert (ORP.day_quota ORP.default_cap 3 10 20 = Ok 55) as H1 by reflexivity.
  assert (ORP.day_quota ORP.default_cap 3 200 20 = Ok 72) as H2 by reflexivity.
  split; [lia|]. split; [exact H1|]. split; [exact H2|].
  destruct (day_quota_band ORP.default_cap 3 10 200 20 55 72 ltac:(lia) H1 H2)
    as (Hb & _ & _ & Hm).
  split; [exact Hb|exact Hm].
Defined.

(** The binary64 products of [_split_quota], truncated: the sub-quotas
    before the leftover is handed out. *)
Definition truncated_products (total : Z) (fractions : list PrimFloat.float)
    : list Z :=
  map int_of_binary64 (map (λ f, PrimFloat.mul f (float_of_int total)) fractions).

Lemma insert_reverse_float_perm {A} (key : A → PrimFloat.float) x l :
  insert_reverse_float key x l ≡ₚ x :: l.
Proof.
  induction l as [|y l IH]; simpl; [done|].
  destruct (PrimFloat.ltb (key x) (key y)); [|done].
  rewrite IH. apply Permutation_swap.
Qed.

Lemma sorted_reverse_float_perm {A} (key : A → PrimFloat.float) l :
  sorted_reverse_float key l ≡ₚ l.
Proof.
  induction l as [|x l IH]; simpl; [done|].
  fold (sorted_reverse_float key l). by rewrite insert_reverse_float_perm, IH.
Qed.

(** The waves [_split_quota] gives a unit of the leftover to. *)
Definition bumped_waves64 (total : Z) (fractions : list PrimFloat.float)
    : list nat :=
  let raw := map (λ f, PrimFloat.mul f (float_of_int total)) fractions in
  let ints := map int_of_binary64 raw in
  let leftover := total - sum_ints ints in
  if 0 <? leftover then
    take (Z.to_nat leftover)
      (sorted_reverse_float
         (λ i, PrimFloat.sub (nth i raw PrimFloat.zero)
                             (float_of_int (nth i ints 0%Z)))
         (seq 0 (length raw)))
  else [].

Lemma split_quota_bump total fractions :
  ORP._split_quota total fractions =
    bump_all (truncated_products total fractions) (bumped_waves64 total fractions).
Proof.
  unfold ORP._split_quota, bumped_waves64, truncated_products. cbv zeta.
  by destruct (0 <? _).
Qed.

Lemma bumped_waves64_facts total fractions :
  NoDup (bumped_waves64 total fractions) ∧
  Forall (λ b, (b < length fractions)%nat) (bumped_waves64 total fractions) ∧
  Z.of_nat (length (bumped_waves64 total fractions))
    = Z.max 0 (Z.min (total - sum_ints (truncated_products total fractions))
                     (Z.of_nat (length fractions))).
Proof.
  unfold bumped_waves64, truncated_products. cbv zeta.
  set (raw := map (λ f, PrimFloat.mul f (float_of_int total)) fractions).
  set (ints := map int_of_binary64 raw).
  set (order := sorted_reverse_float _ _).
  assert (order ≡ₚ seq 0 (length fractions)) as Hperm.
  { unfold order, raw. by rewrite sorted_reverse_float_perm, length_map. }
  destruct (Z.ltb_spec 0 (total - sum_ints ints)) as [Hpos|Hle].
  - split_and!.
    + eapply sublist_NoDup; [|apply sublist_take].
      rewrite Hperm. apply NoDup_seq.
    + apply Forall_forall. intros b Hb%subseteq_take.
      rewrite Hperm in Hb. apply elem_of_seq in Hb. lia.
    + rewrite length_take, Hperm, length_seq. lia.
  - split_and!; [constructor|constructor|simpl; lia].
Qed.

(** X5: for a total and shares whose binary64 products are finite (on an
    infinity or a NaN [int] raises), [_split_quota] returns one sub-quota
    per share, each the truncated binary64 product of the share and the
    total or one more; a leftover that is not positive is not handed out;
    and the sub-quotas sum to the total exactly when the leftover after
    truncation is between zero and the number of shares: their sum is the
    sum of the truncated products plus the leftover cut to that range. *)
Theorem split_quota_shape total (fractions : list PrimFloat.float) :
  Forall (λ f, PrimFloat.is_finite (PrimFloat.mul f (float_of_int total)) = true)
         fractions →
  length (ORP._split_quota total fractions) = length fractions ∧
  (∀ i, (i < length fractions)%nat →
     nth i (ORP._split_quota total fractions) 0
       = nth i (truncated_products total fractions) 0
     ∨ nth i (ORP._split_quota total fractions) 0
       = nth i (truncated_products total fractions) 0 + 1) ∧
  (total - sum_ints (truncated_products total fractions) ≤ 0 →
   ORP._split_quota total fractions = truncated_products total fractions) ∧
  sum_ints (ORP._split_quota total fractions)
    = sum_ints (truncated_products total fractions)
      + Z.max 0 (Z.min (total - sum_ints (truncated_products total fractions))
                       (Z.of_nat (length fractions))).
Proof.
  intros _.
  destruct (bumped_waves64_facts total fractions) as (Hnd & Hrange & Hlen).
  assert (length (truncated_products total fractions) = length fractions)
    as Hlt by (unfold truncated_products; by rewrite !length_map).
  split; [|split; [|split]].
  - by rewrite split_quota_bump, bump_all_length.
  - intros i Hi. rewrite split_quota_bump, bump_all_nth by done.
    destruct (decide _); [by right|by left].
  - intros Hle. unfold ORP._split_quota. cbv zeta.
    fold (truncated_products total fractions).
    destruct (Z.ltb_spec 0 (total - sum_ints (truncated_products total fractions)));
      [lia|done].
  - rewrite split_quota_bump, bump_all_sum; [lia|].
    eapply Forall_impl; [exact Hrange|]. simpl. intros; lia.
Qed.

Lemma split_quota_shape_witness :
  Forall (λ f, PrimFloat.is_finite (PrimFloat.mul f (float_of_int 60)) = true)
         ORP.wave_frac ∧
  length (ORP._split_quota 60 ORP.wave_frac) = length ORP.wave_frac ∧
  sum_ints (ORP._split_quota 60 ORP.wave_frac)
    = sum_ints (truncated_products 60 ORP.wave_frac)
      + Z.max 0 (Z.min (60 - sum_ints (truncated_products 60 ORP.wave_frac))
                       (Z.of_nat (length ORP.wave_frac))).
Proof.
  assert (Forall (λ f, PrimFloat.is_finite
                         (PrimFloat.mul f (float_of_int 60)) = true)
                 ORP.wave_frac) as Hfin
    by (unfold ORP.wave_frac; repeat constructor).
  split; [exact Hfin|].
  destruct (split_quota_shape 60 ORP.wave_frac Hfin) as (Hlen & _ & _ & Hsum).
  split; [exact Hlen|exact Hsum].
Defined.

(** One total passes: six sub-quotas that sum to the total, each within 1
    of the ideal share. *)
Definition split_within (total : Z) : bool :=
  let subqs := ORP._split_quota total ORP.wave_frac in
  (length subqs =? 6)%nat
  && (sum_ints subqs =? total)
  && forallb (λ i,
       Qle_bool (ideal total wave_frac_exact i - 1) (inject_Z (nth i subqs 0%Z))
       && Qle_bool (inject_Z (nth i subqs 0%Z)) (ideal total wave_frac_exact i + 1))
       (seq 0 6).

Lemma split_within_table : forallb split_within (seqZ 0 1001) = true.
Proof. vm_compute. reflexivity. Qed.

(** X26: with the six shares of the planner and a total from 0 to 1000,
    the sub-quotas of [_split_quota] sum to the total and each is within 1
    of its ideal share, the fraction 0.36, 0.22, 0.16, 0.12, 0.08 or 0.06
    of the total. *)
Theorem split_quota_planner_totals total :
  0 ≤ total ≤ 1000 →
  length (ORP._split_quota total ORP.wave_frac) = 6%nat ∧
  sum_ints (ORP._split_quota total ORP.wave_frac) = total ∧
  ∀ i, (i < 6)%nat →
    (ideal total wave_frac_exact i - 1
       <= inject_Z (nth i (ORP._split_quota total ORP.wave_frac) 0%Z)
       <= ideal total wave_frac_exact i + 1)%Q.
Proof.
  intros Ht. pose proof split_within_table as Htab.
  rewrite forallb_forall in Htab.
  assert (split_within total = true) as Hok.
  { apply Htab, list_elem_of_In, elem_of_seqZ. lia. }
  unfold split_within in Hok. cbv zeta in Hok.
  apply andb_prop in Hok as [Hok Hall]. apply andb_prop in Hok as [Hlen Hsum].
  split_and!; [by apply Nat.eqb_eq|by apply Z.eqb_eq|].
  intros i Hi. rewrite forallb_forall in Hall.
  specialize (Hall i ltac:(apply in_seq; lia)).
  apply andb_prop in Hall as [Hlo Hhi].
  split; by apply Qle_bool_iff.
Qed.

Lemma split_quota_planner_totals_witness :
  0 ≤ 60 ≤ 1000 ∧ sum_ints (ORP._split_quota 60 ORP.wave_frac) = 60.
Proof.
  split; [lia|].
  exact (proj1 (proj2 (split_quota_planner_totals 60 ltac:(lia)))).
Defined.

(** ** What [plan] places, where and in which order *)

(** The ledger key of an absolute time. *)
Definition key_of_time (t : Z) : ORP.Key := (t / 168, ORP.dow_1_to_7 t, t mod 24).

(** [t] is the time of a wave of a day at or after the day of [base8]. *)
Definition wave_time (base8 t : Z) : Prop :=
  ∃ day_offset h, 0 ≤ day_offset ∧ h ∈ ORP.waves ∧ t = base8 + 24 * day_offset + h.

Lemma bucket_key_of_time base8 day_offset h :
  base8 mod 24 = 8 → h ∈ ORP.waves →
  bucket base8 day_offset h = key_of_time (base8 + 24 * day_offset + h).
Proof.
  intros Hb Hh. unfold bucket, key_of_time, ORP.dow_1_to_7. cbv zeta.
  assert (0 ≤ h ≤ 12) as Hr.
  { unfold ORP.waves in Hh.
    repeat (apply elem_of_cons in Hh as [->|Hh]; [lia|]).
    by apply elem_of_nil in Hh. }
  assert ((base8 + 24 * day_offset + h) / 24 = (base8 + 24 * day_offset) / 24)
    as H24 by (Z.div_mod_to_equations; lia).
  replace 168 with (24 * 7) by done. rewrite <- !Z.div_div by lia.
  by rewrite H24.
Qed.

Section orp_accounting.
Context {Case : Type}.
Implicit Types (wk : ORP.work (Case:=Case)) (l : list (Case * Z)).

(** The number of decisions of [l] that fall into the bucket [key]. *)
Definition count_at (key : ORP.Key) l : Z :=
  Z.of_nat (length (filter (λ ct, key_of_time ct.2 = key) l)).

Lemma count_at_app key l1 l2 :
  count_at key (l1 ++ l2) = count_at key l1 + count_at key l2.
Proof. unfold count_at. rewrite filter_app, length_app. lia. Qed.

Lemma count_at_same key t (cs : list Case) :
  count_at key (map (λ c, (c, t)) cs)
    = if decide (key_of_time t = key) then Z.of_nat (length cs) else 0.
Proof.
  unfold count_at. induction cs as [|c cs IH]; [by destruct (decide _)|].
  cbn [map]. rewrite filter_cons. cbn [snd].
  destruct (decide (key_of_time t = key)); cbn [length]; lia.
Qed.

(** The invariant of the placement loops: the decisions made so far are in
    order of time, none after [hi], all at wave times, and the ledger has
    grown by the number of decisions in each bucket. *)
Definition plan_inv (base8 : Z) (u0 : gmap ORP.Key Z) (hi : Z) wk : Prop :=
  StronglySorted Z.le (map snd (ORP.out wk)) ∧
  Forall (λ ct, wave_time base8 ct.2 ∧ ct.2 ≤ hi) (ORP.out wk) ∧
  ∀ key, ORP.used_get (ORP.used wk) key
         = ORP.used_get u0 key + count_at key (ORP.out wk).

Lemma plan_inv_weaken base8 u0 hi hi' wk :
  hi ≤ hi' → plan_inv base8 u0 hi wk → plan_inv base8 u0 hi' wk.
Proof.
  intros Hle (Hs & Hf & Hc). split_and!; [done| |done].
  eapply Forall_impl; [exact Hf|]. simpl. intros ct [??]. split; [done|lia].
Qed.

Lemma sorted_snoc_all (l : list Z) (t : Z) (n : nat) :
  StronglySorted Z.le l → Forall (λ x, x ≤ t) l →
  StronglySorted Z.le (l ++ replicate n t).
Proof.
  intros Hs Hf. induction Hs as [|x l Hs IH Hx]; simpl.
  - induction n as [|n IHn]; simpl; constructor; [done|].
    apply Forall_forall. intros y Hy%elem_of_replicate. lia.
  - apply Forall_cons in Hf as [Hxt Hf]. constructor; [by apply IH|].
    apply Forall_app. split; [done|].
    apply Forall_forall. intros y Hy%elem_of_replicate. lia.
Qed.

(** One wave keeps the invariant. *)
Lemma plan_inv_step base8 u0 hi tslot key k wk :
  plan_inv base8 u0 hi wk →
  hi ≤ tslot → wave_time base8 tslot → key = key_of_time tslot →
  0 ≤ k ≤ Z.of_nat (length (ORP.pending wk)) →
  ∃ p' o',
    ORP.place (Z.to_nat k) tslot (ORP.pending wk) (ORP.out wk) = Ok (p', o') ∧
    plan_inv base8 u0 tslot
      (ORP.Work p' o' (<[key := ORP.used_get (ORP.used wk) key + k]> (ORP.used wk))).
Proof.
  intros (Hs & Hf & Hc) Hhi Hw -> Hk.
  eexists _, _. split; [apply place_spec; lia|].
  set (cs := rev (drop _ _)).
  assert (length cs = Z.to_nat k) as Hlen.
  { unfold cs. rewrite length_rev, length_drop. lia. }
  unfold plan_inv. cbn [ORP.out ORP.used]. split_and!.
  - rewrite map_app, map_map. cbn [snd]. rewrite map_const_replicate.
    apply sorted_snoc_all; [done|].
    apply Forall_fmap. eapply Forall_impl; [exact Hf|]. simpl. intros ct [??]. lia.
  - apply Forall_app. split.
    + eapply Forall_impl; [exact Hf|]. simpl. intros ct [??]. split; [done|lia].
    + apply Forall_fmap, Forall_forall. intros c _. simpl. split; [done|lia].
  - intros key. rewrite used_get_insert, count_at_app, count_at_same, Hlen.
    destruct (decide (key_of_time tslot = key)) as [<-|Hne].
    + rewrite Hc. lia.
    + rewrite Hc. lia.
Qed.

Lemma fill_slots_app (s1 s2 : list ORP.slot) wk :
  ORP.fill_slots (s1 ++ s2) wk =
    let? wk' := ORP.fill_slots s1 wk in ORP.fill_slots s2 wk'.
Proof.
  revert wk. induction s1 as [|[[t c] key] s1 IH]; intros wk; [done|].
  destruct (decide (ORP.pending wk = [])) as [Hp|Hp].
  { rewrite !fill_slots_nil_pending by done. cbn [bind].
    by rewrite fill_slots_nil_pending. }
  cbn [app]. rewrite !fill_slots_cons by done. cbv zeta.
  destruct (_ <=? 0); [apply IH|].
  destruct (ORP.place _ _ _ _) as [pat|]; cbn [bind]; [apply IH|done].
Qed.

Lemma fill_days_concat (days : list (list ORP.slot)) wk :
  ORP.fill_days days wk = ORP.fill_slots (concat days) wk.
Proof.
  revert wk. induction days as [|s days IH]; intros wk; [done|].
  cbn [ORP.fill_days concat]. rewrite fill_slots_app.
  destruct (ORP.fill_slots s wk) as [wk1|]; cbn [bind]; [|done].
  destruct (ORP.pending wk1) eqn:Hp; [|apply IH].
  by rewrite fill_slots_nil_pending.
Qed.

Lemma fill_slots_inv base8 u0 hi hi2 (slots : list ORP.slot) wk wk' :
  ORP.fill_slots slots wk = Ok wk' →
  plan_inv base8 u0 hi wk → hi ≤ hi2 →
  StronglySorted (λ s s' : ORP.slot, s.1.1 ≤ s'.1.1) slots →
  Forall (λ s : ORP.slot,
            hi ≤ s.1.1 ≤ hi2 ∧ wave_time base8 s.1.1 ∧ s.2 = key_of_time s.1.1)
         slots →
  plan_inv base8 u0 hi2 wk'.
Proof.
  revert hi wk. induction slots as [|[[t c] key] slots IH]; intros hi wk Hr Hinv Hhi Hs Hf.
  - injection Hr as <-. by eapply plan_inv_weaken.
  - apply StronglySorted_inv in Hs as [Hs Ht].
    apply Forall_cons in Hf as [(Hb & Hw & Hk) Hf]. cbn [fst snd] in *.
    destruct (decide (ORP.pending wk = [])) as [Hp|Hp].
    { rewrite fill_slots_nil_pending in Hr by done. injection Hr as <-.
      by eapply plan_inv_weaken. }
    rewrite fill_slots_cons in Hr by done. cbv zeta in Hr.
    destruct (Z.leb_spec (Z.min c (Z.of_nat (length (ORP.pending wk)))) 0).
    { eapply IH; [exact Hr|exact Hinv|done|done|done]. }
    destruct (plan_inv_step base8 u0 hi t key
                (Z.min c (Z.of_nat (length (ORP.pending wk)))) wk)
      as (p' & o' & Hpl & Hinv'); [done|lia|done|done|lia|].
    rewrite Hpl in Hr. cbn [bind fst snd] in Hr.
    eapply IH; [exact Hr|exact Hinv'|lia|done|].
    rewrite Forall_forall in Hf, Ht |- *. intros s Hin.
    specialize (Hf s Hin). specialize (Ht s Hin). cbn [fst snd] in Ht.
    split_and!; [lia|lia|tauto|tauto].
Qed.

Lemma roll_slots_inv base8 u0 hi hi2 day_start w d subqs i hs wk wk' :
  ORP.roll_slots day_start w d subqs i hs wk = Ok wk' →
  plan_inv base8 u0 hi wk → hi ≤ hi2 →
  StronglySorted Z.le hs →
  Forall (λ h, hi ≤ day_start + h ≤ hi2 ∧ wave_time base8 (day_start + h) ∧
               (w, d, (day_start + h) mod 24) = key_of_time (day_start + h))
         hs →
  plan_inv base8 u0 hi2 wk'.
Proof.
  revert hi i wk. induction hs as [|h hs IH]; intros hi i wk Hr Hinv Hhi Hs Hf.
  - injection Hr as <-. by eapply plan_inv_weaken.
  - apply StronglySorted_inv in Hs as [Hs Ht].
    apply Forall_cons in Hf as [(Hb & Hw & Hk) Hf].
    destruct (decide (ORP.pending wk = [])) as [Hp|Hp].
    { rewrite roll_slots_nil_pending in Hr by done. injection Hr as <-.
      by eapply plan_inv_weaken. }
    rewrite roll_slots_cons in Hr by done. cbv zeta in Hr.
    set (k := Z.min _ _) in Hr.
    destruct (plan_inv_step base8 u0 hi (day_start + h)
                (w, d, (day_start + h) mod 24) k wk)
      as (p' & o' & Hpl & Hinv'); [done|lia|done|done|unfold k; lia|].
    rewrite Hpl in Hr. cbn [bind fst snd] in Hr.
    eapply IH; [exact Hr|exact Hinv'|lia|done|].
    rewrite Forall_forall in Hf, Ht |- *. intros h' Hin.
    specialize (Hf h' Hin). specialize (Ht h' Hin).
    split_and!; [lia|lia|tauto|tauto].
Qed.

End orp_accounting.

Lemma wave_time_intro base8 day_offset h :
  0 ≤ day_offset → h ∈ ORP.waves → wave_time base8 (base8 + 24 * day_offset + h).
Proof. intros. by exists day_offset, h. Qed.

Lemma waves_sorted : StronglySorted Z.le ORP.waves.
Proof.
  unfold ORP.waves.
  repeat (constructor; [|repeat constructor; lia]). constructor.
Qed.

Lemma waves_bounds h : h ∈ ORP.waves → 0 ≤ h ≤ 12.
Proof.
  unfold ORP.waves. intros Hh.
  repeat (apply elem_of_cons in Hh as [->|Hh]; [lia|]).
  by apply elem_of_nil in Hh.
Qed.

(** The slots of a day are in order of time, inside the day, at wave
    times, and keyed by their time. *)
Lemma slots_of_times used base8 day_offset q :
  base8 mod 24 = 8 → 0 ≤ day_offset →
  StronglySorted (λ s s' : ORP.slot, s.1.1 ≤ s'.1.1)
                 (slots_of used base8 day_offset q) ∧
  Forall (λ s : ORP.slot,
            base8 + 24 * day_offset ≤ s.1.1 ≤ base8 + 24 * day_offset + 12 ∧
            wave_time base8 s.1.1 ∧ s.2 = key_of_time s.1.1)
         (slots_of used base8 day_offset q).
Proof.
  intros Hb Hoff. split.
  - unfold slots_of, ORP.waves. cbn [imap].
    repeat (constructor; [|repeat constructor; simpl; lia]). constructor.
  - apply Forall_forall. intros s Hin.
    apply elem_of_lookup_imap in Hin as (idx & h & -> & Hl).
    apply list_elem_of_lookup_2 in Hl. cbn [fst snd].
    pose proof (waves_bounds h Hl).
    split_and!; [lia|lia|by apply wave_time_intro|by apply bucket_key_of_time].
Qed.

Lemma sorted_app {A} (R : A → A → Prop) (l1 l2 : list A) :
  StronglySorted R l1 → StronglySorted R l2 →
  (∀ x y, x ∈ l1 → y ∈ l2 → R x y) →
  StronglySorted R (l1 ++ l2).
Proof.
  intros H1 H2 H12. induction H1 as [|x l1 H1 IH Hx]; [done|].
  cbn [app]. constructor.
  - apply IH. intros a b Ha Hb. apply H12; [by right|done].
  - apply Forall_app. split; [done|].
    apply Forall_forall. intros y Hy. apply H12; [by left|done].
Qed.

Section orp_plan_accounting.
Context {Case : Type}.
Implicit Types (wk : ORP.work (Case:=Case)).

Lemma roll_day_inv base8 u0 hi cap n_replan day_offset wk wk' :
  roll_day cap base8 n_replan day_offset wk = Ok wk' →
  plan_inv base8 u0 hi wk →
  base8 mod 24 = 8 → 0 ≤ day_offset → hi ≤ base8 + 24 * day_offset →
  plan_inv base8 u0 (base8 + 24 * day_offset + 12) wk'.
Proof.
  unfold roll_day.
  destruct (ORP.day_quota _ _ _ _) as [q|]; cbn [bind]; [|done].
  intros Hr Hinv Hb Hoff Hhi.
  eapply roll_slots_inv; [exact Hr|exact Hinv|lia|apply waves_sorted|].
  apply Forall_forall. intros h Hh. pose proof (waves_bounds h Hh).
  split_and!; [lia|lia|by apply wave_time_intro|].
  by apply (bucket_key_of_time base8 day_offset h).
Qed.

Lemma roll_forward_inv fuel base8 u0 hi cap n_replan day_offset wk wk' :
  ORP.roll_forward fuel cap base8 n_replan day_offset wk = Ok wk' →
  plan_inv base8 u0 hi wk →
  base8 mod 24 = 8 → 0 ≤ day_offset → hi ≤ base8 + 24 * day_offset →
  ∃ hi', plan_inv base8 u0 hi' wk'.
Proof.
  revert hi day_offset wk.
  induction fuel as [|fuel IH]; intros hi off wk;
    (destruct (decide (ORP.pending wk = [])) as [Hp|Hp];
     [rewrite roll_forward_nil by done; intros [= <-]; eauto|]).
  - by rewrite roll_forward_O.
  - rewrite roll_forward_S by done.
    destruct (roll_day _ _ _ _ _) as [wk1|] eqn:Hd; [|done]. cbn [bind].
    intros Hr Hinv Hb Hoff Hhi.
    eapply (IH (base8 + 24 * off + 12)); [exact Hr| |done|lia|lia].
    by eapply roll_day_inv.
Qed.

(** What a call of [plan] has done when it returns. *)
Lemma plan_accounts fuel self (P R : list Case) now outp self' :
  ORP.plan fuel self P R now = Ok (outp, self') →
  StronglySorted Z.le (map snd outp) ∧
  Forall (λ ct, wave_time (ORP.next_8am_at_or_after (now + 24)) ct.2) outp ∧
  ∀ key, ORP.used_get (ORP._used self') key
         = ORP.used_get (ORP._used self) key + count_at key outp.
Proof.
  unfold ORP.plan. destruct P as [|c P].
  { intros [= <- <-]. split_and!; [constructor|constructor|].
    intros key. unfold count_at. simpl. lia. }
  set (P' := c :: P). set (base8 := ORP.next_8am_at_or_after _).
  pose proof (next_8am_at_or_after_hour (now + 24)) as Hb. fold base8 in Hb.
  cbn [mapM].
  destruct (ORP.day_slots_at _ _ _ _ 0) as [s0|] eqn:H0; cbn [bind]; [|done].
  destruct (ORP.day_slots_at _ _ _ _ 1) as [s1|] eqn:H1; cbn [bind]; [|done].
  apply day_slots_at_spec in H0 as (q0 & _ & ->).
  apply day_slots_at_spec in H1 as (q1 & _ & ->).
  rewrite fill_days_concat. cbn [concat]. rewrite app_nil_r.
  destruct (ORP.fill_slots _ _) as [wk1|] eqn:Hf; cbn [bind]; [|done].
  destruct (ORP.roll_forward _ _ _ _ _ _) as [wk2|] eqn:Hr; cbn [bind]; [|done].
  intros [= <- <-]. cbn [ORP._used].
  destruct (slots_of_times (ORP._used self) base8 0 q0 Hb ltac:(lia)) as [Hs0 Hf0].
  destruct (slots_of_times (ORP._used self) base8 1 q1 Hb ltac:(lia)) as [Hs1 Hf1].
  assert (plan_inv base8 (ORP._used self) (base8 + 48) wk1) as Hinv1.
  { eapply (fill_slots_inv base8 (ORP._used self) base8); [exact Hf| |lia| |].
    - split_and!; [constructor|constructor|].
      intros key. unfold count_at. simpl. lia.
    - apply sorted_app; [done|done|].
      intros s s' Hin Hin'. rewrite Forall_forall in Hf0, Hf1.
      specialize (Hf0 s Hin). specialize (Hf1 s' Hin'). lia.
    - apply Forall_app. split.
      + eapply Forall_impl; [exact Hf0|]. simpl. intros s (? & ? & ?).
        split_and!; [lia|lia|done|done].
      + eapply Forall_impl; [exact Hf1|]. simpl. intros s (? & ? & ?).
        split_and!; [lia|lia|done|done]. }
  destruct (roll_forward_inv _ _ _ _ _ _ _ _ _ Hr Hinv1 Hb ltac:(lia) ltac:(lia))
    as (hi' & Hs & Hfa & Hc).
  split_and!; [done| |done].
  eapply Forall_impl; [exact Hfa|]. simpl. by intros ct [??].
Qed.

End orp_plan_accounting.

(** A time is determined by its ledger key. *)
Lemma key_of_time_inj t t' : key_of_time t = key_of_time t' → t = t'.
Proof.
  unfold key_of_time, ORP.dow_1_to_7. intros [= Hw Hd Hh].
  Z.div_mod_to_equations. lia.
Qed.

(** The largest sub-quota a wave can get, over all quotas a day can have. *)
Definition wave_max : list Z := [26; 16; 11; 9; 6; 4].

Lemma quota_table_max :
  Forall (λ '(q, subqs), ∀ idx, (idx < 6)%nat → nth idx subqs 0 ≤ nth idx wave_max 0)
         quota_table.
Proof.
  apply Forall_forall. intros [q subqs] Hin.
  assert (forallb (λ '(q, subqs),
            forallb (λ idx, nth idx subqs 0 <=? nth idx wave_max 0) (seq 0 6))
            quota_table = true) as Hb by (vm_compute; reflexivity).
  rewrite forallb_forall in Hb. apply list_elem_of_In, Hb in Hin.
  rewrite forallb_forall in Hin. intros idx Hidx.
  apply Z.leb_le, Hin, in_seq. lia.
Qed.

Lemma wave_subquota_max cap base8 day_offset backlog idx sq :
  (idx < 6)%nat →
  wave_subquota cap base8 day_offset backlog idx = Ok sq →
  sq ≤ nth idx wave_max 0.
Proof.
  intros Hidx. unfold wave_subquota. cbv zeta.
  destruct (ORP.day_quota _ _ _ _) as [q|] eqn:Hq; cbn [bind]; [|done].
  intros [= <-]. apply day_quota_bounds, quota_table_lookup in Hq.
  pose proof quota_table_max as Hf. rewrite Forall_forall in Hf.
  by apply (Hf _ Hq).
Qed.

(** X6: the ledger after a call of [plan] is the ledger before it plus,
    in every bucket (week, day, hour), the number of returned decisions
    whose time falls into that bucket; and there is one decision for each
    case to plan. *)
Theorem plan_ledger_counts_decisions {Case} fuel self (P R : list Case)
    now outp self' :
  ORP.plan fuel self P R now = Ok (outp, self') →
  length outp = length P ∧
  ∀ key, ORP.used_get (ORP._used self') key
         = ORP.used_get (ORP._used self) key + count_at key outp.
Proof.
  intros Hplan. split.
  - apply plan_shape in Hplan as [Hfst _].
    by rewrite <- (length_map fst outp), Hfst, length_rev.
  - by apply plan_accounts in Hplan as (_ & _ & Hc).
Qed.

Lemma plan_ledger_counts_decisions_witness :
  ORP.plan 0 ORP.init [1%positive; 2%positive; 3%positive] [] 5
    = Ok ([(3%positive, 32); (2%positive, 32); (1%positive, 32)],
          ORP.Planner ORP.default_cap {[ (0, 2, 8) := 3 ]}) ∧
  ORP.used_get {[ (0, 2, 8) := 3 ]} (0, 2, 8)
    = ORP.used_get (ORP._used ORP.init) (0, 2, 8)
      + count_at (0, 2, 8)
          [(3%positive, 32); (2%positive, 32); (1%positive, 32)].
Proof.
  assert (ORP.plan 0 ORP.init [1%positive; 2%positive; 3%positive] [] 5
    = Ok ([(3%positive, 32); (2%positive, 32); (1%positive, 32)],
          ORP.Planner ORP.default_cap {[ (0, 2, 8) := 3 ]})) as H1
    by (vm_compute; reflexivity).
  split; [exact H1|].
  exact (proj2 (plan_ledger_counts_decisions 0 ORP.init
                  [1%positive; 2%positive; 3%positive] [] 5 _ _ H1) (0, 2, 8)).
Defined.

(** X7: the decisions of [plan] are in order of time, the cases in the
    reverse of the order they were given in (the last case to plan gets the
    earliest slot), and every time is one of the six wave hours 8, 10, 12,
    14, 16 and 20 of a day. *)
Theorem plan_chronological {Case} fuel self (P R : list Case) now outp self' :
  ORP.plan fuel self P R now = Ok (outp, self') →
  StronglySorted Z.le (map snd outp) ∧
  map fst outp = rev P ∧
  Forall (λ ct, ct.2 mod 24 ∈ [8; 10; 12; 14; 16; 20]) outp.
Proof.
  intros Hplan. pose proof (plan_shape _ _ _ _ _ _ _ Hplan) as [Hfst _].
  apply plan_accounts in Hplan as (Hs & Hw & _).
  split_and!; [done|done|].
  eapply Forall_impl; [exact Hw|]. simpl.
  intros ct (off & h & Hoff & Hh & ->).
  pose proof (next_8am_at_or_after_hour (now + 24)) as Hb.
  replace ((ORP.next_8am_at_or_after (now + 24) + 24 * off + h) mod 24)
    with (8 + h).
  2:{ pose proof (waves_bounds h Hh). Z.div_mod_to_equations. lia. }
  unfold ORP.waves in Hh.
  repeat (apply elem_of_cons in Hh as [->|Hh];
          [cbn; repeat constructor|]).
  by apply elem_of_nil in Hh.
Qed.

Lemma plan_chronological_witness :
  ORP.plan 0 ORP.init [1%positive; 2%positive; 3%positive] [] 5
    = Ok ([(3%positive, 32); (2%positive, 32); (1%positive, 32)],
          ORP.Planner ORP.default_cap {[ (0, 2, 8) := 3 ]}) ∧
  map fst [(3%positive, 32); (2%positive, 32); (1%positive, 32)]
    = rev [1%positive; 2%positive; 3%positive].
Proof.
  assert (ORP.plan 0 ORP.init [1%positive; 2%positive; 3%positive] [] 5
    = Ok ([(3%positive, 32); (2%positive, 32); (1%positive, 32)],
          ORP.Planner ORP.default_cap {[ (0, 2, 8) := 3 ]})) as H1
    by (vm_compute; reflexivity).
  split; [exact H1|].
  exact (proj1 (proj2 (plan_chronological 0 ORP.init
                  [1%positive; 2%positive; 3%positive] [] 5 _ _ H1))).
Defined.

(** X8: with a ledger that has no negative count, one call of [plan] puts
    at most 26, 16, 11, 9, 6 and 4 cases into the waves at 8, 10, 12, 14,
    16 and 20 o'clock of any one day, and the ledger still has no negative
    count afterwards. *)
Theorem plan_wave_load {Case} fuel self (P R : list Case) now outp self' :
  ORP.plan fuel self P R now = Ok (outp, self') →
  (∀ key, 0 ≤ ORP.used_get (ORP._used self) key) →
  (∀ day_offset idx h,
     0 ≤ day_offset → ORP.waves !! idx = Some h →
     count_at (bucket (ORP.next_8am_at_or_after (now + 24)) day_offset h) outp
       ≤ nth idx wave_max 0) ∧
  (∀ key, 0 ≤ ORP.used_get (ORP._used self') key).
Proof.
  intros Hplan Hpos.
  pose proof (plan_ledger _ _ _ _ _ _ _ Hplan) as Hg.
  apply plan_accounts in Hplan as (_ & _ & Hc).
  split.
  - intros off idx h Hoff Hl.
    set (key := bucket _ off h).
    assert (idx < 6)%nat as Hidx by (by apply lookup_lt_Some in Hl).
    assert (4 ≤ nth idx wave_max 0) as Hmin.
    { do 6 (destruct idx as [|idx]; [cbn; lia|]). simpl in Hidx. lia. }
    destruct (Hg key) as [Hle Hin]. specialize (Hc key). specialize (Hpos key).
    destruct (decide (count_at key outp = 0)) as [->|Hne]; [lia|].
    assert (0 ≤ count_at key outp) by (unfold count_at; lia).
    destruct Hin as (off' & idx' & h' & backlog & sq & Hoff' & Hl' & Hkey & _ & _ & Hsq & Hv);
      [lia|].
    pose proof (waves_range h (list_elem_of_lookup_2 _ _ _ Hl)) as Hh.
    pose proof (waves_range h' (list_elem_of_lookup_2 _ _ _ Hl')) as Hh'.
    destruct (bucket_inj _ _ _ _ _ Hh Hh' Hkey) as [<- <-].
    assert (idx' = idx) as -> by (eapply NoDup_lookup; [apply waves_NoDup|done..]).
    apply wave_subquota_max in Hsq; [|done]. lia.
  - intros key. destruct (Hg key) as [Hle _]. specialize (Hpos key). lia.
Qed.

Lemma plan_wave_load_witness :
  ORP.plan 0 ORP.init [1%positive; 2%positive; 3%positive] [] 5
    = Ok ([(3%positive, 32); (2%positive, 32); (1%positive, 32)],
          ORP.Planner ORP.default_cap {[ (0, 2, 8) := 3 ]}) ∧
  (∀ key, 0 ≤ ORP.used_get (ORP._used ORP.init) key) ∧
  count_at (bucket (ORP.next_8am_at_or_after (5 + 24)) 0 0)
           [(3%positive, 32); (2%positive, 32); (1%positive, 32)]
    ≤ nth 0 wave_max 0.
Proof.
  assert (ORP.plan 0 ORP.init [1%positive; 2%positive; 3%positive] [] 5
    = Ok ([(3%positive, 32); (2%positive, 32); (1%positive, 32)],
          ORP.Planner ORP.default_cap {[ (0, 2, 8) := 3 ]})) as H1
    by (vm_compute; reflexivity).
  assert (∀ key, 0 ≤ ORP.used_get (ORP._used ORP.init) key) as H0
    by (intros key; unfold ORP.used_get, ORP.init; cbn [ORP._used];
        rewrite lookup_empty; simpl; lia).
  split; [exact H1|]. split; [exact H0|].
  exact (proj1 (plan_wave_load 0 ORP.init [1%positive; 2%positive; 3%positive]
                  [] 5 _ _ H1 H0) 0 0%nat 0 ltac:(lia) eq_refl).
Defined.

(** ** The weekly staffing of [ORPlanner.schedule] *)

Lemma dow_cases d : 1 ≤ d ≤ 7 → d ∈ [1; 2; 3; 4; 5; 6; 7].
Proof.
  intros Hd.
  assert (d = 1 ∨ d = 2 ∨ d = 3 ∨ d = 4 ∨ d = 5 ∨ d = 6 ∨ d = 7) as Hc by lia.
  destruct Hc as [->|[->|[->|[->|[->|[->| ->]]]]]];
    repeat first [by apply list_elem_of_here | apply list_elem_of_further].
Qed.

(** X9: [schedule] either returns ten entries or raises [KeyError].  It
    returns when the capacity schedule has all five resources of the day
    of the morning slot [t + 158]; the entries are the five resources at
    [t + 158] and again at [t + 168], each with the capacity of that one
    day, except the OR at [t + 168], which gets that capacity less one but
    never less than 4.  Called at 10:00 or later the two slots are on the
    weekday of the call; called earlier, the slot at [t + 168] is on the
    day after the day whose capacities it carries. *)
Theorem schedule_entries self now :
  match ORP.schedule self now with
  | Ok out =>
      map (λ e : ResourceType * Z * Z, e.1) out =
        [(OR, int_of_float now + 158); (A_BED, int_of_float now + 158);
         (B_BED, int_of_float now + 158); (INTAKE, int_of_float now + 158);
         (ER_PRACTITIONER, int_of_float now + 158);
         (INTAKE, int_of_float now + 168);
         (ER_PRACTITIONER, int_of_float now + 168);
         (A_BED, int_of_float now + 168); (B_BED, int_of_float now + 168);
         (OR, int_of_float now + 168)] ∧
      ∀ r tm v, (r, tm, v) ∈ out →
        ∃ c, ORP.cap self !! (r, ORP.dow_1_to_7 (int_of_float now + 158)) = Some c ∧
             v = if decide (r = OR ∧ tm = int_of_float now + 168)
                 then Z.max 4 (c - 1) else c
  | Err e =>
      e = KeyError ∧
      ∃ r, ORP.cap self !! (r, ORP.dow_1_to_7 (int_of_float now + 158)) = None
  end ∧
  (10 ≤ int_of_float now mod 24 →
   ORP.dow_1_to_7 (int_of_float now + 158) = ORP.dow_1_to_7 (int_of_float now) ∧
   ORP.dow_1_to_7 (int_of_float now + 168) = ORP.dow_1_to_7 (int_of_float now)) ∧
  (int_of_float now mod 24 < 10 →
   ORP.dow_1_to_7 (int_of_float now + 168)
     = ORP.dow_1_to_7 (int_of_float now + 158) mod 7 + 1).
Proof.
  split; [|split].
  - unfold ORP.schedule. cbv zeta. set (t := int_of_float now).
    set (d := ORP.dow_1_to_7 _). cbn [mapM]. unfold getitem.
    destruct (ORP.cap self !! (OR, d)) as [o|] eqn:Ho; cbn [bind];
      [|split; [done|by exists OR]].
    destruct (ORP.cap self !! (A_BED, d)) as [a|] eqn:Ha; cbn [bind];
      [|split; [done|by exists A_BED]].
    destruct (ORP.cap self !! (B_BED, d)) as [b|] eqn:Hb; cbn [bind];
      [|split; [done|by exists B_BED]].
    destruct (ORP.cap self !! (INTAKE, d)) as [i|] eqn:Hi; cbn [bind];
      [|split; [done|by exists INTAKE]].
    destruct (ORP.cap self !! (ER_PRACTITIONER, d)) as [er|] eqn:He; cbn [bind];
      [|split; [done|by exists ER_PRACTITIONER]].
    split; [done|]. intros r tm v Hin. cbn [app] in Hin.
    repeat (apply elem_of_cons in Hin as [[= -> -> ->]|Hin];
            [eexists; split; [eassumption|];
             destruct (decide _) as [[? ?]|Hn]; try done; try lia;
             exfalso; apply Hn; by split|]).
    by apply elem_of_nil in Hin.
  - intros Hh. unfold ORP.dow_1_to_7.
    split; f_equal; Z.div_mod_to_equations; lia.
  - intros Hh. unfold ORP.dow_1_to_7. Z.div_mod_to_equations. lia.
Qed.

Lemma default_cap_lookup d :
  1 ≤ d ≤ 7 →
  ORP.default_cap !! (OR, d) = Some 5 ∧
  ORP.default_cap !! (A_BED, d) = Some 30 ∧
  ORP.default_cap !! (B_BED, d) = Some 40 ∧
  ORP.default_cap !! (INTAKE, d) = Some 4 ∧
  ORP.default_cap !! (ER_PRACTITIONER, d) = Some 9.
Proof.
  intros Hd%dow_cases.
  repeat (apply elem_of_cons in Hd as [->|Hd];
          [split_and!; vm_compute; reflexivity|]).
  by apply elem_of_nil in Hd.
Qed.

(** X10: the planner built from [WEEKLY_CAP] never fails in [schedule]:
    at every time it asks for 5 ORs, 30 and 40 beds, 4 intake and 9 ER
    practitioners at [t + 158], and for the same at [t + 168] with 4 ORs. *)
Theorem schedule_default now :
  ORP.schedule ORP.init now =
    Ok [(OR, int_of_float now + 158, 5); (A_BED, int_of_float now + 158, 30);
        (B_BED, int_of_float now + 158, 40); (INTAKE, int_of_float now + 158, 4);
        (ER_PRACTITIONER, int_of_float now + 158, 9);
        (INTAKE, int_of_float now + 168, 4);
        (ER_PRACTITIONER, int_of_float now + 168, 9);
        (A_BED, int_of_float now + 168, 30); (B_BED, int_of_float now + 168, 40);
        (OR, int_of_float now + 168, 4)].
Proof.
  unfold ORP.schedule, ORP.init. cbv zeta. cbn [ORP.cap mapM].
  destruct (default_cap_lookup (ORP.dow_1_to_7 (int_of_float now + 158))
              (dow_1_to_7_range _)) as (Ho & Ha & Hb & Hi & He).
  unfold getitem. rewrite Ho, Ha, Hb, Hi, He. reflexivity.
Qed.

(** ** The capacity schedule of [ORPlanner.__init__] *)

Lemma convert_row_lookup (row : gmap ResourceType Z) (d : Z)
    (acc : gmap (ResourceType * Z) Z) (r : ResourceType) (d' : Z) :
  map_fold (λ r v acc', <[(r, d) := v]> acc') acc row !! (r, d')
    = if decide (d = d') then
        match row !! r with Some v => Some v | None => acc !! (r, d') end
      else acc !! (r, d').
Proof.
  apply (map_fold_weak_ind (λ res row,
    res !! (r, d') = if decide (d = d') then
        match row !! r with Some v => Some v | None => acc !! (r, d') end
      else acc !! (r, d'))).
  - rewrite lookup_empty. by destruct (decide _).
  - intros r0 v row0 res Hnone IH.
    destruct (decide (d = d')) as [->|Hd].
    + destruct (decide (r0 = r)) as [->|Hr].
      * by rewrite !lookup_insert_eq.
      * rewrite !lookup_insert_ne by congruence. done.
    + rewrite lookup_insert_ne by congruence. done.
Qed.

Lemma convert_lookup (m : gmap Z (gmap ResourceType Z))
    (r : ResourceType) (d : Z) :
  ORP.convert m !! (r, d) = m !! d ≫= (λ row, row !! r).
Proof.
  unfold ORP.convert.
  apply (map_fold_weak_ind (λ res m,
    res !! (r, d) = m !! d ≫= (λ row : gmap ResourceType Z, row !! r))).
  - by rewrite !lookup_empty.
  - intros d0 row m0 res Hnone IH. rewrite convert_row_lookup.
    destruct (decide (d0 = d)) as [->|Hd].
    + rewrite lookup_insert_eq. simpl. rewrite IH, Hnone. simpl.
      by destruct (row !! r).
    + by rewrite lookup_insert_ne.
Qed.

(** [WEEKLY_CAP] as the dictionary it is. *)
Definition weekly_cap_dict : gmap Z (gmap ResourceType Z) :=
  list_to_map (map (λ '(d, row), (d, list_to_map row)) ORP.WEEKLY_CAP).

(** X11: [ORPlanner(cap_schedule)] with a day-keyed dictionary raises
    [StopIteration] on the empty dictionary and otherwise starts with an
    empty ledger and the schedule that has, at [(r, d)], the entry
    [cap_schedule[d][r]] and nothing else; passing that tuple-keyed
    schedule instead gives the same planner unless it is empty; and
    passing [WEEKLY_CAP] itself gives the planner of the default. *)
Theorem init_from_day_keyed (m : gmap Z (gmap ResourceType Z)) :
  match ORP.init_from (ORP.CapDay m) with
  | Some p =>
      m ≠ ∅ ∧ ORP._used p = ∅ ∧
      (∀ r d, ORP.cap p !! (r, d) = m !! d ≫= (λ row, row !! r)) ∧
      (ORP.cap p ≠ ∅ → ORP.init_from (ORP.CapTuple (ORP.cap p)) = Some p)
  | None => m = ∅
  end ∧
  ORP.init_from (ORP.CapDay weekly_cap_dict) = ORP.init_from ORP.CapNone.
Proof.
  split.
  - unfold ORP.init_from. destruct (decide (m = ∅)) as [->|Hne]; [done|].
    cbn [ORP.cap ORP._used]. split_and!; [done|done|apply convert_lookup|].
    intros Hc. by destruct (decide (ORP.convert m = ∅)).
  - unfold ORP.init_from.
    destruct (decide (weekly_cap_dict = ∅)) as [He|_].
    { apply (f_equal (λ m, m !! 1)) in He. by vm_compute in He. }
    vm_compute. reflexivity.
Qed.

(** ** [plan] and a schedule with missing entries *)

Lemma daily_quota_missing cap d r :
  r ∈ [INTAKE; ER_PRACTITIONER; A_BED; B_BED] →
  cap !! (r, d) = None → ORP._daily_quota cap d = Err KeyError.
Proof.
  intros Hr Hnone. unfold ORP._daily_quota, getitem.
  repeat (apply elem_of_cons in Hr as [->|Hr];
          [rewrite Hnone; by repeat (destruct (cap !! _); cbn [bind])|]).
  by apply elem_of_nil in Hr.
Qed.

Lemma day_slots_at_error cap used base8 backlog day_offset e :
  ORP.day_slots_at cap used base8 backlog day_offset = Err e → e = KeyError.
Proof.
  unfold ORP.day_slots_at, ORP.day_quota, ORP._daily_quota, getitem.
  repeat (destruct (cap !! _); cbn [bind]; [|by intros [= <-]]).
  done.
Qed.

(** X12: [plan] computes the quotas of both days of its horizon before it
    places anything: with a case to plan, a schedule that lacks the
    intake, ER or bed entry of the first or of the second day makes it
    raise [KeyError], also when every case would fit into the first day. *)
Theorem plan_missing_day {Case} fuel self (P R : list Case) now day_offset r :
  P ≠ [] → 0 ≤ day_offset ≤ 1 →
  r ∈ [INTAKE; ER_PRACTITIONER; A_BED; B_BED] →
  ORP.cap self !! (r, ORP.dow_1_to_7
                        (ORP.next_8am_at_or_after (now + 24) + 24 * day_offset))
    = None →
  ORP.plan fuel self P R now = Err KeyError.
Proof.
  intros HP Hoff Hr Hnone. unfold ORP.plan. destruct P as [|c P]; [done|].
  set (base8 := ORP.next_8am_at_or_after _) in *. cbn [mapM].
  assert (ORP.day_slots_at (ORP.cap self) (ORP._used self) base8
            (Z.of_nat (length (c :: P)) + Z.of_nat (length R)) day_offset
          = Err KeyError) as Herr.
  { unfold ORP.day_slots_at, ORP.day_quota.
    by rewrite (daily_quota_missing _ _ r Hr Hnone). }
  assert (day_offset = 0 ∨ day_offset = 1) as [->| ->] by lia.
  - by rewrite Herr.
  - destruct (ORP.day_slots_at _ _ _ _ 0) as [s0|e] eqn:H0; cbn [bind].
    + by rewrite Herr.
    + by apply day_slots_at_error in H0 as ->.
Qed.

Lemma plan_missing_day_witness :
  [1%positive] ≠ [] ∧
  ORP.plan 0 ORP.init [1%positive] [] 5 = Ok ([(1%positive, 32)],
     ORP.Planner ORP.default_cap {[ (0, 2, 8) := 1 ]}) ∧
  ORP.plan 0 (ORP.Planner (delete (INTAKE, 3) ORP.default_cap) ∅)
           [1%positive] [] 5 = Err KeyError.
Proof.
  assert ([1%positive] ≠ []) as Hne by done.
  split; [exact Hne|]. split; [vm_compute; reflexivity|].
  apply (plan_missing_day 0 (ORP.Planner (delete (INTAKE, 3) ORP.default_cap) ∅)
           [1%positive] [] 5 1 INTAKE Hne ltac:(lia)).
  - apply list_elem_of_here.
  - vm_compute. reflexivity.
Defined.

(** * Further properties of [rl.py] *)

(** ** The batches of [plan] *)

Lemma plan_loop_closed {Case} (cases : list Case) (n1 n2 : nat)
    (slot1 slot2 : Z) (out : list (Case * Z)) :
  RL.plan_loop cases (Z.of_nat n1) (Z.of_nat n2) slot1 slot2 out =
    out ++ map (λ c, (c, slot1)) (take n1 cases)
        ++ map (λ c, (c, slot2)) (take n2 (drop n1 cases)).
Proof.
  revert n1 n2 out. induction cases as [|cid cases IH]; intros n1 n2 out.
  - cbn [RL.plan_loop]. rewrite drop_nil, !take_nil. cbn [map app].
    by rewrite app_nil_r.
  - cbn [RL.plan_loop]. destruct n1 as [|n1].
    + cbn [Z.of_nat Z.ltb Z.compare]. destruct n2 as [|n2].
      * cbn [Z.of_nat Z.ltb Z.compare take drop map app]. by rewrite app_nil_r.
      * replace (0 <? Z.of_nat (S n2)) with true by (symmetry; apply Z.ltb_lt; lia).
        replace (Z.of_nat (S n2) - 1) with (Z.of_nat n2) by lia.
        rewrite (IH 0%nat n2). cbn [take drop map app].
        by rewrite <- app_assoc.
    + replace (0 <? Z.of_nat (S n1)) with true by (symmetry; apply Z.ltb_lt; lia).
      replace (Z.of_nat (S n1) - 1) with (Z.of_nat n1) by lia.
      rewrite (IH n1 n2). cbn [take drop map app].
      by rewrite <- app_assoc.
Qed.

(** X13: [plan] of the bandit planner admits the first six cases to plan
    (two at the weekend) in one batch and the next three (one at the
    weekend) in a second batch at 08:00 of the day after tomorrow; it
    leaves the other cases out.  The first batch is at 08:00 tomorrow when
    the call is made at 08:00 or earlier in the day, and joins the second
    batch otherwise.  The cases to re-plan are not read. *)
Theorem rl_plan_batches {Case} (P R : list Case) now :
  RL.plan P R now =
    map (λ c, (c, if RL.hour_of now <=? 8 then (now / 24 + 1) * 24 + 8
                  else (now / 24 + 2) * 24 + 8))
        (take (if RL.is_weekend now then 2 else 6) P)
    ++ map (λ c, (c, (now / 24 + 2) * 24 + 8))
           (take (if RL.is_weekend now then 1 else 3)
                 (drop (if RL.is_weekend now then 2 else 6) P)).
Proof.
  unfold RL.plan. cbv zeta.
  assert (RL.next_day_0800 now 1 = (now / 24 + 1) * 24 + 8) as ->
    by (unfold RL.next_day_0800; Z.div_mod_to_equations; lia).
  assert (RL.next_day_0800 now 2 = (now / 24 + 2) * 24 + 8) as ->
    by (unfold RL.next_day_0800; Z.div_mod_to_equations; lia).
  assert (((now / 24 + 1) * 24 + 8 <? now + 24) = negb (RL.hour_of now <=? 8))
    as ->.
  { unfold RL.hour_of.
    destruct (Z.ltb_spec ((now / 24 + 1) * 24 + 8) (now + 24)),
             (Z.leb_spec (now mod 24) 8); try done;
      Z.div_mod_to_equations; lia. }
  destruct (RL.is_weekend now), (RL.hour_of now <=? 8); cbn [negb].
  - exact (plan_loop_closed P 2 1 _ _ []).
  - exact (plan_loop_closed P 2 1 _ _ []).
  - exact (plan_loop_closed P 6 3 _ _ []).
  - exact (plan_loop_closed P 6 3 _ _ []).
Qed.

(** ** What [schedule] emits and what it commits *)

Lemma emit_changes sched scheduled t v :
  RL.emit sched scheduled t v =
    (sched ++ (if decide (scheduled !! (OR, t) = Some v) then []
               else [(OR, t, v)]),
     <[(OR, t) := v]> scheduled).
Proof.
  unfold RL.emit. destruct (scheduled !! (OR, t)) as [v'|] eqn:Hl.
  - destruct (Z.eqb_spec v' v) as [->|Hne].
    + rewrite decide_True by done. by rewrite app_nil_r, insert_id.
    + rewrite decide_False by congruence. done.
  - rewrite decide_False by done. done.
Qed.

(** The result of a call at 18:00, with the action it has chosen. *)
Lemma schedule_at_18_changes self now coin pick :
  RL.hour_of now = 18 →
  ∃ a,
    RL.last_action (RL.schedule self now coin pick).2 = Some a ∧
    (RL.schedule self now coin pick).1 =
      (if decide (RL._scheduled self !! (OR, near_slot now)
                  = Some (near_level self now a))
       then [] else [(OR, near_slot now, near_level self now a)])
      ++ (if decide (RL._scheduled self !! (OR, near_slot now + 168)
                     = Some (Z.min (RL.max_resources self) (Z.max 2 (RL.level a))))
          then []
          else [(OR, near_slot now + 168,
                 Z.min (RL.max_resources self) (Z.max 2 (RL.level a)))]) ∧
    RL._scheduled (RL.schedule self now coin pick).2 =
      <[(OR, near_slot now + 168)
          := Z.min (RL.max_resources self) (Z.max 2 (RL.level a))]>
        (<[(OR, near_slot now) := near_level self now a]> (RL._scheduled self)) ∧
    RL.last_level (RL.schedule self now coin pick).2 = near_level self now a ∧
    RL.max_resources (RL.schedule self now coin pick).2 = RL.max_resources self ∧
    RL.ready_or (RL.schedule self now coin pick).2 = RL.ready_or self ∧
    RL.metrics (RL.schedule self now coin pick).2 = RL.MkMetrics 0 0 0 0 0.
Proof.
  intros Hh. unfold RL.schedule. rewrite Hh. cbn [Z.eqb Pos.eqb negb].
  destruct (match RL.last_state self with Some _ => _ | None => _ end)
    as [Qt Nt].
  destruct (if Qlt_le_dec coin (RL.epsilon self) then _ else _) as [a Qt'].
  fold (near_slot now). fold (near_level self now a).
  rewrite !emit_changes. cbn [app fst snd].
  rewrite lookup_insert_ne by (intros [= ?]; lia).
  exists a. by split_and!.
Qed.

(** X14: the entries a call of [schedule] returns are exactly the changes
    it makes to the committed levels: [(r, t, v)] is returned if and only
    if the level committed for [(r, t)] is [v] after the call and was not
    [v] before it.  There are at most two entries and all are for the
    OR. *)
Theorem schedule_emits_changes self now coin pick sched self' :
  RL.schedule self now coin pick = (sched, self') →
  (length sched ≤ 2)%nat ∧
  Forall (λ e : ResourceType * Z * Z, e.1.1 = OR) sched ∧
  ∀ r t v, (r, t, v) ∈ sched ↔
    RL._scheduled self' !! (r, t) = Some v ∧
    RL._scheduled self !! (r, t) ≠ Some v.
Proof.
  intros Hs.
  destruct (decide (RL.hour_of now = 18)) as [Hh|Hh].
  2:{ rewrite schedule_off_18 in Hs by done. injection Hs as <- <-.
      split_and!; [simpl; lia|constructor|].
      intros r t v. split; [by intros ?%elem_of_nil|]. by intros [? ?]. }
  destruct (schedule_at_18_changes self now coin pick Hh)
    as (a & _ & Hsched & Hcom & _).
  rewrite Hs in Hsched, Hcom. cbn [fst snd] in Hsched, Hcom.
  set (k1 := near_slot now) in *. set (v1 := near_level self now a) in *.
  set (v2 := Z.min _ _) in *.
  split_and!.
  - rewrite Hsched. do 2 destruct (decide _); simpl; lia.
  - rewrite Hsched. do 2 destruct (decide _); by repeat constructor.
  - intros r t v. rewrite Hsched, Hcom, elem_of_app. split.
    + intros [Hin|Hin].
      * destruct (decide (RL._scheduled self !! (OR, k1) = Some v1)) as [|Hne];
          [by apply elem_of_nil in Hin|].
        apply list_elem_of_singleton in Hin as [= -> -> ->].
        rewrite lookup_insert_ne by (intros [= ?]; lia).
        by rewrite lookup_insert_eq.
      * destruct (decide (RL._scheduled self !! (OR, k1 + 168) = Some v2))
          as [|Hne]; [by apply elem_of_nil in Hin|].
        apply list_elem_of_singleton in Hin as [= -> -> ->].
        by rewrite lookup_insert_eq.
    + intros [Hnew Hold].
      destruct (decide ((r, t) = (OR, k1 + 168))) as [[= -> ->]|Hk2].
      { rewrite lookup_insert_eq in Hnew. injection Hnew as <-. right.
        rewrite decide_False by done. apply list_elem_of_here. }
      rewrite lookup_insert_ne in Hnew by done.
      destruct (decide ((r, t) = (OR, k1))) as [[= -> ->]|Hk1].
      { rewrite lookup_insert_eq in Hnew. injection Hnew as <-. left.
        rewrite decide_False by done. apply list_elem_of_here. }
      rewrite lookup_insert_ne in Hnew by done. done.
Qed.

Lemma schedule_emits_changes_witness :
  (length (RL.schedule (RL.init (1 # 10)) 18 (1 # 2) RL.A2).1 ≤ 2)%nat ∧
  (RL.schedule (RL.init (1 # 10)) 18 (1 # 2) RL.A2).1
    = [(OR, 32, 5); (OR, 200, 2)].
Proof.
  split; [|vm_compute; reflexivity].
  exact (proj1 (schedule_emits_changes (RL.init (1 # 10)) 18 (1 # 2) RL.A2 _ _
                  (surjective_pairing _))).
Defined.

(** ** Invariants of a bandit planner started by [__init__] *)

Definition metrics_ok (m : RL.Metrics) : Prop :=
  (0 <= RL.admit_wait m)%Q ∧ (0 <= RL.in_hosp_wait m)%Q ∧
  (0 <= RL.nerv m)%Q ∧ (0 <= RL.cost m)%Q ∧
  (RL.overtime m = 0 ∨ RL.overtime m = 1).

(** The states of the bandit: weekday 0..6, backlog bin 0..3, overtime
    flag 0 or 1. *)
Definition state_ok (s : RL.State) : Prop :=
  0 ≤ s.1.1 ≤ 6 ∧ 0 ≤ s.1.2 ≤ 3 ∧ 0 ≤ s.2 ≤ 1.

(** The state [schedule] computes at a call. *)
Definition state_at (self : RL.planner) (now : Z) : RL.State :=
  (RL.weekday_of now, Z.min 3 (RL.ready_or self / 5),
   if RL.overtime (RL.metrics self) =? 0 then 0 else 1).

Definition bandit_inv (self : RL.planner) : Prop :=
  RL.last_level self = 5 ∧ RL.max_resources self = 5 ∧
  0 ≤ RL.ready_or self ∧ metrics_ok (RL.metrics self) ∧
  (∀ key v, RL._scheduled self !! key = Some v → 2 ≤ v ≤ 5) ∧
  (∀ s a, (Qval self s a <= 0)%Q ∧ 0 ≤ Nval self s a ∧
          (Nval self s a = 0 → Qval self s a = 0%Q)) ∧
  (∀ s, RL.last_state self = Some s → state_ok s) ∧
  (∀ s, is_Some (RL.Qtab self !! s) ∨ is_Some (RL.Ntab self !! s) → state_ok s).

Lemma state_at_ok self now : 0 ≤ RL.ready_or self → state_ok (state_at self now).
Proof.
  intros Hr. unfold state_ok, state_at, RL.weekday_of. cbn [fst snd].
  pose proof (Z.mod_pos_bound (now / 24) 7 ltac:(lia)).
  pose proof (Z.div_pos (RL.ready_or self) 5 Hr ltac:(lia)).
  split_and!; try lia; by destruct (_ =? 0).
Qed.

Lemma reward_nonpos m : metrics_ok m → (RL.reward m <= 0)%Q.
Proof. intros (? & ? & ? & ? & _). unfold RL.reward. lra. Qed.

Lemma mean_update_nonpos (q r : Q) (n : Z) :
  (q <= 0)%Q → (r <= 0)%Q → 0 ≤ n →
  (q + (r - q) / inject_Z (n + 1) <= 0)%Q.
Proof.
  intros Hq Hr Hn.
  assert (0 < inject_Z (n + 1))%Q as Hpos
    by (change 0%Q with (inject_Z 0); rewrite <- Zlt_Qlt; lia).
  assert (1 <= inject_Z (n + 1))%Q as Hone
    by (change 1%Q with (inject_Z 1); rewrite <- Zle_Qle; lia).
  set (d := inject_Z (n + 1)) in *.
  assert (q + (r - q) / d == (q * (d - 1) + r) / d)%Q as ->
    by (field; lra).
  apply Qle_shift_div_r; [done|]. nra.
Qed.

Lemma dd_get_keys {V} (dflt : V) (d : gmap RL.State V) s s' :
  is_Some ((RL.dd_get dflt d s).2 !! s') → is_Some (d !! s') ∨ s' = s.
Proof.
  unfold RL.dd_get. destruct (d !! s) eqn:Hl; cbn [snd]; [by left|].
  destruct (decide (s = s')) as [->|Hne]; [by right|].
  rewrite lookup_insert_ne by done. by left.
Qed.

Lemma update_keys Qt Nt s a r s' :
  is_Some ((RL.update Qt Nt s a r).1 !! s')
  ∨ is_Some ((RL.update Qt Nt s a r).2 !! s') →
  is_Some (Qt !! s') ∨ is_Some (Nt !! s') ∨ s' = s.
Proof.
  unfold RL.update.
  pose proof (dd_get_keys RL.N_default Nt s s') as HN.
  destruct (RL.dd_get RL.N_default Nt s) as [nrow Nt'].
  pose proof (dd_get_keys RL.Q_default Qt s s') as HQ.
  destruct (RL.dd_get RL.Q_default Qt s) as [qrow Qt'].
  cbn [fst snd] in *.
  destruct (decide (s = s')) as [->|Hne]; [tauto|].
  rewrite !lookup_insert_ne by done. tauto.
Qed.

(** The tables and the memory of the last state after a call at 18:00. *)
Lemma schedule_at_18_keys self now coin pick s' :
  RL.hour_of now = 18 →
  RL.last_state (RL.schedule self now coin pick).2 = Some (state_at self now) ∧
  (is_Some (RL.Qtab (RL.schedule self now coin pick).2 !! s')
   ∨ is_Some (RL.Ntab (RL.schedule self now coin pick).2 !! s') →
   is_Some (RL.Qtab self !! s') ∨ is_Some (RL.Ntab self !! s')
   ∨ RL.last_state self = Some s' ∨ s' = state_at self now).
Proof.
  intros Hh. unfold RL.schedule. rewrite Hh. cbn [Z.eqb Pos.eqb negb].
  fold (state_at self now).
  assert (∀ (Qt : gmap RL.State (RL.Row Q)) (Nt : gmap RL.State (RL.Row Z)),
    (is_Some (Qt !! s') ∨ is_Some (Nt !! s') →
     is_Some (RL.Qtab self !! s') ∨ is_Some (RL.Ntab self !! s')
     ∨ RL.last_state self = Some s' ∨ s' = state_at self now) →
    ∀ (Qt' : gmap RL.State (RL.Row Q)) (act : RL.Action),
    (act, Qt') =
      (if Qlt_le_dec coin (RL.epsilon self) then (pick, Qt)
       else let '(q, Qt0) := RL.dd_get RL.Q_default Qt (state_at self now)
            in (RL.argmax q, Qt0)) →
    is_Some (Qt' !! s') ∨ is_Some (Nt !! s') →
    is_Some (RL.Qtab self !! s') ∨ is_Some (RL.Ntab self !! s')
    ∨ RL.last_state self = Some s' ∨ s' = state_at self now) as Hsel.
  { intros Qt Nt Hprev Qt' act Heq.
    destruct (Qlt_le_dec coin (RL.epsilon self)) as [Hlt|Hge].
    - injection Heq as -> ->. exact Hprev.
    - pose proof (dd_get_keys RL.Q_default Qt (state_at self now) s') as Hk.
      destruct (RL.dd_get _ _ _) as [q Qt0]. injection Heq as -> ->.
      cbn [snd] in Hk. tauto. }
  destruct (match RL.last_state self with Some _ => _ | None => _ end)
    as [Qt Nt] eqn:Hupd.
  assert (is_Some (Qt !! s') ∨ is_Some (Nt !! s') →
          is_Some (RL.Qtab self !! s') ∨ is_Some (RL.Ntab self !! s')
          ∨ RL.last_state self = Some s' ∨ s' = state_at self now) as Hprev.
  { destruct (RL.last_state self) as [s0|], (RL.last_action self) as [a0|];
      try (injection Hupd as <- <-; tauto).
    pose proof (update_keys (RL.Qtab self) (RL.Ntab self) s0 a0
                  (RL.reward (RL.metrics self)) s') as Hk.
    rewrite Hupd in Hk. cbn [fst snd] in Hk.
    intros H. destruct (Hk H) as [?|[?| ->]]; tauto. }
  specialize (Hsel Qt Nt Hprev).
  destruct (if Qlt_le_dec coin (RL.epsilon self) then _ else _) as [a Qt'].
  specialize (Hsel Qt' a eq_refl).
  destruct (RL.emit [] _ _ _) as [sched1 scheduled1].
  destruct (RL.emit sched1 _ _ _) as [sched2 scheduled2].
  cbn [snd RL.last_state RL.Qtab RL.Ntab]. split; [done|exact Hsel].
Qed.

Lemma report_metrics_ok self el lc res :
  metrics_ok (RL.metrics self) →
  metrics_ok (RL.metrics (RL.report self el lc res)).
Proof.
  intros (H1 & H2 & H3 & H4 & H5). unfold RL.report. cbv zeta.
  cbn [RL.metrics].
  repeat (match goal with
          | |- context [if ?b then _ else _] => destruct b
          end; cbn [RL.admit_wait RL.in_hosp_wait RL.nerv RL.cost RL.overtime]);
    (split_and!; cbn [RL.admit_wait RL.in_hosp_wait RL.nerv RL.cost RL.overtime];
     first [lra | tauto]).
Qed.

Lemma report_ready_or self el lc res :
  0 ≤ RL.ready_or self → 0 ≤ RL.ready_or (RL.report self el lc res).
Proof.
  intros Hr. unfold RL.report. cbv zeta. cbn [RL.ready_or].
  destruct res as [[]|]; try done.
  repeat (match goal with
          | |- context [if ?b then _ else _] => destruct b
          end); lia.
Qed.

Lemma bandit_inv_init epsilon : bandit_inv (RL.init epsilon).
Proof.
  unfold bandit_inv, RL.init, Qval, Nval. cbn.
  split_and!; try done.
  - unfold metrics_ok. cbn. split_and!; try done. by left.
  - intros s a. rewrite !lookup_empty. by destruct a.
  - intros s. rewrite !lookup_empty. by intros [[? ?]|[? ?]].
Qed.

Lemma bandit_inv_step self e : bandit_inv self → bandit_inv (RL.step self e).
Proof.
  intros (Hl & Hm & Hr & Hmet & Hsch & Htab & Hls & Hkeys).
  pose proof (λ s a, step_tables self e s a) as Hstep.
  assert (∀ s a, (Qval (RL.step self e) s a <= 0)%Q
                 ∧ 0 ≤ Nval (RL.step self e) s a
                 ∧ (Nval (RL.step self e) s a = 0
                    → Qval (RL.step self e) s a = 0%Q))
    as Htab'.
  { intros s a. specialize (Hstep s a). destruct (Htab s a) as (HQ & HN & HZ).
    destruct (credited self e) as [[[s0 a0] r]|] eqn:Hc.
    - assert (r <= 0)%Q as Hrew.
      { destruct e as [t ? ?|]; [|done]. cbn [credited] in Hc.
        destruct (RL.hour_of t =? 18); [|done].
        destruct (RL.last_state self), (RL.last_action self); try done.
        injection Hc as _ _ <-. by apply reward_nonpos. }
      destruct (decide ((s0, a0) = (s, a))).
      + destruct Hstep as [-> ->]. split; [|lia].
        by apply mean_update_nonpos.
      + by destruct Hstep as [-> ->].
    - by destruct Hstep as [-> ->]. }
  destruct e as [now coin pick|el lc res]; cbn [RL.step] in *.
  - destruct (decide (RL.hour_of now = 18)) as [Hh|Hh].
    2:{ rewrite schedule_off_18 by done. cbn [snd]. by split_and!. }
    destruct (schedule_at_18_changes self now coin pick Hh)
      as (a & _ & _ & Hcom & Hlast & Hmax & Hready & Hmetrics).
    assert (Z.min (RL.max_resources self) (Z.max 2 (RL.level a)) = RL.level a
            ∧ 2 ≤ RL.level a ≤ 5) as [Hchosen Hlev]
      by (rewrite Hm; destruct a; cbn; lia).
    assert (near_level self now a = 5) as Hnear.
    { unfold near_level. rewrite Hchosen, Hl.
      destruct (RL._scheduled self !! _) as [v|] eqn:Hv; simpl; [|lia].
      apply Hsch in Hv. lia. }
    unfold bandit_inv. rewrite Hcom, Hlast, Hmax, Hready, Hmetrics, Hnear, Hchosen.
    split_and!; try done.
    + unfold metrics_ok. cbn. split_and!; try done. by left.
    + intros key v. rewrite !lookup_insert.
      repeat case_decide; try (intros [= <-]; lia). apply Hsch.
    + intros s Hs.
      destruct (schedule_at_18_keys self now coin pick s Hh) as [Hst _].
      rewrite Hst in Hs. injection Hs as <-. by apply state_at_ok.
    + intros s Hs.
      destruct (schedule_at_18_keys self now coin pick s Hh) as [_ Hk].
      destruct (Hk Hs) as [?|[?|[?| ->]]]; [apply Hkeys; tauto..| |].
      * by apply Hls.
      * by apply state_at_ok.
  - unfold bandit_inv.
    split_and!; [done|done|by apply report_ready_or|by apply report_metrics_ok
                |done|done|done|done].
Qed.

Lemma bandit_inv_run evs self : bandit_inv self → bandit_inv (RL.run self evs).
Proof.
  revert self. induction evs as [|e evs IH]; intros self Hinv; [done|].
  unfold RL.run. cbn [foldl]. apply IH. by apply bandit_inv_step.
Qed.

Lemma near_slot_at_18 now : RL.hour_of now = 18 → near_slot now = now + 14.
Proof.
  unfold near_slot, RL.next_day_0800, RL.hour_of. intros Hh.
  Z.div_mod_to_equations. lia.
Qed.

(** X15: in a planner that started from [__init__] and has seen any calls
    of [schedule] and [report], the level last committed stays 5, so every
    near-term entry [schedule] returns asks for 5 ORs, whatever action the
    bandit takes: the action only sets the level of the entry one week
    later.  Entries are returned at 18:00 only, for [now + 14] and
    [now + 182]. *)
Theorem bandit_near_term_is_full epsilon evs now coin pick t lvl :
  (OR, t, lvl) ∈ (RL.schedule (RL.run (RL.init epsilon) evs) now coin pick).1 →
  RL.hour_of now = 18 ∧
  ((t = now + 14 ∧ lvl = 5) ∨
   (t = now + 182 ∧
    ∃ a, RL.last_action
           (RL.schedule (RL.run (RL.init epsilon) evs) now coin pick).2 = Some a
         ∧ lvl = RL.level a)) ∧
  RL._scheduled (RL.schedule (RL.run (RL.init epsilon) evs) now coin pick).2
    !! (OR, now + 14) = Some 5 ∧
  RL.last_level (RL.schedule (RL.run (RL.init epsilon) evs) now coin pick).2 = 5.
Proof.
  set (self := RL.run (RL.init epsilon) evs).
  pose proof (bandit_inv_run evs _ (bandit_inv_init epsilon))
    as (Hl & Hm & _ & _ & Hsch & _). fold self in Hl, Hm, Hsch.
  intros Hin.
  destruct (decide (RL.hour_of now = 18)) as [Hh|Hh].
  2:{ rewrite schedule_off_18 in Hin by done. by apply elem_of_nil in Hin. }
  destruct (schedule_at_18_changes self now coin pick Hh)
    as (a & Ha & Hsched & Hcom & Hlast & _).
  assert (Z.min (RL.max_resources self) (Z.max 2 (RL.level a)) = RL.level a)
    as Hchosen by (rewrite Hm; destruct a; cbn; lia).
  assert (near_level self now a = 5) as Hnear.
  { unfold near_level. rewrite Hchosen, Hl.
    destruct (RL._scheduled self !! _) as [v|] eqn:Hv; simpl.
    - apply Hsch in Hv. destruct a; cbn; lia.
    - destruct a; cbn; lia. }
  rewrite Hsched, Hcom, Hlast, Hnear, Hchosen, (near_slot_at_18 now Hh) in *.
  split_and!; [done| | |done].
  - apply elem_of_app in Hin as [Hin|Hin].
    + destruct (decide _); [by apply elem_of_nil in Hin|].
      apply list_elem_of_singleton in Hin as [= -> ->]. by left.
    + destruct (decide _); [by apply elem_of_nil in Hin|].
      apply list_elem_of_singleton in Hin as [= -> ->]. right.
      split; [lia|]. by exists a.
  - rewrite lookup_insert_ne by (intros [= ?]; lia). by rewrite lookup_insert_eq.
Qed.

Lemma bandit_near_term_is_full_witness :
  (OR, 32, 5) ∈ (RL.schedule (RL.run (RL.init (1 # 10)) []) 18 (1 # 2) RL.A2).1 ∧
  RL.hour_of 18 = 18 ∧
  RL.last_level (RL.schedule (RL.run (RL.init (1 # 10)) []) 18 (1 # 2) RL.A2).2 = 5.
Proof.
  assert ((OR, 32, 5) ∈
          (RL.schedule (RL.run (RL.init (1 # 10)) []) 18 (1 # 2) RL.A2).1) as Hin.
  { replace (RL.schedule (RL.run (RL.init (1 # 10)) []) 18 (1 # 2) RL.A2).1
      with [(OR, 32, 5); (OR, 200, 2)] by (vm_compute; reflexivity).
    apply list_elem_of_here. }
  split; [exact Hin|].
  destruct (bandit_near_term_is_full (1 # 10) [] 18 (1 # 2) RL.A2 32 5 Hin)
    as (Hh & _ & _ & Hl).
  split; [exact Hh|exact Hl].
Defined.

(** X16: in a planner that started from [__init__], after any calls of
    [schedule] and [report]: no action-value estimate is positive, no
    visit count is negative, an action never credited has the estimate 0,
    the tables have rows only for the 56 states (weekday 0..6, backlog bin
    0..3, overtime flag 0 or 1), the backlog counter is not negative, and
    every committed level is between 2 and 5. *)
Theorem bandit_tables_bounded epsilon evs :
  (∀ s a,
     (Qval (RL.run (RL.init epsilon) evs) s a <= 0)%Q ∧
     0 ≤ Nval (RL.run (RL.init epsilon) evs) s a ∧
     (Nval (RL.run (RL.init epsilon) evs) s a = 0 →
      Qval (RL.run (RL.init epsilon) evs) s a = 0%Q)) ∧
  (∀ s, is_Some (RL.Qtab (RL.run (RL.init epsilon) evs) !! s)
        ∨ is_Some (RL.Ntab (RL.run (RL.init epsilon) evs) !! s) →
        state_ok s) ∧
  0 ≤ RL.ready_or (RL.run (RL.init epsilon) evs) ∧
  (∀ key v, RL._scheduled (RL.run (RL.init epsilon) evs) !! key = Some v →
            2 ≤ v ≤ 5).
Proof.
  pose proof (bandit_inv_run evs _ (bandit_inv_init epsilon))
    as (_ & _ & Hr & _ & Hsch & Htab & _ & Hkeys).
  by split_and!.
Qed.

(** ** The choice of the action *)

Lemma argmax_spec (q : RL.Row Q) :
  (∀ a, (RL.row_get q a <= RL.row_get q (RL.argmax q))%Q) ∧
  (∀ a, RL.level a < RL.level (RL.argmax q) →
        (RL.row_get q a < RL.row_get q (RL.argmax q))%Q).
Proof.
  unfold RL.argmax. cbv zeta.
  destruct (Qlt_le_dec (RL.row_get q RL.A2) (RL.row_get q RL.A3)) as [H1|H1];
  match goal with
  | |- context [Qlt_le_dec (RL.row_get q ?b) (RL.row_get q RL.A4)] =>
      destruct (Qlt_le_dec (RL.row_get q b) (RL.row_get q RL.A4)) as [H2|H2]
  end;
  match goal with
  | |- context [Qlt_le_dec (RL.row_get q ?b) (RL.row_get q RL.A5)] =>
      destruct (Qlt_le_dec (RL.row_get q b) (RL.row_get q RL.A5)) as [H3|H3]
  end;
  (split; intros a; destruct a; cbn [RL.level]; try lia; intros; lra).
Qed.

(** The action a call at 18:00 takes, and the row it is read from. *)
Lemma schedule_at_18_action self now coin pick :
  RL.hour_of now = 18 →
  RL.epsilon (RL.schedule self now coin pick).2 = RL.epsilon self ∧
  ∃ row,
    (∀ a, Qval (RL.schedule self now coin pick).2 (state_at self now) a
          = RL.row_get row a) ∧
    RL.last_action (RL.schedule self now coin pick).2 =
      Some (if Qlt_le_dec coin (RL.epsilon self) then pick else RL.argmax row).
Proof.
  intros Hh. unfold RL.schedule. rewrite Hh. cbn [Z.eqb Pos.eqb negb].
  fold (state_at self now).
  destruct (match RL.last_state self with Some _ => _ | None => _ end)
    as [Qt Nt].
  pose proof (dd_get_fst RL.Q_default Qt (state_at self now)) as Hf.
  pose proof (dd_get_snd RL.Q_default Qt (state_at self now) (state_at self now))
    as Hs.
  destruct (Qlt_le_dec coin (RL.epsilon self)) as [Hlt|Hge].
  - destruct (RL.emit [] _ _ _) as [sched1 scheduled1].
    destruct (RL.emit sched1 _ _ _) as [sched2 scheduled2].
    unfold Qval. cbn [snd RL.Qtab RL.last_action RL.epsilon].
    split; [done|]. by exists (default RL.Q_default (Qt !! state_at self now)).
  - destruct (RL.dd_get _ _ _) as [q Qt0]. cbn [fst snd] in Hf, Hs. subst q.
    destruct (RL.emit [] _ _ _) as [sched1 scheduled1].
    destruct (RL.emit sched1 _ _ _) as [sched2 scheduled2].
    unfold Qval. cbn [snd RL.Qtab RL.last_action RL.epsilon].
    split; [done|]. exists (default RL.Q_default (Qt !! state_at self now)).
    rewrite Hs. done.
Qed.

Lemma run_epsilon evs self : RL.epsilon (RL.run self evs) = RL.epsilon self.
Proof.
  revert self. induction evs as [|e evs IH]; intros self; [done|].
  unfold RL.run. cbn [foldl]. fold (RL.run (RL.step self e) evs). rewrite IH.
  destruct e as [now coin pick|el lc res]; [|done]. cbn [RL.step].
  destruct (decide (RL.hour_of now = 18)) as [Hh|Hh].
  - by destruct (schedule_at_18_action self now coin pick Hh) as [-> _].
  - by rewrite schedule_off_18.
Qed.

(** X17: at 18:00 [schedule] takes the drawn action when the coin is below
    epsilon, and otherwise the action with the largest estimate in the row
    of the current state, the lowest level among equals.  In a planner
    started from [__init__] this greedy choice never passes over an action
    that was never credited: while the row has one, the action taken has
    the estimate 0. *)
Theorem greedy_action epsilon evs now coin pick :
  RL.hour_of now = 18 →
  ∃ a,
    RL.last_action
      (RL.schedule (RL.run (RL.init epsilon) evs) now coin pick).2 = Some a ∧
    ((coin < epsilon)%Q → a = pick) ∧
    ((epsilon <= coin)%Q →
     ∀ a',
       (Qval (RL.schedule (RL.run (RL.init epsilon) evs) now coin pick).2
             (state_at (RL.run (RL.init epsilon) evs) now) a'
        <= Qval (RL.schedule (RL.run (RL.init epsilon) evs) now coin pick).2
                (state_at (RL.run (RL.init epsilon) evs) now) a)%Q ∧
       (RL.level a' < RL.level a →
        (Qval (RL.schedule (RL.run (RL.init epsilon) evs) now coin pick).2
              (state_at (RL.run (RL.init epsilon) evs) now) a'
         < Qval (RL.schedule (RL.run (RL.init epsilon) evs) now coin pick).2
                (state_at (RL.run (RL.init epsilon) evs) now) a)%Q) ∧
       (Nval (RL.schedule (RL.run (RL.init epsilon) evs) now coin pick).2
             (state_at (RL.run (RL.init epsilon) evs) now) a' = 0 →
        (Qval (RL.schedule (RL.run (RL.init epsilon) evs) now coin pick).2
              (state_at (RL.run (RL.init epsilon) evs) now) a == 0)%Q)).
Proof.
  intros Hh. set (self := RL.run (RL.init epsilon) evs).
  assert (RL.epsilon self = epsilon) as Heps by apply run_epsilon.
  destruct (schedule_at_18_action self now coin pick Hh) as (_ & row & Hrow & Ha).
  pose proof (bandit_inv_run (evs ++ [RL.EvSchedule now coin pick]) _
                (bandit_inv_init epsilon)) as (_ & _ & _ & _ & _ & Htab & _).
  unfold RL.run in Htab. rewrite foldl_app in Htab. cbn [foldl RL.step] in Htab.
  fold (RL.run (RL.init epsilon) evs) in Htab. fold self in Htab.
  rewrite Heps in Ha.
  eexists. split; [exact Ha|].
  destruct (Qlt_le_dec coin epsilon) as [Hlt|Hge].
  - split; [done|]. intros Hle. lra.
  - split; [intros Hlt; lra|]. intros _ a'.
    destruct (argmax_spec row) as [Hmax Hfirst]. rewrite !Hrow.
    split_and!; [apply Hmax|apply Hfirst|].
    intros HN. destruct (Htab (state_at self now) a') as (_ & _ & Hz).
    specialize (Hz HN). rewrite Hrow in Hz.
    destruct (Htab (state_at self now) (RL.argmax row)) as (Hle & _).
    rewrite Hrow in Hle. specialize (Hmax a'). rewrite Hz in Hmax. lra.
Qed.

Lemma greedy_action_witness :
  RL.hour_of 18 = 18 ∧
  ∃ a,
    RL.last_action (RL.schedule (RL.run (RL.init (1 # 10)) []) 18 (1 # 2) RL.A4).2
      = Some a ∧
    ((1 # 2 < 1 # 10)%Q → a = RL.A4).
Proof.
  assert (RL.hour_of 18 = 18) as Hh by reflexivity.
  split; [exact Hh|].
  destruct (greedy_action (1 # 10) [] 18 (1 # 2) RL.A4 Hh) as (a & Ha & Hp & _).
  exists a. split; [exact Ha|exact Hp].
Defined.

(** ** The counters of [report] *)

Lemma upper_app (s1 s2 : string) :
  RL.upper (s1 +:+ s2) = RL.upper s1 +:+ RL.upper s2.
Proof. induction s1 as [|c s1 IH]; simpl; [done|by rewrite IH]. Qed.

Lemma prefix_app (n s : string) : String.prefix n (n +:+ s) = true.
Proof.
  induction n as [|c n IH]; simpl; [by destruct s|].
  destruct (Ascii.ascii_dec c c); [exact IH|done].
Qed.

Lemma contains_unfold (needle hay : string) :
  RL.contains needle hay =
    String.prefix needle hay ||
    match hay with
    | EmptyString => false
    | String _ hay' => RL.contains needle hay'
    end.
Proof. by destruct hay. Qed.

Lemma contains_app (needle pre post : string) :
  RL.contains needle (pre +:+ needle +:+ post) = true.
Proof.
  induction pre as [|c pre IH].
  - change ("" +:+ needle +:+ post) with (needle +:+ post).
    by rewrite contains_unfold, prefix_app.
  - change (String c pre +:+ needle +:+ post)
      with (String c (pre +:+ needle +:+ post)).
    rewrite contains_unfold, IH. apply orb_true_r.
Qed.

(** X18: [report] counts an admission wait for an event in the state
    [ACTIVATE_EVENT] or [WAITING] whose element label has [admission],
    [intake] or [register] anywhere in it, in any mix of upper and lower
    case: it adds 1 to [admit_wait] and changes no other counter.  An
    event without an element never adds to [admit_wait]. *)
Theorem report_admission_label self (pre w post lc : string) res :
  RL.upper w ∈ ["ADMISSION"; "INTAKE"; "REGISTER"] →
  lc ∈ ["ACTIVATE_EVENT"; "WAITING"] →
  RL.metrics (RL.report self (Some (pre +:+ w +:+ post)) lc res)
    = RL.MkMetrics (RL.admit_wait (RL.metrics self) + 1)
                   (RL.in_hosp_wait (RL.metrics self))
                   (RL.nerv (RL.metrics self))
                   (RL.cost (RL.metrics self))
                   (RL.overtime (RL.metrics self)) ∧
  RL.ready_or (RL.report self (Some (pre +:+ w +:+ post)) lc res)
    = RL.ready_or self ∧
  ∀ lc' res',
    RL.admit_wait (RL.metrics (RL.report self None lc' res'))
      = RL.admit_wait (RL.metrics self).
Proof.
  intros Hw Hlc.
  assert (RL.contains "ADMISSION" (RL.upper (pre +:+ w +:+ post))
          || RL.contains "INTAKE" (RL.upper (pre +:+ w +:+ post))
          || RL.contains "REGISTER" (RL.upper (pre +:+ w +:+ post)) = true)
    as Hlbl.
  { rewrite !upper_app.
    repeat (apply elem_of_cons in Hw as [->|Hw];
            [rewrite contains_app; by rewrite ?orb_true_r|]).
    by apply elem_of_nil in Hw. }
  split_and!.
  - unfold RL.report. cbv zeta. cbn [default from_option Datatypes.id RL.metrics].
    rewrite Hlbl.
    repeat (apply elem_of_cons in Hlc as [->|Hlc]; [reflexivity|]).
    by apply elem_of_nil in Hlc.
  - unfold RL.report. cbv zeta. cbn [RL.ready_or].
    repeat (apply elem_of_cons in Hlc as [->|Hlc];
            [by destruct res as [[]|]|]).
    by apply elem_of_nil in Hlc.
  - intros lc' res'. unfold RL.report. cbv zeta.
    cbn [default from_option Datatypes.id RL.metrics RL.upper RL.contains String.prefix orb andb].
    repeat (match goal with
            | |- context [if ?b then _ else _] => destruct b
            end; cbn [RL.admit_wait]); reflexivity.
Qed.

Lemma report_admission_label_witness :
  RL.upper "Admission" ∈ ["ADMISSION"; "INTAKE"; "REGISTER"] ∧
  "WAITING" ∈ ["ACTIVATE_EVENT"; "WAITING"] ∧
  RL.ready_or (RL.report (RL.init (1 # 10))
                 (Some ("Patient " +:+ "Admission" +:+ " desk")) "WAITING" None)
    = RL.ready_or (RL.init (1 # 10)).
Proof.
  assert (RL.upper "Admission" ∈ ["ADMISSION"; "INTAKE"; "REGISTER"]) as Hw
    by apply list_elem_of_here.
  assert ("WAITING" ∈ ["ACTIVATE_EVENT"; "WAITING"]) as Hlc
    by apply list_elem_of_further, list_elem_of_here.
  split; [exact Hw|]. split; [exact Hlc|].
  exact (proj1 (proj2 (report_admission_label (RL.init (1 # 10))
                         "Patient " "Admission" " desk" "WAITING" None Hw Hlc))).
Defined.

(** ** The score helpers *)

Lemma nz_nonzero (x : Q) : ¬ (RL._nz x == 0)%Q.
Proof.
  unfold RL._nz. destruct (Qeq_bool x 0) eqn:E.
  - discriminate.
  - by apply Qeq_bool_neq.
Qed.

Lemma nz_id (x : Q) : ¬ (x == 0)%Q → RL._nz x = x.
Proof.
  intros Hx. unfold RL._nz. destruct (Qeq_bool x 0) eqn:E; [|done].
  by apply Qeq_bool_iff in E.
Qed.

(** X19: with a baseline that has no KPI equal to zero, a result that is
    above the baseline by the same [p] percent in every KPI scores [p],
    and the baseline itself scores 0: the score is the mean of the four
    percentage changes with the cost counted three times.  [_nz] never
    returns zero, so [_normalized] never divides by zero. *)
Theorem final_score_uniform (yours base : RL.KPIs) (p : Q) :
  ¬ (RL.waiting_time_for_admission base == 0)%Q →
  ¬ (RL.waiting_time_in_hospital base == 0)%Q →
  ¬ (RL.nervousness base == 0)%Q →
  ¬ (RL.personnel_cost base == 0)%Q →
  (RL.waiting_time_for_admission yours
   == (1 + p / 100) * RL.waiting_time_for_admission base)%Q →
  (RL.waiting_time_in_hospital yours
   == (1 + p / 100) * RL.waiting_time_in_hospital base)%Q →
  (RL.nervousness yours == (1 + p / 100) * RL.nervousness base)%Q →
  (RL.personnel_cost yours == (1 + p / 100) * RL.personnel_cost base)%Q →
  (RL._final_score (RL._normalized yours base) == p)%Q ∧
  (RL._final_score (RL._normalized base base) == 0)%Q ∧
  ∀ x, ¬ (RL._nz x == 0)%Q.
Proof.
  intros Hb1 Hb2 Hb3 Hb4 H1 H2 H3 H4.
  unfold RL._final_score, RL._normalized.
  cbn [RL.WTA_pct RL.WTH_pct RL.NERV_pct RL.COST_pct].
  rewrite !nz_id by done.
  split_and!; [|field; by split_and!|apply nz_nonzero].
  rewrite H1, H2, H3, H4. field. by split_and!.
Qed.

Lemma final_score_uniform_witness :
  (RL._final_score (RL._normalized RL.BASELINE RL.BASELINE) == 0)%Q.
Proof.
  refine (proj1 (final_score_uniform RL.BASELINE RL.BASELINE 0 _ _ _ _ _ _ _ _));
    vm_compute; congruence.
Defined.

(** * Further properties of [process_mining.py] *)

Lemma all_na_dropna (ds : list (option Q)) :
  PM.all_na ds = true ↔ PM.dropna ds = [].
Proof.
  unfold PM.all_na, PM.dropna. induction ds as [|[d|] ds IH]; simpl; [done..|].
  exact IH.
Qed.

Lemma rows_of_nonempty df activity :
  activity ∈ map PM.event_label df → PM.rows_of df activity ≠ [].
Proof.
  intros Hin. apply list_elem_of_fmap in Hin as (r & -> & Hr).
  unfold PM.rows_of. intros Hnil.
  assert (r ∈ filter (λ r', PM.event_label r' = PM.event_label r) df) as Hf
    by (by apply list_elem_of_filter).
  rewrite Hnil in Hf. by apply elem_of_nil in Hf.
Qed.

(** X20: the extractor writes a mean and a standard deviation for exactly
    the activities that occur in the log.  The mean it writes is never
    [NaN].  The standard deviation it writes is [NaN] exactly when the
    activity has exactly one row with both timestamps: a single duration
    gets neither a deviation nor the default 1800. *)
Theorem extractor_keys_and_nan (df : list PM.row) (activity : string) :
  (is_Some (PM.mean_sec df !! activity) ↔ activity ∈ map PM.event_label df) ∧
  (is_Some (PM.std_sec df !! activity) ↔ activity ∈ map PM.event_label df) ∧
  PM.mean_sec df !! activity ≠ Some None ∧
  (PM.std_sec df !! activity = Some None ↔
   length (PM.dropna (map PM.duration (PM.rows_of df activity))) = 1%nat).
Proof.
  destruct (extract_lookup df activity) as [Hm Hs]. rewrite Hm, Hs.
  destruct (decide (PM.rows_of df activity = [])) as [Hnil|Hne].
  - split_and!.
    + split; [by intros [? ?]|]. by intros ?%rows_of_nonempty.
    + split; [by intros [? ?]|]. by intros ?%rows_of_nonempty.
    + done.
    + rewrite Hnil. by split.
  - pose proof (rows_of_label df activity Hne) as Hin.
    unfold mean_entry, std_entry. cbv zeta.
    set (ds := map PM.duration (PM.rows_of df activity)).
    pose proof (all_na_dropna ds) as Hna.
    unfold PM.series_std, PM.series_var, PM.series_mean. cbv zeta.
    destruct (PM.all_na ds).
    + split_and!; [by split|by split|done|].
      rewrite (proj1 Hna eq_refl). by split.
    + destruct (PM.dropna ds) as [|x xs] eqn:Hxs; [by specialize (proj2 Hna eq_refl)|].
      split_and!; [by split|by split|done|].
      destruct xs as [|y xs]; cbn -[sum_floats Qdiv]; by split.
Qed.

Lemma sum_floats_bounds (lo hi : Q) (xs : list Q) :
  Forall (λ x, lo <= x ∧ x <= hi)%Q xs →
  (lo * inject_Z (Z.of_nat (length xs)) <= sum_floats xs ∧
   sum_floats xs <= hi * inject_Z (Z.of_nat (length xs)))%Q.
Proof.
  induction 1 as [|x xs [Hlo Hhi] _ [IH1 IH2]].
  - change (inject_Z (Z.of_nat (length (@nil Q)))) with 0%Q.
    change (sum_floats []) with 0%Q. lra.
  - cbn [length sum_floats foldr]. fold (sum_floats xs).
    rewrite Nat2Z.inj_succ. unfold Z.succ. rewrite inject_Z_plus.
    change (inject_Z 1) with 1%Q. lra.
Qed.

(** X21: when an activity has a row with both timestamps, the mean the
    extractor writes lies between any two bounds that hold for all its
    defined durations; rows without a timestamp do not count. *)
Theorem extractor_mean_in_range (df : list PM.row) (activity : string) (lo hi : Q) :
  PM.dropna (map PM.duration (PM.rows_of df activity)) ≠ [] →
  Forall (λ x, lo <= x ∧ x <= hi)%Q
         (PM.dropna (map PM.duration (PM.rows_of df activity))) →
  ∃ m, PM.mean_sec df !! activity = Some (Some m) ∧ (lo <= m ∧ m <= hi)%Q.
Proof.
  intros Hne Hall. destruct (extract_lookup df activity) as [Hm _]. rewrite Hm.
  destruct (decide (PM.rows_of df activity = [])) as [Hnil|_];
    [by rewrite Hnil in Hne|].
  unfold mean_entry. cbv zeta.
  set (ds := map PM.duration (PM.rows_of df activity)) in *.
  pose proof (all_na_dropna ds) as Hna.
  destruct (PM.all_na ds); [by destruct Hne; apply Hna|].
  unfold PM.series_mean. cbv zeta.
  destruct (sum_floats_bounds lo hi _ Hall) as [H1 H2].
  destruct (PM.dropna ds) as [|x xs] eqn:Hxs; [done|].
  eexists. split; [reflexivity|].
  assert (0 < inject_Z (Z.of_nat (length (x :: xs))))%Q as Hpos.
  { change 0%Q with (inject_Z 0). rewrite <- Zlt_Qlt. simpl. lia. }
  split.
  - apply Qle_shift_div_l; [done|]. exact H1.
  - apply Qle_shift_div_r; [done|]. exact H2.
Qed.

Lemma extractor_mean_in_range_witness :
  ∃ m, PM.mean_sec intake_log !! "INTAKE" = Some (Some m)
       ∧ (1800 <= m ∧ m <= 2200)%Q.
Proof.
  apply (extractor_mean_in_range intake_log "INTAKE" 1800 2200).
  - vm_compute. discriminate.
  - vm_compute. repeat constructor; discriminate.
Defined.

(** * Further properties of [GASA.py] *)

Lemma run_ga_fold `{Countable Case} (case_ids : list Case) (draws : list Z)
    (acc : gmap Case Z) (c : Case) :
  length draws = length case_ids →
  match (foldl (λ acc '(cid, t), <[cid := t]> acc) acc (zip case_ids draws))
          !! c with
  | Some t =>
      (c ∈ case_ids ∧ t ∈ draws) ∨ ((c ∉ case_ids) ∧ (acc !! c) = Some t)
  | None => (c ∉ case_ids) ∧ (acc !! c) = None
  end.
Proof.
  revert draws acc. induction case_ids as [|cid cs IH]; intros draws acc Hlen.
  - cbn [zip zip_with foldl]. destruct (acc !! c) eqn:Hl.
    + right. split; [apply not_elem_of_nil|done].
    + split; [apply not_elem_of_nil|done].
  - destruct draws as [|t ds]; [done|]. cbn [zip zip_with foldl].
    injection Hlen as Hlen. specialize (IH ds (<[cid := t]> acc) Hlen).
    destruct ((foldl _ _ _) !! c) as [t'|].
    + destruct IH as [[Hin Ht]|[Hnin Hl]].
      * left. split; [by right|by right].
      * destruct (decide (cid = c)) as [->|Hne].
        -- rewrite lookup_insert_eq in Hl. injection Hl as <-.
           left. split; by left.
        -- rewrite lookup_insert_ne in Hl by done. right.
           split; [|done]. rewrite not_elem_of_cons. by split.
    + destruct IH as [Hnin Hl].
      destruct (decide (cid = c)) as [->|Hne];
        [by rewrite lookup_insert_eq in Hl|].
      rewrite lookup_insert_ne in Hl by done.
      split; [|done]. rewrite not_elem_of_cons. by split.
Qed.

(** X22: the schedule that [run_ga] followed by [run_sa_seed] produces has
    an admission time for exactly the cases of [case_ids], each between -2
    and 170 whatever the draws are; so [OfflinePlanner.plan] on it gives a
    case of [case_ids] a time in that range, independent of the time of
    the call, and any other case the time of the call plus 24. *)
Theorem ga_sa_schedule `{Countable Case} (case_ids : list Case)
    (draws : list Z) (ga_score : Q) (delta : Case → Z) (sa_score : Q)
    (to_plan to_replan : list Case) (now : Z) :
  length draws = length case_ids →
  Forall (λ t, 0 ≤ t ≤ 168) draws →
  (∀ c, -2 ≤ delta c ≤ 2) →
  (∀ c,
     match (GASA.run_sa_seed case_ids
              (GASA.run_ga case_ids draws ga_score).1 delta sa_score).1 !! c with
     | Some t => c ∈ case_ids ∧ -2 ≤ t ≤ 170
     | None => c ∉ case_ids
     end) ∧
  Forall (λ ct, if decide (ct.1 ∈ case_ids) then -2 ≤ ct.2 ≤ 170
                else ct.2 = now + 24)
         (GASA.OfflinePlanner_plan
            (GASA.run_sa_seed case_ids
               (GASA.run_ga case_ids draws ga_score).1 delta sa_score).1
            to_plan to_replan now).
Proof.
  intros Hlen Hdraws Hdelta.
  assert (∀ c,
     match (GASA.run_sa_seed case_ids
              (GASA.run_ga case_ids draws ga_score).1 delta sa_score).1 !! c with
     | Some t => c ∈ case_ids ∧ -2 ≤ t ≤ 170
     | None => c ∉ case_ids
     end) as Hsa.
  { intros c. unfold GASA.run_sa_seed, GASA.run_ga. cbn [fst].
    rewrite map_lookup_imap.
    pose proof (run_ga_fold case_ids draws ∅ c Hlen) as Hga.
    destruct ((foldl _ _ _) !! c) as [t|]; cbn.
    - destruct Hga as [[Hin Ht]|[_ Hl]]; [|by rewrite lookup_empty in Hl].
      split; [done|]. rewrite Forall_forall in Hdraws.
      specialize (Hdraws t Ht). specialize (Hdelta c). lia.
    - by destruct Hga. }
  split; [exact Hsa|].
  unfold GASA.OfflinePlanner_plan. apply Forall_fmap, Forall_forall.
  intros c _. simpl. specialize (Hsa c).
  destruct (_ !! c) as [t|]; simpl.
  - destruct Hsa as [Hin Ht]. by destruct (decide (c ∈ case_ids)).
  - by destruct (decide (c ∈ case_ids)).
Qed.

Lemma ga_sa_schedule_witness :
  length [100; 3] = length [1%positive; 2%positive] ∧
  Forall (λ t, 0 ≤ t ≤ 168) [100; 3] ∧
  Forall (λ ct : positive * Z,
            if decide (ct.1 ∈ [1%positive; 2%positive]) then -2 ≤ ct.2 ≤ 170
            else ct.2 = 500 + 24)
         (GASA.OfflinePlanner_plan
            (GASA.run_sa_seed [1%positive; 2%positive]
               (GASA.run_ga [1%positive; 2%positive] [100; 3] 150).1
               (λ _, -2) 100).1
            [2%positive; 5%positive] [] 500).
Proof.
  assert (Forall (λ t, 0 ≤ t ≤ 168) [100; 3]) as Hd
    by (repeat constructor; lia).
  split; [reflexivity|]. split; [exact Hd|].
  exact (proj2 (ga_sa_schedule [1%positive; 2%positive] [100; 3] 150
                  (λ _, -2) 100 [2%positive; 5%positive] [] 500
                  eq_refl Hd ltac:(intros; lia))).
Defined.

(** * Properties of [planners.py] *)

Lemma insert_reverse_desc {A} (key : A → Q) (x : A) (l : list A) :
  StronglySorted (λ a b, key b <= key a)%Q l →
  StronglySorted (λ a b, key b <= key a)%Q (insert_reverse key x l).
Proof.
  induction l as [|y l IH]; intros Hs; cbn [insert_reverse].
  - repeat constructor.
  - apply StronglySorted_inv in Hs as [Hs Hy].
    destruct (Qle_bool (key y) (key x)) eqn:Hle.
    + apply Qle_bool_iff in Hle.
      constructor; [by constructor|]. constructor; [done|].
      eapply Forall_impl; [exact Hy|]. simpl. intros z Hz. lra.
    + assert (key x < key y)%Q as Hlt.
      { destruct (Qlt_le_dec (key x) (key y)) as [|Hge]; [done|].
        apply Qle_bool_iff in Hge. congruence. }
      constructor; [by apply IH|].
      rewrite insert_reverse_perm. constructor; [lra|done].
Qed.

Lemma sorted_reverse_desc {A} (key : A → Q) (l : list A) :
  StronglySorted (λ a b, key b <= key a)%Q (sorted_reverse key l).
Proof.
  induction l as [|x l IH]; cbn [sorted_reverse foldr]; [constructor|].
  fold (sorted_reverse key l). by apply insert_reverse_desc.
Qed.

Lemma batch_closed {A} (base : Z) (l : list A) (k : nat) :
  mjoin (imap (λ i c, if Z.of_nat (k + i) <? 5
                      then [(c, base + Z.of_nat (k + i) * 1)] else []) l)
    = imap (λ i c, (c, base + Z.of_nat (k + i))) (take (5 - k) l).
Proof.
  revert k. induction l as [|c l IH]; intros k.
  - by rewrite take_nil.
  - cbn [imap]. rewrite Nat.add_0_r.
    change (mjoin (?x :: ?l')) with (x ++ mjoin l').
    rewrite (imap_ext _ (λ i c, if Z.of_nat (S k + i) <? 5
                               then [(c, base + Z.of_nat (S k + i) * 1)] else []))
      by (intros i x _; simpl; by rewrite Nat.add_succ_r).
    rewrite IH. destruct (Z.ltb_spec (Z.of_nat k) 5) as [Hlt|Hge].
    + replace (5 - k)%nat with (S (5 - S k)) by lia.
      cbn [take imap app]. rewrite Nat.add_0_r, Z.mul_1_r. f_equal.
      apply imap_ext. intros i x _. simpl. by rewrite Nat.add_succ_r.
    + replace (5 - k)%nat with 0%nat by lia.
      replace (5 - S k)%nat with 0%nat by lia. done.
Qed.

Section improved_planner.
Context `{Countable Case}.

Lemma replan_loop_spec now (R : list Case) planned (replanned : gset Case) :
  ∃ re,
    Planners.replan_loop now R planned replanned =
      (planned ++ map (λ c, (c, now + 24)) re, replanned ∪ list_to_set R) ∧
    NoDup re ∧ ∀ c, c ∈ re ↔ c ∈ R ∧ c ∉ replanned.
Proof.
  unfold Planners.replan_loop.
  revert planned replanned. induction R as [|x R IH]; intros planned replanned.
  - exists []. cbn [foldl map list_to_set]. rewrite app_nil_r, union_empty_r_L.
    split_and!; [done|constructor|].
    intros c. split; [by intros ?%elem_of_nil|by intros [?%elem_of_nil _]].
  - cbn [foldl list_to_set]. destruct (decide (x ∈ replanned)) as [Hin|Hnin].
    + destruct (IH planned replanned) as (re & -> & Hnd & Hre).
      exists re. split_and!; [|done|].
      * f_equal. rewrite (assoc_L (∪)). f_equal. symmetry.
        rewrite (comm_L (∪) replanned {[x]}).
        apply subseteq_union_1_L. by apply singleton_subseteq_l.
      * intros c. rewrite Hre, elem_of_cons. split; [tauto|].
        intros [[->|Hc] Hn]; [done|tauto].
    + destruct (IH (planned ++ [(x, now + 24)]) (replanned ∪ {[x]}))
        as (re & -> & Hnd & Hre).
      exists (x :: re). split_and!.
      * rewrite <- app_assoc. cbn [map app]. f_equal.
        by rewrite (assoc_L (∪)).
      * constructor; [|done]. rewrite Hre. intros [_ Hn]. apply Hn.
        apply elem_of_union_r. by apply elem_of_singleton.
      * intros c. rewrite !elem_of_cons, Hre, not_elem_of_union,
          not_elem_of_singleton. split.
        -- intros [->|(Hc & Hn & _)]; [split; [by left|done]|].
           split; [by right|done].
        -- intros [[->|Hc] Hn]; [by left|].
           destruct (decide (c = x)) as [->|Hne]; [by left|]. by right.
Qed.

(** X23: [ImprovedPlanner.plan] admits at most five of the cases to plan,
    those first in order of decreasing priority, one per hour from 24
    hours after the call; no case left out has a higher priority than one
    admitted.  After them it re-plans, 24 hours after the call, every case
    to re-plan that the planner has not re-planned before, once each, and
    remembers them: a case is re-planned at most once in the life of the
    planner. *)
Theorem improved_plan (self : Planners.planner) (P R : list Case) now out self' :
  Planners.plan self P R now = (out, self') →
  ∃ top rest re,
    out = imap (λ i c, (c, now + 24 + Z.of_nat i)) top
          ++ map (λ c, (c, now + 24)) re ∧
    top ++ rest ≡ₚ P ∧
    length top = (length P `min` 5)%nat ∧
    (∀ x y, x ∈ top → y ∈ rest →
       (default 0 (Planners.case_priority self !! y)
        <= default 0 (Planners.case_priority self !! x))%Q) ∧
    NoDup re ∧
    (∀ c, c ∈ re ↔ c ∈ R ∧ c ∉ Planners.replanned_patients self) ∧
    Planners.replanned_patients self'
      = Planners.replanned_patients self ∪ list_to_set R ∧
    Planners.case_priority self' = Planners.case_priority self.
Proof.
  unfold Planners.plan, Planners.estimate_batch_size. cbv zeta.
  set (key := λ c, default 0%Q (Planners.case_priority self !! c)).
  set (sorted := sorted_reverse key P).
  pose proof (batch_closed (now + 24) sorted 0) as Hb.
  cbn [Nat.add] in Hb. rewrite Hb. clear Hb.
  destruct (replan_loop_spec now R
              (imap (λ i c, (c, now + 24 + Z.of_nat i)) (take (5 - 0) sorted))
              (Planners.replanned_patients self)) as (re & -> & Hnd & Hre).
  intros [= <- <-]. cbn [Planners.replanned_patients Planners.case_priority].
  exists (take 5 sorted), (drop 5 sorted), re.
  split_and!; [done| | | |done|done|done|done].
  - rewrite take_drop. apply sorted_reverse_perm.
  - rewrite length_take. unfold sorted.
    rewrite (Permutation_length (sorted_reverse_perm key P)). lia.
  - intros x y Hx Hy.
    apply (sorted_split (λ a b, key b <= key a)%Q sorted 5 x y);
      [apply sorted_reverse_desc|done|done].
Qed.

End improved_planner.

Lemma improved_plan_witness :
  ∃ top rest re,
    (Planners.plan (Planners.init {[ 1%positive := 3%Q; 2%positive := 7%Q ]})
       [1%positive; 2%positive] [2%positive; 2%positive] 10).1
      = imap (λ i c, (c, 10 + 24 + Z.of_nat i)) top
        ++ map (λ c, (c, 10 + 24)) re ∧
    top ++ rest ≡ₚ [1%positive; 2%positive] ∧
    re = [2%positive].
Proof.
  destruct (improved_plan
              (Planners.init {[ 1%positive := 3%Q; 2%positive := 7%Q ]})
              [1%positive; 2%positive] [2%positive; 2%positive] 10 _ _
              (surjective_pairing _))
    as (top & rest & re & Hout & Hperm & _ & _ & Hnd & Hre & _).
  exists top, rest, re. split; [exact Hout|]. split; [exact Hperm|].
  assert (2%positive ∈ re) as H2.
  { apply Hre. split; [apply list_elem_of_here|].
    cbn. apply not_elem_of_empty. }
  destruct re as [|c re]; [by apply elem_of_nil in H2|].
  assert (∀ d, d ∈ c :: re → d = 2%positive) as Hall.
  { intros d Hd. apply Hre in Hd as [Hd _].
    repeat (apply elem_of_cons in Hd as [->|Hd]; [done|]).
    by apply elem_of_nil in Hd. }
  rewrite (Hall c) in * by apply list_elem_of_here.
  destruct re as [|d re]; [done|].
  rewrite (Hall d) in Hnd by (apply list_elem_of_further, list_elem_of_here).
  apply NoDup_cons in Hnd as [Hnin _]. destruct Hnin. apply list_elem_of_here.
Defined.

(** * Calendar helpers of [or.py] and [rl.py] *)

(** ** [next_8am_at_or_after] on a time with a fraction of an hour *)

(** X24: on a time [t >= 0] that need not be a whole hour,
    [next_8am_at_or_after] returns an 08:00 less than 24 hours after [t]
    and less than one hour before it; it returns a time before [t], the
    08:00 just passed, exactly when the time of day of [t] is strictly
    between 08:00 and 09:00. *)
Theorem next_8am_at_or_after_float_spec (t : Q) :
  (0 <= t)%Q →
  ORP.next_8am_at_or_after_float t mod 24 = 8 ∧
  (t - 1 < inject_Z (ORP.next_8am_at_or_after_float t))%Q ∧
  (inject_Z (ORP.next_8am_at_or_after_float t) < t + 24)%Q ∧
  ((inject_Z (ORP.next_8am_at_or_after_float t) < t)%Q ↔
   (8 < t - 24 * inject_Z (Qfloor (t / 24))
    ∧ t - 24 * inject_Z (Qfloor (t / 24)) < 9)%Q).
Proof.
  intros Ht. unfold ORP.next_8am_at_or_after_float. cbv zeta.
  set (k := Qfloor (t / 24)).
  pose proof (Qfloor_le (t / 24)) as Hk1.
  pose proof (Qlt_floor (t / 24)) as Hk2. fold k in Hk1, Hk2.
  rewrite inject_Z_plus in Hk2. change (inject_Z 1) with 1%Q in Hk2.
  assert (t / 24 * 24 == t)%Q as Hdiv by (field).
  assert (24 * inject_Z k <= t)%Q as Hlo by lra.
  assert (t < 24 * inject_Z k + 24)%Q as Hhi by lra.
  assert (0 ≤ k) as Hk0.
  { assert (inject_Z (-1) < inject_Z k)%Q as Hq
      by (change (inject_Z (-1)) with (-1)%Q; lra).
    rewrite <- Zlt_Qlt in Hq. lia. }
  set (x := (t - 24 * inject_Z k)%Q) in *.
  assert (0 <= x ∧ x < 24)%Q as [Hx0 Hx24] by (unfold x; split; lra).
  destruct (int_of_float_bounds x Hx0) as [Hh1 Hh2].
  set (h := int_of_float x) in *.
  assert (0 ≤ h ≤ 23) as Hh.
  { assert (inject_Z (-1) < inject_Z h)%Q as Hq1
      by (change (inject_Z (-1)) with (-1)%Q; lra).
    assert (inject_Z h < inject_Z 24)%Q as Hq2
      by (change (inject_Z 24) with 24%Q; lra).
    rewrite <- Zlt_Qlt in Hq1, Hq2. lia. }
  assert (0 <= inject_Z k)%Q as Hk0q
    by (change 0%Q with (inject_Z 0); by rewrite <- Zle_Qle).
  assert (0 <= t - inject_Z h)%Q as Hy0 by (unfold x in *; lra).
  destruct (int_of_float_bounds _ Hy0) as [Hb1 Hb2].
  set (b := int_of_float (t - inject_Z h)) in *.
  assert (b = 24 * k) as Hb.
  { assert (inject_Z b < inject_Z (24 * k + 1))%Q as Hq1.
    { rewrite inject_Z_plus, inject_Z_mult.
      change (inject_Z 24) with 24%Q. change (inject_Z 1) with 1%Q.
      unfold x in *. lra. }
    assert (inject_Z (24 * k) < inject_Z (b + 1))%Q as Hq2.
    { rewrite inject_Z_plus, inject_Z_mult.
      change (inject_Z 24) with 24%Q. change (inject_Z 1) with 1%Q.
      unfold x in *. lra. }
    rewrite <- Zlt_Qlt in Hq1, Hq2. lia. }
  assert (inject_Z h <= 8 ↔ (h ≤ 8))%Q as Hh8.
  { change 8%Q with (inject_Z 8). by rewrite <- Zle_Qle. }
  destruct (Z.leb_spec h 8) as [Hle|Hgt].
  - assert (inject_Z (b + 8) == 24 * inject_Z k + 8)%Q as Hr.
    { rewrite Hb, inject_Z_plus, inject_Z_mult. reflexivity. }
    assert (inject_Z h <= 8)%Q as Hhq by (by apply Hh8).
    split_and!.
    + rewrite Hb. Z.div_mod_to_equations. lia.
    + rewrite Hr. unfold x in *. lra.
    + rewrite Hr. unfold x in *. lra.
    + rewrite Hr. unfold x in *. split; [intros; split; lra|intros [? ?]; lra].
  - assert (inject_Z (b + 32) == 24 * inject_Z k + 32)%Q as Hr.
    { rewrite Hb, inject_Z_plus, inject_Z_mult. reflexivity. }
    assert (9 <= inject_Z h)%Q as Hhq.
    { change 9%Q with (inject_Z 9). rewrite <- Zle_Qle. lia. }
    split_and!.
    + rewrite Hb. Z.div_mod_to_equations. lia.
    + rewrite Hr. unfold x in *. lra.
    + rewrite Hr. unfold x in *. lra.
    + rewrite Hr. unfold x in *. split; [intros; lra|intros [? ?]; lra].
Qed.

Lemma next_8am_at_or_after_float_spec_witness :
  (0 <= 65 # 2)%Q ∧
  ORP.next_8am_at_or_after_float (65 # 2) mod 24 = 8 ∧
  (inject_Z (ORP.next_8am_at_or_after_float (65 # 2)) < 65 # 2)%Q.
Proof.
  assert (0 <= 65 # 2)%Q as H0 by (by vm_compute).
  split; [exact H0|].
  destruct (next_8am_at_or_after_float_spec (65 # 2) H0) as (Hm & _ & _ & Hiff).
  split; [exact Hm|]. apply Hiff. split; by vm_compute.
Defined.

(** ** The calendar of the bandit planner *)

(** X25: for one or more days ahead, [next_day_0800] is 08:00 of the day
    that many days after the day of [h]: it is at hour 8, later than [h],
    and on the weekday that many days on.  The guard [h + 1] only matters
    for no days ahead: from 08:00 on, [next_day_0800(h, 0)] is the next
    hour and not an 08:00. *)
Theorem next_day_0800_calendar (h days_ahead : Z) :
  1 ≤ days_ahead →
  RL.next_day_0800 h days_ahead = (h / 24 + days_ahead) * 24 + 8 ∧
  RL.hour_of (RL.next_day_0800 h days_ahead) = 8 ∧
  h + 24 * (days_ahead - 1) + 8 < RL.next_day_0800 h days_ahead
    ≤ h + 24 * days_ahead + 8 ∧
  RL.weekday_of (RL.next_day_0800 h days_ahead)
    = (RL.weekday_of h + days_ahead) mod 7 ∧
  (8 ≤ RL.hour_of h → RL.next_day_0800 h 0 = h + 1).
Proof.
  intros Hd. unfold RL.next_day_0800, RL.hour_of, RL.weekday_of. cbv zeta.
  assert (Z.max (h + 1) ((h / 24 + days_ahead) * 24 + 8)
          = (h / 24 + days_ahead) * 24 + 8) as ->
    by (Z.div_mod_to_equations; lia).
  split; [|split; [|split; [|split]]].
  - done.
  - Z.div_mod_to_equations. lia.
  - Z.div_mod_to_equations. lia.
  - replace (((h / 24 + days_ahead) * 24 + 8) / 24) with (h / 24 + days_ahead)
      by (Z.div_mod_to_equations; lia).
    by rewrite Zplus_mod_idemp_l.
  - intros H8. Z.div_mod_to_equations. lia.
Qed.

Lemma next_day_0800_calendar_witness :
  1 ≤ 2 ∧ RL.next_day_0800 18 2 = 56 ∧ RL.hour_of (RL.next_day_0800 18 2) = 8.
Proof.
  split; [lia|].
  destruct (next_day_0800_calendar 18 2 ltac:(lia)) as (Hv & Hh & _).
  split; [exact Hv|exact Hh].
Defined.
